(** * Svitlo: a grid-power monitor

    Shallow embedding of the Go program: the Deye cloud client (deye.go),
    the Telegram bot, the DTEK outage-schedule client and the polling loops
    of main.go.

    Conventions of the embedding.
    - The Go heap objects [*DeyeClient], [*DtekClient] and [*TelegramBot]
      live in one [State] record that every method threads through.
    - Everything outside the process (HTTP servers, the headless browser,
      the clock) is an oracle of the environment [Env]: the reply to a
      request may depend on every request sent before it.
    - A Go function returning [(T, error)] returns [res T]; a panic and a
      recursion that is cut by the fuel are outcomes of the monad [M].
    - [time.Time] and [time.Duration] are integers counting nanoseconds;
      [int] and [int64] are integers in [Z], with the wrap-around written
      where the code does arithmetic on them; [float64] is the kernel's
      binary64.
    - [encoding/json] is a pair of classes: the wire format itself is not
      part of the repository. *)

From Stdlib Require Import ZArith String Ascii List Lia Bool Floats.
From stdpp Require Import base option list strings gmap.

Local Open Scope string_scope.
Local Open Scope Z_scope.

(** ** Time, machine integers, errors *)

Definition Time := Z.
Definition Duration := Z.

Definition Nanosecond : Duration := 1.
Definition Second : Duration := 1000000000 * Nanosecond.
Definition Minute : Duration := 60 * Second.
Definition Hour : Duration := 60 * Minute.

(** [time.Time{}]: January 1, year 1, counted from the Unix epoch. *)
Definition zeroTime : Time := -62135596800 * Second.

(** [t.After(u)] *)
Definition After (t u : Time) : bool := u <? t.

(** Two's complement reduction of an [int64] result. *)
Definition int64 (z : Z) : Z := (z + 2 ^ 63) mod 2 ^ 64 - 2 ^ 63.

Definition MaxInt64 : Z := 2 ^ 63 - 1.
Definition MinInt64 : Z := - 2 ^ 63.

Inductive error : Type :=
| Errorf (msg : string)                  (* fmt.Errorf without %w *)
| Wrapf (msg : string) (cause : error)   (* fmt.Errorf("msg: %w", cause) *)
| ErrTransport                           (* net/http: the exchange failed *)
| ErrBody                                (* io.ReadAll failed *)
| ErrURL                                 (* net/url: the URL does not parse *)
| ErrJSON                                (* encoding/json: Unmarshal failed *)
| ErrBrowser (step : string).            (* go-rod: a browser step failed *)

Inductive res (A : Type) : Type :=
| Ok (a : A)
| Err (e : error).
Arguments Ok {A} a.
Arguments Err {A} e.

Definition isOk {A} (r : res A) : bool :=
  match r with Ok _ => true | Err _ => false end.

(** ** HTTP *)

Record request := {
  Method : string;
  URL : string;
  Header : list (string * string);
  Payload : string
}.

(** A response whose body cannot be read has [Body = None]. *)
Record response := {
  StatusCode : Z;
  Body : option string
}.

(** What the remote side does with one request: the time the exchange
    takes and, unless the transport fails, a response. *)
Record exchange := {
  latency : N;
  answer : option response
}.

Definition Header_Set (req : request) (key value : string) : request :=
  {| Method := Method req;
     URL := URL req;
     Header := (key, value)
               :: List.filter (fun kv => negb (String.eqb (fst kv) key)) (Header req);
     Payload := Payload req |}.

Definition Header_Get (req : request) (key : string) : string :=
  match List.filter (fun kv => String.eqb (fst kv) key) (Header req) with
  | kv :: _ => snd kv
  | [] => ""
  end.

(** [io.ReadAll(resp.Body)] *)
Definition ReadAll (resp : response) : res string :=
  match Body resp with
  | Some b => Ok b
  | None => Err ErrBody
  end.

(** ** encoding/json

    [json.Marshal] cannot fail on the request types of this program
    (records of strings and integers), so [marshal] is a function and the
    error branch after each call of it is left out. *)

Class Marshal (A : Type) := marshal : A -> string.
Class Unmarshal (A : Type) := unmarshal : string -> option A.

(** ** Wire and domain types (deye.go) *)

Module tokenRequest.
Record t := {
  AppSecret : string;
  Email : string;
  Password : string
}.
End tokenRequest.

Module tokenResponse.
Record t := {
  Success : bool;
  Code : string;
  Msg : string;
  AccessToken : string;
  RefreshToken : string;
  ExpiresIn : string
}.
End tokenResponse.

Module StationLatestRequest.
Record t := { StationID : Z }.
End StationLatestRequest.

Module StationLatestResponse.
Record t := {
  Success : bool;
  Code : string;
  Msg : string;
  GenerationPower : option float;
  ConsumptionPower : option float;
  GridPower : option float;
  PurchasePower : option float;
  WirePower : option float;
  BatteryPower : option float;
  BatterySOC : option float;
  ChargePower : option float;
  DischargePower : option float;
  LastUpdateTime : float
}.
End StationLatestResponse.

Module DeviceLatestRequest.
Record t := { DeviceList : list string }.
End DeviceLatestRequest.

Module DeviceDataItem.
Record t := {
  Name : string;
  Value : string;
  Unit : string
}.
End DeviceDataItem.

Module DeviceLatestEntry.
Record t := {
  DeviceSn : string;
  DeviceState : Z;             (* 1=Online, 2=Alert, 3=Offline *)
  CollectionTime : Z;
  DataList : list DeviceDataItem.t
}.
End DeviceLatestEntry.

Module DeviceLatestResponse.
Record t := {
  Success : bool;
  Code : string;
  Msg : string;
  DeviceList : list DeviceLatestEntry.t
}.
End DeviceLatestResponse.

Module PowerStatus.
Record t := {
  HasGrid : bool;
  GridPower : float;
  PurchasePower : float;
  GenerationPower : float;
  ConsumptionPower : float;
  BatterySOC : float;
  BatteryPower : float;
  DischargePower : float;
  DeviceOnline : bool;
  DeviceState : Z;
  LastUpdateTime : float
}.
End PowerStatus.

Module DeviceListRequest.
Record t := {
  Page : Z;
  Size : Z
}.
End DeviceListRequest.

Module DeviceListItem.
Record t := {
  DeviceSn : string;
  DeviceID : Z;
  DeviceType : string;
  ProductID : Z;
  StationID : Z;
  ConnectStatus : Z;
  ProductName : string;
  StationName : string
}.
End DeviceListItem.

Module DeviceListResponse.
Record t := {
  Success : bool;
  Code : string;
  Msg : string;
  Total : Z;
  Devices : list DeviceListItem.t
}.
End DeviceListResponse.

Record DeyeClient := {
  baseURL : string;
  appID : string;
  appSecret : string;
  email : string;
  password : string;
  accessToken : string;
  expiresAt : Time
}.

(** ** Wire and domain types (Telegram bot) *)

(** The text of an outbound message. The three formatters of main.go only
    lay their arguments out as text; a message is kept as the formatter
    that made it and its arguments. *)
Inductive Text : Type :=
| Literal (s : string)
| formatStatusMessage (s : PowerStatus.t) (dtekLine : string)
| formatPowerOnMessage (s : PowerStatus.t) (dtekLine : string)
| formatPowerOffMessage (s : PowerStatus.t) (dtekLine : string).

Module sendMessageRequest.
Record t := {
  ChatID : Z;
  Text_ : Text;
  ParseMode : string
}.
End sendMessageRequest.

(** The [Result] field of [telegramResponse] (raw JSON) is never read. *)
Module telegramResponse.
Record t := {
  OK : bool;
  Description : string
}.
End telegramResponse.

Module Chat.
Record t := { ID : Z }.
End Chat.

Module Message.
Record t := {
  MessageID : Z;
  Chat_ : Chat.t;
  Text_ : string
}.
End Message.

Module Update.
Record t := {
  UpdateID : Z;
  Message_ : option Message.t
}.
End Update.

Module getUpdatesRequest.
Record t := {
  Offset : Z;
  Timeout : Z
}.
End getUpdatesRequest.

Module getUpdatesResponse.
Record t := {
  OK : bool;
  Result : list Update.t
}.
End getUpdatesResponse.

Record Config := {
  DeyeBaseURL : string;
  DeyeAppID : string;
  DeyeAppSecret : string;
  DeyeEmail : string;
  DeyePassword : string;
  DeyeStationID : Z;
  DeyeDeviceSN : string;
  TelegramBotToken : string;
  TelegramUserIDs : list Z;
  PollIntervalSec : Z
}.

Record TelegramBot := {
  token : string;
  userIDs : list Z;
  offset : Z
}.

(** ** Wire and domain types (DTEK client) *)

Module DtekShutdown.
Record t := {
  SubType : string;
  StartDate : string;
  EndDate : string;
  Type_ : string;
  Reason : list string
}.
End DtekShutdown.

Module DtekResponse.
Record t := {
  Result : bool;
  Data : gmap string DtekShutdown.t
}.
End DtekResponse.

Record DtekClient := {
  city : string;
  street : string;
  house : string;
  cachedAt : Time;
  cachedValue : option DtekShutdown.t;
  cacheHit : bool
}.

(** One run of the headless browser, as the environment decides it: what
    each step of [FetchShutdowns] up to the cookie jar and the CSRF token
    yields. *)
Record BrowserSession := {
  rodLookPath : option string;                (* launcher.LookPath() *)
  execLookPath : string -> bool;              (* exec.LookPath(p) finds p *)
  launchURL : option string;                  (* launcher ... Launch() *)
  connects : bool;                            (* browser.Connect() *)
  navigates : bool;                           (* browser.Page(...) *)
  loadTime : N;                               (* page.WaitLoad() *)
  cookies : option (list (string * string));  (* page.Cookies(...) *)
  csrfElement : bool;                         (* page.Element(meta) *)
  csrfContent : res (option string)           (* csrfEl.Attribute("content") *)
}.

(** ** The environment and the state *)

Record Env := {
  remote : list request -> request -> exchange;
  urlParses : string -> bool;
  Sum256 : string -> string;
  chromium : nat -> BrowserSession;
  formEncode : list (string * string) -> string;
  timeFormat : string -> Time -> string
}.

Record State := {
  now : Time;
  sent : list request;          (* every HTTP request issued, oldest first *)
  fetches : nat;                (* calls of FetchShutdowns begun *)
  broadcasts : list Text;       (* every Broadcast made, oldest first *)
  deye : DeyeClient;
  dtek : DtekClient;
  bot : TelegramBot
}.

Inductive outcome (A : Type) : Type :=
| Returns (a : A)
| Panics (reason : string)
| OutOfFuel.
Arguments Returns {A} a.
Arguments Panics {A} reason.
Arguments OutOfFuel {A}.

Definition M (A : Type) : Type := State -> outcome A * State.

Definition ret {A} (a : A) : M A := fun st => (Returns a, st).

Definition bind {A B} (m : M A) (k : A -> M B) : M B :=
  fun st =>
    match m st with
    | (Returns a, st') => k a st'
    | (Panics r, st') => (Panics r, st')
    | (OutOfFuel, st') => (OutOfFuel, st')
    end.

Declare Scope go_scope.
Delimit Scope go_scope with go.
Notation "'let*' x ':=' m 'in' k" := (bind m (fun x => k))
  (at level 10, x binder, m at level 100, k at level 200) : go_scope.
Local Open Scope go_scope.

Definition panic {A} (reason : string) : M A := fun st => (Panics reason, st).
Definition diverge {A} : M A := fun st => (OutOfFuel, st).
Definition gets {A} (f : State -> A) : M A := fun st => (Returns (f st), st).
Definition modify (f : State -> State) : M unit := fun st => (Returns tt, f st).

Definition with_now (t : Time) (st : State) : State :=
  {| now := t; sent := sent st; fetches := fetches st;
     broadcasts := broadcasts st; deye := deye st; dtek := dtek st;
     bot := bot st |}.

Definition with_sent (l : list request) (st : State) : State :=
  {| now := now st; sent := l; fetches := fetches st;
     broadcasts := broadcasts st; deye := deye st; dtek := dtek st;
     bot := bot st |}.

Definition with_fetches (n : nat) (st : State) : State :=
  {| now := now st; sent := sent st; fetches := n;
     broadcasts := broadcasts st; deye := deye st; dtek := dtek st;
     bot := bot st |}.

Definition with_broadcasts (l : list Text) (st : State) : State :=
  {| now := now st; sent := sent st; fetches := fetches st;
     broadcasts := l; deye := deye st; dtek := dtek st; bot := bot st |}.

Definition with_deye (c : DeyeClient) (st : State) : State :=
  {| now := now st; sent := sent st; fetches := fetches st;
     broadcasts := broadcasts st; deye := c; dtek := dtek st;
     bot := bot st |}.

Definition with_dtek (d : DtekClient) (st : State) : State :=
  {| now := now st; sent := sent st; fetches := fetches st;
     broadcasts := broadcasts st; deye := deye st; dtek := d;
     bot := bot st |}.

Definition with_bot (b : TelegramBot) (st : State) : State :=
  {| now := now st; sent := sent st; fetches := fetches st;
     broadcasts := broadcasts st; deye := deye st; dtek := dtek st;
     bot := b |}.

(** [time.Now()] *)
Definition timeNow : M Time := gets now.

(** [time.Sleep(d)], and any other wait *)
Definition sleep (d : N) : M unit :=
  modify (fun st => with_now (now st + Z.of_N d) st).

(** [s[lo:hi]] on a Go string: a run-time panic outside [0 <= lo <= hi <= len(s)]. *)
Definition slice (s : string) (lo hi : Z) : M string :=
  if (0 <=? lo) && (lo <=? hi) && (hi <=? Z.of_nat (String.length s))
  then ret (substring (Z.to_nat lo) (Z.to_nat (hi - lo)) s)
  else panic "slice bounds out of range".

Definition len (s : string) : Z := Z.of_nat (String.length s).

(** [fmt.Sprintf("%x", bytes)] *)
Definition hexDigit (n : N) : ascii :=
  match n with
  | 0%N => "0" | 1%N => "1" | 2%N => "2" | 3%N => "3" | 4%N => "4"
  | 5%N => "5" | 6%N => "6" | 7%N => "7" | 8%N => "8" | 9%N => "9"
  | 10%N => "a" | 11%N => "b" | 12%N => "c" | 13%N => "d" | 14%N => "e"
  | _ => "f"
  end%char.

Fixpoint hex (s : string) : string :=
  match s with
  | EmptyString => EmptyString
  | String c s' =>
    let n := N_of_ascii c in
    String (hexDigit (N.div n 16)) (String (hexDigit (N.modulo n 16)) (hex s'))
  end.

(** Reading the digits back. *)
Definition unhexDigit (c : ascii) : N :=
  let n := N_of_ascii c in
  if (n <? 58)%N then (n - 48)%N else (n - 87)%N.

Fixpoint unhex (s : string) : string :=
  match s with
  | String hi (String lo s') =>
    String (ascii_of_N (16 * unhexDigit hi + unhexDigit lo)) (unhex s')
  | _ => EmptyString
  end.

Definition isHexDigit (c : ascii) : bool :=
  let n := N_of_ascii c in
  ((48 <=? n) && (n <=? 57) || (97 <=? n) && (n <=? 102))%N.

(** [p != nil] on a pointer *)
Definition notNil {A} (p : option A) : bool :=
  match p with
  | Some _ => true
  | None => false
  end.

(** ** The Deye cloud client (deye.go) *)

Section Program.

Context (env : Env).
Context `{!Marshal tokenRequest.t} `{!Unmarshal tokenResponse.t}.
Context `{!Marshal StationLatestRequest.t}
        `{!Unmarshal StationLatestResponse.t}.
Context `{!Marshal DeviceLatestRequest.t}
        `{!Unmarshal DeviceLatestResponse.t}.

(** [http.NewRequest(method, url, body)] *)
Definition NewRequest (method url : string) (data : string) : res request :=
  if urlParses env url
  then Ok {| Method := method; URL := url; Header := []; Payload := data |}
  else Err ErrURL.

(** The state an exchange leaves: the request is logged and its latency
    has passed. *)
Definition afterDo (req : request) (st : State) : State :=
  with_now (now st + Z.of_N (latency (remote env (sent st) req)))
    (with_sent (sent st ++ [req]) st).

(** [httpClient.Do(req)]: the request goes out, time passes, and the
    environment answers. *)
Definition Do (req : request) : M (res response) :=
  fun st =>
    (Returns match answer (remote env (sent st) req) with
             | Some resp => Ok resp
             | None => Err ErrTransport
             end,
     afterDo req st).

Definition sha256Hex (s : string) : string := hex (Sum256 env s).

Definition set_accessToken (tok : string) (c : DeyeClient) : DeyeClient :=
  {| baseURL := baseURL c; appID := appID c; appSecret := appSecret c;
     email := email c; password := password c;
     accessToken := tok; expiresAt := expiresAt c |}.

Definition set_expiresAt (t : Time) (c : DeyeClient) : DeyeClient :=
  {| baseURL := baseURL c; appID := appID c; appSecret := appSecret c;
     email := email c; password := password c;
     accessToken := accessToken c; expiresAt := t |}.

Definition Authenticate : M (res unit) :=
  let* c := gets deye in
  let body := {| tokenRequest.AppSecret := appSecret c;
                 tokenRequest.Email := email c;
                 tokenRequest.Password := sha256Hex (password c) |} in
  let data := marshal body in
  let url := (baseURL c ++ "/v1.0/account/token?appId=" ++ appID c)%string in
  match NewRequest "POST" url data with
  | Err err => ret (Err (Wrapf "create token request" err))
  | Ok req =>
    let req := Header_Set req "Content-Type" "application/json" in
    let* r := Do req in
    match r with
    | Err err => ret (Err (Wrapf "token request failed" err))
    | Ok resp =>
      match ReadAll resp with
      | Err err => ret (Err (Wrapf "read token response" err))
      | Ok respBody =>
        match unmarshal respBody with
        | None => ret (Err (Wrapf "unmarshal token response" ErrJSON))
        | Some tokenResp =>
          if negb (tokenResponse.Success tokenResp)
          then ret (Err (Errorf ("deye auth failed: code="
                                 ++ tokenResponse.Code tokenResp ++ " msg="
                                 ++ tokenResponse.Msg tokenResp)%string))
          else
            (* Ensure token has "Bearer " prefix *)
            let token := tokenResponse.AccessToken tokenResp in
            let token := if negb (String.prefix "Bearer " token)
                         then ("Bearer " ++ token)%string else token in
            let* _ := modify (fun st =>
                        with_deye (set_accessToken token (deye st)) st) in
            (* Token expires in ~60 days, refresh 1 hour before *)
            let* t := timeNow in
            let* _ := modify (fun st =>
                        with_deye (set_expiresAt (t + 59 * 24 * Hour) (deye st)) st) in
            (* the log line slices the token *)
            let* c := gets deye in
            let* _ := slice (accessToken c) 0 15 in
            let* _ := slice (accessToken c) (len (accessToken c) - 6)
                            (len (accessToken c)) in
            ret (Ok tt)
        end
      end
    end
  end.

Definition getToken : M (res string) :=
  let* c := gets deye in
  let token := accessToken c in
  let* t := timeNow in
  let expired := After t (expiresAt c) in
  if String.eqb token "" || expired
  then
    let* r := Authenticate in
    match r with
    | Err err => ret (Err err)
    | Ok _ =>
      let* c := gets deye in
      ret (Ok (accessToken c))
    end
  else ret (Ok token).

(** [doRequest] calls itself after a re-authentication; [fuel] bounds the
    depth of that recursion. *)
Fixpoint doRequest {Req Resp : Type} `{!Marshal Req} `{!Unmarshal Resp}
    (fuel : nat) (path : string) (reqBody : Req) : M (res Resp) :=
  match fuel with
  | O => diverge
  | S fuel' =>
    let* r := getToken in
    match r with
    | Err err => ret (Err (Wrapf "get token" err))
    | Ok token =>
      let data := marshal reqBody in
      let* c := gets deye in
      let url := (baseURL c ++ path)%string in
      (* the log line slices the token *)
      let* _ := slice token 0 15 in
      let* _ := slice token (len token - 6) (len token) in
      match NewRequest "POST" url data with
      | Err err => ret (Err (Wrapf "create request" err))
      | Ok req =>
        let req := Header_Set req "Content-Type" "application/json" in
        let req := Header_Set req "Authorization" token in
        let* r := Do req in
        match r with
        | Err err => ret (Err (Wrapf "request failed" err))
        | Ok resp =>
          match ReadAll resp with
          | Err err => ret (Err (Wrapf "read response" err))
          | Ok respBody =>
            (* If unauthorized, try re-auth once *)
            if StatusCode resp =? 401
            then
              let* r := Authenticate in
              match r with
              | Err err => ret (Err (Wrapf "re-auth failed" err))
              | Ok _ => doRequest fuel' path reqBody
              end
            else
              match unmarshal respBody with
              | None => ret (Err (Wrapf "unmarshal response" ErrJSON))
              | Some result => ret (Ok result)
              end
          end
        end
      end
    end
  end.

Definition GetStationLatest (fuel : nat) (stationID : Z)
  : M (res StationLatestResponse.t) :=
  let reqBody := {| StationLatestRequest.StationID := stationID |} in
  let* r := doRequest fuel "/v1.0/station/latest" reqBody in
  match r with
  | Err err => ret (Err err)
  | Ok resp =>
    if negb (StationLatestResponse.Success resp)
    then ret (Err (Errorf ("station/latest failed: code="
                           ++ StationLatestResponse.Code resp ++ " msg="
                           ++ StationLatestResponse.Msg resp)%string))
    else ret (Ok resp)
  end.

Definition GetDeviceLatest (fuel : nat) (deviceSNs : list string)
  : M (res DeviceLatestResponse.t) :=
  let reqBody := {| DeviceLatestRequest.DeviceList := deviceSNs |} in
  let* r := doRequest fuel "/v1.0/device/latest" reqBody in
  match r with
  | Err err => ret (Err err)
  | Ok resp =>
    if negb (DeviceLatestResponse.Success resp)
    then ret (Err (Errorf ("device/latest failed: code="
                           ++ DeviceLatestResponse.Code resp ++ " msg="
                           ++ DeviceLatestResponse.Msg resp)%string))
    else ret (Ok resp)
  end.

Definition ptrVal (p : option float) : float :=
  match p with
  | None => 0%float
  | Some v => v
  end.

(** [x > 0] on a [float64] *)
Definition gt0 (x : float) : bool := PrimFloat.ltb 0%float x.

Definition set_DeviceOnline (b : bool) (s : PowerStatus.t) : PowerStatus.t :=
  {| PowerStatus.HasGrid := PowerStatus.HasGrid s;
     PowerStatus.GridPower := PowerStatus.GridPower s;
     PowerStatus.PurchasePower := PowerStatus.PurchasePower s;
     PowerStatus.GenerationPower := PowerStatus.GenerationPower s;
     PowerStatus.ConsumptionPower := PowerStatus.ConsumptionPower s;
     PowerStatus.BatterySOC := PowerStatus.BatterySOC s;
     PowerStatus.BatteryPower := PowerStatus.BatteryPower s;
     PowerStatus.DischargePower := PowerStatus.DischargePower s;
     PowerStatus.DeviceOnline := b;
     PowerStatus.DeviceState := PowerStatus.DeviceState s;
     PowerStatus.LastUpdateTime := PowerStatus.LastUpdateTime s |}.

Definition set_DeviceState (n : Z) (s : PowerStatus.t) : PowerStatus.t :=
  {| PowerStatus.HasGrid := PowerStatus.HasGrid s;
     PowerStatus.GridPower := PowerStatus.GridPower s;
     PowerStatus.PurchasePower := PowerStatus.PurchasePower s;
     PowerStatus.GenerationPower := PowerStatus.GenerationPower s;
     PowerStatus.ConsumptionPower := PowerStatus.ConsumptionPower s;
     PowerStatus.BatterySOC := PowerStatus.BatterySOC s;
     PowerStatus.BatteryPower := PowerStatus.BatteryPower s;
     PowerStatus.DischargePower := PowerStatus.DischargePower s;
     PowerStatus.DeviceOnline := PowerStatus.DeviceOnline s;
     PowerStatus.DeviceState := n;
     PowerStatus.LastUpdateTime := PowerStatus.LastUpdateTime s |}.

Definition GetPowerStatus (fuel : nat) (stationID : Z) (deviceSN : string)
  : M (res PowerStatus.t) :=
  let* r := GetStationLatest fuel stationID in
  match r with
  | Err err => ret (Err (Wrapf "get station" err))
  | Ok station =>
    let* r := GetDeviceLatest fuel [deviceSN] in
    match r with
    | Err err => ret (Err (Wrapf "get device" err))
    | Ok device =>
      let gridPower := ptrVal (StationLatestResponse.GridPower station) in
      let purchasePower := ptrVal (StationLatestResponse.PurchasePower station) in
      let hasGrid :=
        if notNil (StationLatestResponse.GridPower station)
           || notNil (StationLatestResponse.PurchasePower station)
        then gt0 gridPower || gt0 purchasePower
        else false in
      let status :=
        {| PowerStatus.HasGrid := hasGrid;
           PowerStatus.GridPower := gridPower;
           PowerStatus.PurchasePower := purchasePower;
           PowerStatus.GenerationPower :=
             ptrVal (StationLatestResponse.GenerationPower station);
           PowerStatus.ConsumptionPower :=
             ptrVal (StationLatestResponse.ConsumptionPower station);
           PowerStatus.BatterySOC :=
             ptrVal (StationLatestResponse.BatterySOC station);
           PowerStatus.BatteryPower :=
             ptrVal (StationLatestResponse.BatteryPower station);
           PowerStatus.DischargePower :=
             ptrVal (StationLatestResponse.DischargePower station);
           PowerStatus.DeviceOnline := false;
           PowerStatus.DeviceState := 0;
           PowerStatus.LastUpdateTime :=
             StationLatestResponse.LastUpdateTime station |} in
      let status :=
        match DeviceLatestResponse.DeviceList device with
        | d0 :: _ =>
          set_DeviceState (DeviceLatestEntry.DeviceState d0)
            (set_DeviceOnline (DeviceLatestEntry.DeviceState d0 =? 1) status)
        | [] => status
        end in
      ret (Ok status)
    end
  end.


(** ** The Telegram bot *)

Context `{!Marshal sendMessageRequest.t} `{!Unmarshal telegramResponse.t}.
Context `{!Marshal getUpdatesRequest.t} `{!Unmarshal getUpdatesResponse.t}.

Definition apiURL (b : TelegramBot) (method : string) : string :=
  ("https://api.telegram.org/bot" ++ token b ++ "/" ++ method)%string.

(** [httpClient.Post(url, contentType, body)] *)
Definition Post (url contentType data : string) : M (res response) :=
  match NewRequest "POST" url data with
  | Err err => ret (Err err)
  | Ok req => Do (Header_Set req "Content-Type" contentType)
  end.

Definition SendMessage (chatID : Z) (text : Text) : M (res unit) :=
  let* b := gets bot in
  let body := {| sendMessageRequest.ChatID := chatID;
                 sendMessageRequest.Text_ := text;
                 sendMessageRequest.ParseMode := "HTML" |} in
  let data := marshal body in
  let* r := Post (apiURL b "sendMessage") "application/json" data in
  match r with
  | Err err => ret (Err (Wrapf "sendMessage request" err))
  | Ok resp =>
    match ReadAll resp with
    | Err err => ret (Err (Wrapf "read sendMessage response" err))
    | Ok respBody =>
      match unmarshal respBody with
      | None => ret (Err (Wrapf "unmarshal sendMessage response" ErrJSON))
      | Some tgResp =>
        if negb (telegramResponse.OK tgResp)
        then ret (Err (Errorf ("telegram sendMessage failed: "
                               ++ telegramResponse.Description tgResp)%string))
        else ret (Ok tt)
      end
    end
  end.

(** The loop of [Broadcast]: a failed delivery is logged and the loop goes on. *)
Fixpoint sendEach (ids : list Z) (text : Text) : M unit :=
  match ids with
  | [] => ret tt
  | userID :: rest =>
    let* _ := SendMessage userID text in
    sendEach rest text
  end.

(** [Broadcast] is entered in [broadcasts] before it sends. *)
Definition Broadcast (text : Text) : M unit :=
  let* _ := modify (fun st => with_broadcasts (broadcasts st ++ [text]) st) in
  let* b := gets bot in
  sendEach (userIDs b) text.

Definition set_offset (o : Z) (b : TelegramBot) : TelegramBot :=
  {| token := token b; userIDs := userIDs b; offset := o |}.

Definition GetUpdates : M (res (list Update.t)) :=
  let* b := gets bot in
  let body := {| getUpdatesRequest.Offset := offset b;
                 getUpdatesRequest.Timeout := 30 |} in
  let data := marshal body in
  let* r := Post (apiURL b "getUpdates") "application/json" data in
  match r with
  | Err err => ret (Err (Wrapf "getUpdates request" err))
  | Ok resp =>
    match ReadAll resp with
    | Err err => ret (Err (Wrapf "read getUpdates response" err))
    | Ok respBody =>
      match unmarshal respBody with
      | None => ret (Err (Wrapf "unmarshal getUpdates response" ErrJSON))
      | Some updResp =>
        if negb (getUpdatesResponse.OK updResp)
        then ret (Err (Errorf "getUpdates failed"))
        else
          let* _ :=
            match last (getUpdatesResponse.Result updResp) with
            | Some u =>
              modify (fun st =>
                with_bot (set_offset (int64 (Update.UpdateID u + 1)) (bot st)) st)
            | None => ret tt
            end in
          ret (Ok (getUpdatesResponse.Result updResp))
      end
    end
  end.

Definition IsAllowedUser (chatID : Z) : M bool :=
  let* b := gets bot in
  ret (existsb (fun id => id =? chatID) (userIDs b)).

(** ** The DTEK outage-schedule client *)

Context `{!Unmarshal DtekResponse.t}.

Definition browserCandidates : list string :=
  [ "/snap/bin/chromium";
    "/usr/bin/chromium";
    "/usr/bin/chromium-browser";
    "/usr/bin/google-chrome";
    "/usr/bin/google-chrome-stable" ].

Definition lookupBrowser (s : BrowserSession) : string :=
  match rodLookPath s with
  | Some path => path
  | None =>
    match List.find (execLookPath s) browserCandidates with
    | Some p => p
    | None => ""
    end
  end.

(** [strings.Join(parts, sep)] *)
Definition Join (parts : list string) (sep : string) : string :=
  String.concat sep parts.

(** The browser is closed on every path after it connected; closing is
    taken to succeed. [fetches] counts the calls. *)
Definition FetchShutdowns : M (res (option DtekShutdown.t)) :=
  let* n := gets fetches in
  let* _ := modify (fun st => with_fetches (S n) st) in
  let s := chromium env n in
  let browserPath := lookupBrowser s in
  if String.eqb browserPath ""
  then ret (Err (Errorf "chromium not found; install it: snap install chromium"))
  else
  match launchURL s with
  | None => ret (Err (Wrapf "launcher" (ErrBrowser "launch")))
  | Some u =>
  if negb (connects s)
  then ret (Err (Wrapf "browser connect" (ErrBrowser "connect")))
  else
  if negb (navigates s)
  then ret (Err (Wrapf "navigate" (ErrBrowser "page")))
  else
  (* Wait for Imperva challenge *)
  let* _ := sleep (loadTime s) in
  let* _ := sleep (Z.to_N (5 * Second)) in
  match cookies s with
  | None => ret (Err (Wrapf "get cookies" (ErrBrowser "cookies")))
  | Some cookies =>
  if negb (csrfElement s)
  then ret (Err (Wrapf "csrf element" (ErrBrowser "element")))
  else
  match csrfContent s with
  | Err err => ret (Err (Wrapf "csrf attribute" err))
  | Ok None => ret (Err (Errorf "csrf attribute: %!w(<nil>)"))
  | Ok (Some csrfToken) =>
    let cookieParts := map (fun c => (fst c ++ "=" ++ snd c)%string) cookies in
    let cookieStr := Join cookieParts "; " in
    let* t := timeNow in
    let now := timeFormat env "02.01.2006 15:04" t in
    let* d := gets dtek in
    let formData :=
      [ ("method", "getHomeNum");
        ("data[0][name]", "city");
        ("data[0][value]", city d);
        ("data[1][name]", "street");
        ("data[1][value]", street d);
        ("data[2][name]", "updateFact");
        ("data[2][value]", now) ] in
    match NewRequest "POST" "https://www.dtek-dnem.com.ua/ua/ajax"
                     (formEncode env formData) with
    | Err err => ret (Err err)
    | Ok req =>
      let req := Header_Set req "Content-Type"
                   "application/x-www-form-urlencoded; charset=UTF-8" in
      let req := Header_Set req "X-Requested-With" "XMLHttpRequest" in
      let req := Header_Set req "X-CSRF-Token" csrfToken in
      let req := Header_Set req "Referer"
                   "https://www.dtek-dnem.com.ua/ua/shutdowns" in
      let req := Header_Set req "Origin" "https://www.dtek-dnem.com.ua" in
      let req := Header_Set req "Cookie" cookieStr in
      let req := Header_Set req "User-Agent"
                   "Mozilla/5.0 (X11; Linux aarch64) AppleWebKit/537.36 (KHTML, like Gecko) Chrome/120.0.0.0 Safari/537.36" in
      let* r := Do req in
      match r with
      | Err err => ret (Err err)
      | Ok resp =>
        match ReadAll resp with
        | Err err => ret (Err err)
        | Ok body =>
          match unmarshal body with
          | None => ret (Err (Wrapf "parse response" ErrJSON))
          | Some dtekResp =>
            if negb (DtekResponse.Result dtekResp)
            then ret (Err (Errorf "dtek returned result=false"))
            else
              match DtekResponse.Data dtekResp !! house d with
              | None => ret (Ok None)
              | Some shutdown => ret (Ok (Some shutdown))
              end
          end
        end
      end
    end
  end
  end
  end.

Definition dtekCacheTTL : Duration := 10 * Minute.

(** [time.Since(t)] *)
Definition Since (t : Time) : M Duration :=
  let* n := timeNow in
  ret (n - t).

Definition ClearCache : M unit :=
  modify (fun st =>
    with_dtek {| city := city (dtek st); street := street (dtek st);
                 house := house (dtek st); cachedAt := cachedAt (dtek st);
                 cachedValue := cachedValue (dtek st);
                 cacheHit := false |} st).

Definition GetShutdown : M (res (option DtekShutdown.t)) :=
  let* d := gets dtek in
  let* since := Since (cachedAt d) in
  if cacheHit d && (since <? dtekCacheTTL)
  then ret (Ok (cachedValue d))
  else
    let* r := FetchShutdowns in
    match r with
    | Err err => ret (Err err)
    | Ok shutdown =>
      let* t := timeNow in
      let* _ := modify (fun st =>
        with_dtek {| city := city (dtek st); street := street (dtek st);
                     house := house (dtek st); cachedAt := t;
                     cachedValue := shutdown;
                     cacheHit := true |} st) in
      ret (Ok shutdown)
    end.

(** The test [GetShutdown] makes of the cache, read on a state. *)
Definition cacheValid (st : State) : bool :=
  cacheHit (dtek st) && (now st - cachedAt (dtek st) <? dtekCacheTTL).

Definition ShutdownLine : M string :=
  let* r := GetShutdown in
  match r with
  | Err _ => ret "📋 ДТЕК: помилка отримання даних"
  | Ok None => ret "📋 ДТЕК: відключень немає"
  | Ok (Some shutdown) =>
    ret ("📋 ДТЕК: " ++ DtekShutdown.StartDate shutdown ++ " – "
         ++ DtekShutdown.EndDate shutdown)%string
  end.

(** ** The power state monitor (main.go) *)

(** The closure [checkAndNotify] of [runDeyePoller]; the variable
    [lastHasGrid] it captures is passed in and returned. *)
Definition checkAndNotify (fuel : nat) (cfg : Config)
    (lastHasGrid : option bool) : M (option bool) :=
  let* r := GetPowerStatus fuel (DeyeStationID cfg) (DeyeDeviceSN cfg) in
  match r with
  | Err _ => ret lastHasGrid
  | Ok status =>
    let currentHasGrid := PowerStatus.HasGrid status in
    match lastHasGrid with
    | None =>
      (* First check — save state, send current status *)
      let* line := ShutdownLine in
      let msg := formatStatusMessage status line in
      let* _ := Broadcast msg in
      ret (Some currentHasGrid)
    | Some last =>
      if negb (Bool.eqb currentHasGrid last)
      then
        (* State changed! *)
        let* msg :=
          if currentHasGrid
          then (let* line := ShutdownLine in
                ret (formatPowerOnMessage status line))
          else (let* line := ShutdownLine in
                ret (formatPowerOffMessage status line)) in
        let* _ := Broadcast msg in
        ret (Some currentHasGrid)
      else ret (Some last)
    end
  end.

(** The [for]/[select] loop: one entry of [ticks] per tick received before
    the context is cancelled, holding the time waited for it. *)
Fixpoint pollLoop (fuel : nat) (cfg : Config) (lastHasGrid : option bool)
    (ticks : list N) : M (option bool) :=
  match ticks with
  | [] => ret lastHasGrid
  | d :: ticks' =>
    let* _ := sleep d in
    let* lastHasGrid' := checkAndNotify fuel cfg lastHasGrid in
    pollLoop fuel cfg lastHasGrid' ticks'
  end.

(** [time.NewTicker(d)] panics when [d <= 0]; [d] is the product, an
    [int64], of the configured interval and [time.Second]. *)
Definition runDeyePoller (fuel : nat) (cfg : Config) (ticks : list N)
  : M (option bool) :=
  if int64 (PollIntervalSec cfg * Second) <=? 0
  then panic "non-positive interval for NewTicker"
  else
    (* First check immediately *)
    let* lastHasGrid := checkAndNotify fuel cfg None in
    pollLoop fuel cfg lastHasGrid ticks.

(** The constructors, and the heap [main] starts from. *)
Definition NewDeyeClient (cfg : Config) : DeyeClient :=
  {| baseURL := DeyeBaseURL cfg;
     appID := DeyeAppID cfg;
     appSecret := DeyeAppSecret cfg;
     email := DeyeEmail cfg;
     password := DeyePassword cfg;
     accessToken := "";
     expiresAt := zeroTime |}.

Definition NewTelegramBot (token : string) (userIDs : list Z) : TelegramBot :=
  {| token := token; userIDs := userIDs; offset := 0 |}.

Definition NewDtekClient (city street house : string) : DtekClient :=
  {| city := city; street := street; house := house;
     cachedAt := zeroTime; cachedValue := None; cacheHit := false |}.

Definition startState (cfg : Config) (t0 : Time) : State :=
  {| now := t0; sent := []; fetches := 0; broadcasts := [];
     deye := NewDeyeClient cfg;
     dtek := NewDtekClient "м. Підгороднє" "вул. Сагайдачного Петра" "63";
     bot := NewTelegramBot (TelegramBotToken cfg) (TelegramUserIDs cfg) |}.

(** *** The cycles of a run

    What one poll cycle did: the grid-present flag it sampled ([None] when
    the telemetry fetch failed), the stored flag before and after it, and
    the broadcasts it made. *)
Record cycle := {
  sample : option bool;
  before : option bool;
  after : option bool;
  emitted : list Text
}.

(** One call of the closure [checkAndNotify] with [lastHasGrid] stored,
    from [st0]. *)
Definition cycleAt (fuel : nat) (cfg : Config) (lastHasGrid : option bool)
    (st0 : State) : option (cycle * State) :=
  match GetPowerStatus fuel (DeyeStationID cfg) (DeyeDeviceSN cfg) st0,
        checkAndNotify fuel cfg lastHasGrid st0 with
  | (Returns r, _), (Returns lastHasGrid', st1) =>
    Some ({| sample := match r with
                       | Ok status => Some (PowerStatus.HasGrid status)
                       | Err _ => None
                       end;
             before := lastHasGrid;
             after := lastHasGrid';
             emitted := drop (length (broadcasts st0)) (broadcasts st1) |},
          st1)
  | _, _ => None
  end.

(** Cycle [k] of the run of [runDeyePoller] over [ticks] from [st]: cycle 0
    is the immediate check, cycle [S j] the check at tick [j]. It is read
    off [runDeyePoller] itself, stopped just before the cycle (the context
    cancelled after [j] ticks) and just after it (after [S j] ticks): the
    stored flag before and after are the flags these two runs end with,
    the broadcasts are what the second run broadcast more than the first,
    and the sample is what the telemetry fetch returns where the cycle
    begins. The variable [lastHasGrid] is [nil] when the function is
    entered. *)
Definition cycleOf (fuel : nat) (cfg : Config) (ticks : list N) (st : State)
    (k : nat) : option cycle :=
  match k with
  | O =>
    match GetPowerStatus fuel (DeyeStationID cfg) (DeyeDeviceSN cfg) st,
          runDeyePoller fuel cfg [] st with
    | (Returns r, _), (Returns l1, st1) =>
      Some {| sample := match r with
                        | Ok status => Some (PowerStatus.HasGrid status)
                        | Err _ => None
                        end;
              before := None;
              after := l1;
              emitted := drop (length (broadcasts st)) (broadcasts st1) |}
    | _, _ => None
    end
  | S j =>
    match ticks !! j,
          runDeyePoller fuel cfg (take j ticks) st,
          runDeyePoller fuel cfg (take (S j) ticks) st with
    | Some d, (Returns l0, st0), (Returns l1, st1) =>
      match GetPowerStatus fuel (DeyeStationID cfg) (DeyeDeviceSN cfg)
              (snd (sleep d st0)) with
      | (Returns r, _) =>
        Some {| sample := match r with
                          | Ok status => Some (PowerStatus.HasGrid status)
                          | Err _ => None
                          end;
                before := l0;
                after := l1;
                emitted := drop (length (broadcasts st0)) (broadcasts st1) |}
      | _ => None
      end
    | _, _, _ => None
    end
  end.

(** The cycles before cycle [k], oldest first. *)
Fixpoint cyclesBefore (fuel : nat) (cfg : Config) (ticks : list N)
    (st : State) (k : nat) : list cycle :=
  match k with
  | O => []
  | S j =>
    cyclesBefore fuel cfg ticks st j
    ++ match cycleOf fuel cfg ticks st j with
       | Some c => [c]
       | None => []
       end
  end.


(** The flag of the last cycle of [cs] that sampled one, [init] if none did. *)
Definition lastSampled (init : option bool) (cs : list cycle) : option bool :=
  fold_left (fun acc c => match sample c with
                          | Some b => Some b
                          | None => acc
                          end) cs init.

(** The rule of the monitor, read on one cycle. *)
Definition cycle_ok (c : cycle) : Prop :=
  match sample c with
  | None => after c = before c /\ emitted c = []
  | Some b =>
    after c = Some b /\
    match before c with
    | None =>
      exists status line,
        PowerStatus.HasGrid status = b
        /\ emitted c = [formatStatusMessage status line]
    | Some prev =>
      if Bool.eqb b prev
      then emitted c = []
      else exists status line,
        PowerStatus.HasGrid status = b
        /\ emitted c = [if b then formatPowerOnMessage status line
                            else formatPowerOffMessage status line]
    end
  end.

(** The highest update identifier of a batch. *)
Definition highestUpdateID (batch : list Update.t) : Z :=
  foldr (fun u m => Z.max (Update.UpdateID u) m) MinInt64 batch.

(** The two kinds of request the Deye client sends. *)
Definition tokenURL (c : DeyeClient) : string :=
  (baseURL c ++ "/v1.0/account/token?appId=" ++ appID c)%string.

Definition Bearer (tok : string) : bool := String.prefix "Bearer " tok.

Definition isTokenRequest (c : DeyeClient) (r : request) : Prop :=
  URL r = tokenURL c /\ Header_Get r "Authorization" = "".

Definition isTelemetryRequest (c : DeyeClient) (path : string) (r : request)
  : Prop :=
  URL r = (baseURL c ++ path)%string
  /\ Bearer (Header_Get r "Authorization") = true.

Definition okRequest (c : DeyeClient) (path : string) (r : request) : Prop :=
  isTokenRequest c r \/ isTelemetryRequest c path r.

(** The token held is empty or has the prefix. *)
Definition tokenInv (c : DeyeClient) : Prop :=
  accessToken c = "" \/ Bearer (accessToken c) = true.

Definition sameConfig (c c' : DeyeClient) : Prop :=
  baseURL c' = baseURL c /\ appID c' = appID c
  /\ appSecret c' = appSecret c /\ email c' = email c
  /\ password c' = password c.

(** From [st] to [st'] the client of configuration [c] only sent token
    requests and Bearer-authorized requests to [path]. *)
Definition sentOnly (c : DeyeClient) (path : string) (st st' : State) : Prop :=
  (exists new, sent st' = (sent st ++ new)%list /\ Forall (okRequest c path) new)
  /\ sameConfig c (deye st').

(** A token endpoint that grants a token, long enough for the log line, to
    every request, and an endpoint at [path] that answers 401 to every
    request. *)
Definition grants (c : DeyeClient) : Prop :=
  forall history req, URL req = tokenURL c ->
    exists d code body g,
      remote env history req
        = {| latency := d;
             answer := Some {| StatusCode := code; Body := Some body |} |}
      /\ unmarshal body = Some g
      /\ tokenResponse.Success g = true
      /\ 15 <= len (tokenResponse.AccessToken g).

Definition rejects (c : DeyeClient) (path : string) : Prop :=
  forall history req, URL req = (baseURL c ++ path)%string ->
    exists d body,
      remote env history req
        = {| latency := d;
             answer := Some {| StatusCode := 401; Body := Some body |} |}.


Definition isAlert (t : Text) : bool :=
  match t with
  | formatPowerOnMessage _ _ | formatPowerOffMessage _ _ => true
  | _ => false
  end.

(** ** Device discovery (deye.go, main.go) *)

Context `{!Marshal DeviceListRequest.t} `{!Unmarshal DeviceListResponse.t}.

Definition GetDeviceList (fuel : nat) : M (res DeviceListResponse.t) :=
  let reqBody := {| DeviceListRequest.Page := 1;
                    DeviceListRequest.Size := 100 |} in
  let* r := doRequest fuel "/v1.0/device/list" reqBody in
  match r with
  | Err err => ret (Err err)
  | Ok resp =>
    if negb (DeviceListResponse.Success resp)
    then ret (Err (Errorf ("device/list failed: code="
                           ++ DeviceListResponse.Code resp ++ " msg="
                           ++ DeviceListResponse.Msg resp)%string))
    else ret (Ok resp)
  end.

Definition set_DeyeStationID (id : Z) (cfg : Config) : Config :=
  {| DeyeBaseURL := DeyeBaseURL cfg; DeyeAppID := DeyeAppID cfg;
     DeyeAppSecret := DeyeAppSecret cfg; DeyeEmail := DeyeEmail cfg;
     DeyePassword := DeyePassword cfg; DeyeStationID := id;
     DeyeDeviceSN := DeyeDeviceSN cfg;
     TelegramBotToken := TelegramBotToken cfg;
     TelegramUserIDs := TelegramUserIDs cfg;
     PollIntervalSec := PollIntervalSec cfg |}.

Definition set_DeyeDeviceSN (sn : string) (cfg : Config) : Config :=
  {| DeyeBaseURL := DeyeBaseURL cfg; DeyeAppID := DeyeAppID cfg;
     DeyeAppSecret := DeyeAppSecret cfg; DeyeEmail := DeyeEmail cfg;
     DeyePassword := DeyePassword cfg; DeyeStationID := DeyeStationID cfg;
     DeyeDeviceSN := sn;
     TelegramBotToken := TelegramBotToken cfg;
     TelegramUserIDs := TelegramUserIDs cfg;
     PollIntervalSec := PollIntervalSec cfg |}.

(** The start of [main], from the authentication to the end of the
    discovery block; what it does to [cfg] is returned. Each [log.Fatal]
    of the block is an [Err]: the process exits there. *)
Definition discover (fuel : nat) (cfg : Config) : M (res Config) :=
  let* r := Authenticate in
  match r with
  | Err err => ret (Err (Wrapf "Deye authentication failed" err))
  | Ok _ =>
    (* Auto-discover station ID and device SN if not set *)
    if (DeyeStationID cfg =? 0) || String.eqb (DeyeDeviceSN cfg) ""
    then
      let* r := GetDeviceList fuel in
      match r with
      | Err err => ret (Err (Wrapf "Failed to get device list" err))
      | Ok devices =>
        match DeviceListResponse.Devices devices with
        | [] => ret (Err (Errorf "No devices found on your Deye account"))
        | first :: _ =>
          (* Use first device *)
          let cfg :=
            if DeyeStationID cfg =? 0
            then set_DeyeStationID (DeviceListItem.StationID first) cfg
            else cfg in
          let cfg :=
            if String.eqb (DeyeDeviceSN cfg) ""
            then set_DeyeDeviceSN (DeviceListItem.DeviceSn first) cfg
            else cfg in
          ret (Ok cfg)
        end
      end
    else ret (Ok cfg)
  end.

(** ** The command listener (main.go) *)

Definition handleStatusCommand (fuel : nat) (cfg : Config) (chatID : Z)
  : M unit :=
  let* r := GetPowerStatus fuel (DeyeStationID cfg) (DeyeDeviceSN cfg) in
  match r with
  | Err _ =>
    let* _ := SendMessage chatID
                (Literal "Помилка при отриманні статусу. Спробуйте пізніше.") in
    ret tt
  | Ok status =>
    let* line := ShutdownLine in
    let msg := formatStatusMessage status line in
    let* _ := SendMessage chatID msg in
    ret tt
  end.

(** The body of the loop over the updates of one batch. *)
Definition handleUpdate (fuel : nat) (cfg : Config) (update : Update.t)
  : M unit :=
  match Update.Message_ update with
  | None => ret tt
  | Some message =>
    let chatID := Chat.ID (Message.Chat_ message) in
    let* allowed := IsAllowedUser chatID in
    if negb allowed
    then ret tt
    else
      if String.eqb (Message.Text_ message) "/status"
      then handleStatusCommand fuel cfg chatID
      else if String.eqb (Message.Text_ message) "/start"
      then
        let* _ := SendMessage chatID
                    (Literal "Бот Світло активний. Використовуй /status щоб перевірити стан електрики.") in
        ret tt
      else ret tt
  end.

Fixpoint handleUpdates (fuel : nat) (cfg : Config) (updates : list Update.t)
  : M unit :=
  match updates with
  | [] => ret tt
  | update :: rest =>
    let* _ := handleUpdate fuel cfg update in
    handleUpdates fuel cfg rest
  end.

(** [rounds] is the number of times the loop finds the context not yet
    cancelled. *)
Fixpoint runTelegramPoller (fuel : nat) (cfg : Config) (rounds : nat)
  : M unit :=
  match rounds with
  | O => ret tt
  | S rounds' =>
    let* r := GetUpdates in
    match r with
    | Err _ =>
      let* _ := sleep (Z.to_N (5 * Second)) in
      runTelegramPoller fuel cfg rounds'
    | Ok updates =>
      let* _ := handleUpdates fuel cfg updates in
      runTelegramPoller fuel cfg rounds'
    end
  end.

(** The request [SendMessage] builds for [chatID] and [text]. *)
Definition sendMessageTo (b : TelegramBot) (text : Text) (chatID : Z)
  : request :=
  Header_Set
    {| Method := "POST"; URL := apiURL b "sendMessage"; Header := [];
       Payload := marshal {| sendMessageRequest.ChatID := chatID;
                             sendMessageRequest.Text_ := text;
                             sendMessageRequest.ParseMode := "HTML" |} |}
    "Content-Type" "application/json".

(** The request [doRequest] builds for [path], [reqBody] and [token]. *)
Definition telemetryRequest {Req} `{!Marshal Req} (c : DeyeClient)
    (path : string) (reqBody : Req) (token : string) : request :=
  Header_Set
    (Header_Set
       {| Method := "POST"; URL := (baseURL c ++ path)%string; Header := [];
          Payload := marshal reqBody |}
       "Content-Type" "application/json")
    "Authorization" token.

(** The request [Authenticate] builds. *)
Definition authRequest (c : DeyeClient) : request :=
  Header_Set
    {| Method := "POST"; URL := tokenURL c; Header := [];
       Payload := marshal {| tokenRequest.AppSecret := appSecret c;
                             tokenRequest.Email := email c;
                             tokenRequest.Password := sha256Hex (password c) |} |}
    "Content-Type" "application/json".

(** The grid-present flag a message reports. *)
Definition flagOf (t : Text) : option bool :=
  match t with
  | Literal _ => None
  | formatStatusMessage status _ => Some (PowerStatus.HasGrid status)
  | formatPowerOnMessage status _ => Some (PowerStatus.HasGrid status)
  | formatPowerOffMessage status _ => Some (PowerStatus.HasGrid status)
  end.

(** The messages of a monitor whose stored flag is [prev]: from the
    unknown state an initial status, afterwards an alert of the kind of its
    flag, and each with a flag other than the one before it. *)
Fixpoint edgeTriggered (prev : option bool) (msgs : list Text) : Prop :=
  match msgs with
  | [] => True
  | m :: rest =>
    exists status line,
      m = match prev with
          | None => formatStatusMessage status line
          | Some _ =>
            if PowerStatus.HasGrid status
            then formatPowerOnMessage status line
            else formatPowerOffMessage status line
          end
      /\ Some (PowerStatus.HasGrid status) <> prev
      /\ edgeTriggered (Some (PowerStatus.HasGrid status)) rest
  end.

(** The flag of the last message, [prev] when there is none. *)
Definition lastFlag (prev : option bool) (msgs : list Text) : option bool :=
  match last msgs with
  | Some m => flagOf m
  | None => prev
  end.

(** The browser stage of a fetch succeeds. *)
Definition browserReady (s : BrowserSession) : Prop :=
  lookupBrowser s <> ""
  /\ launchURL s <> None
  /\ connects s = true
  /\ navigates s = true
  /\ cookies s <> None
  /\ csrfElement s = true
  /\ exists csrf, csrfContent s = Ok (Some csrf).

(** Where a request goes: under the base URL of the Deye client, or to
    the schedule endpoint. *)
Definition toDeye (c : DeyeClient) (q : request) : Prop :=
  exists suffix, URL q = (baseURL c ++ suffix)%string.

Definition toDtek (q : request) : Prop :=
  URL q = "https://www.dtek-dnem.com.ua/ua/ajax".

(** From [st] to [st'] requests were added to the log, each one
    satisfying [P]. *)
Definition adds (P : request -> Prop) (st st' : State) : Prop :=
  exists new, sent st' = (sent st ++ new)%list /\ Forall P new.

End Program.

(** * Loading the configuration

    The environment ([os.Getenv], read after [godotenv.Load]) and the
    library functions of [strings] and [strconv] the loader calls are
    parameters; [strings.Split] on a one-byte separator is written out. *)

Fixpoint Split (s : string) (sep : ascii) : list string :=
  match s with
  | EmptyString => [EmptyString]
  | String c s' =>
    if Ascii.eqb c sep
    then EmptyString :: Split s' sep
    else match Split s' sep with
         | part :: parts => String c part :: parts
         | [] => [String c EmptyString]
         end
  end.

Section Configuration.

Variable getenv : string -> string.
Variable TrimSpace : string -> string.
Variable ParseInt : string -> res Z.     (* strconv.ParseInt(s, 10, 64) *)
Variable Atoi : string -> res Z.         (* strconv.Atoi(s) *)
Variable Quote : string -> string.       (* the verb %q *)

(** The loop of [parseUserIDs]; [ids] is the slice built so far. *)
Fixpoint parseEach (parts : list string) (ids : list Z) : res (list Z) :=
  match parts with
  | [] => Ok ids
  | p :: rest =>
    let p := TrimSpace p in
    if String.eqb p ""
    then parseEach rest ids
    else
      match ParseInt p with
      | Err err =>
        Err (Wrapf ("cannot parse user ID " ++ Quote p)%string err)
      | Ok id => parseEach rest (ids ++ [id])
      end
  end.

Definition parseUserIDs (s : string) : res (list Z) :=
  let parts := Split s "," in
  match parseEach parts [] with
  | Err err => Err err
  | Ok ids =>
    if (length ids =? 0)%nat
    then Err (Errorf "no user IDs provided")
    else Ok ids
  end.

Definition requiredEnv (key : string) : outcome string :=
  let v := getenv key in
  if String.eqb v ""
  then Panics ("required env variable " ++ key ++ " is not set")%string
  else Returns v.

(** Sequencing of calls that may panic. *)
Definition andThen {A B} (x : outcome A) (k : A -> outcome B) : outcome B :=
  match x with
  | Returns a => k a
  | Panics r => Panics r
  | OutOfFuel => OutOfFuel
  end.

Definition LoadConfig : outcome (res Config) :=
  let stationID :=
    let v := getenv "DEYE_STATION_ID" in
    if negb (String.eqb v "") then ParseInt v else Ok 0 in
  match stationID with
  | Err err => Returns (Err (Wrapf "invalid DEYE_STATION_ID" err))
  | Ok stationID =>
    match parseUserIDs (getenv "TELEGRAM_USER_IDS") with
    | Err err => Returns (Err (Wrapf "invalid TELEGRAM_USER_IDS" err))
    | Ok userIDs =>
      let pollInterval :=
        let v := getenv "POLL_INTERVAL_SEC" in
        if negb (String.eqb v "") then Atoi v else Ok 60 in
      match pollInterval with
      | Err err => Returns (Err (Wrapf "invalid POLL_INTERVAL_SEC" err))
      | Ok pollInterval =>
        andThen (requiredEnv "DEYE_BASE_URL") (fun baseURL =>
        andThen (requiredEnv "DEYE_APP_ID") (fun appID =>
        andThen (requiredEnv "DEYE_APP_SECRET") (fun appSecret =>
        andThen (requiredEnv "DEYE_EMAIL") (fun email =>
        andThen (requiredEnv "DEYE_PASSWORD") (fun password =>
        andThen (requiredEnv "TELEGRAM_BOT_TOKEN") (fun botToken =>
        Returns (Ok {| DeyeBaseURL := baseURL;
                       DeyeAppID := appID;
                       DeyeAppSecret := appSecret;
                       DeyeEmail := email;
                       DeyePassword := password;
                       DeyeStationID := stationID;
                       DeyeDeviceSN := getenv "DEYE_DEVICE_SN";
                       TelegramBotToken := botToken;
                       TelegramUserIDs := userIDs;
                       PollIntervalSec := pollInterval |})))))))
      end
    end
  end.

(** The parts of a list that [parseUserIDs] reads: trimmed, the blank ones
    dropped. *)
Definition userParts (s : string) : list string :=
  List.filter (fun p => negb (String.eqb p "")) (map TrimSpace (Split s ",")).

End Configuration.

(** * The token manager under concurrent callers

    [getToken] and [Authenticate] as the two goroutines run them: each
    caller is a thread at a program point, the mutex [mu] has at most one
    holder, and a scheduler picks which thread moves. A thread that waits
    for the mutex does not move. The exchange with the token endpoint is
    kept to what matters for the lock: a request goes out, and an answer
    (a token, or a failure) comes back. The deferred [Unlock] also runs
    when the log line of [Authenticate] panics; a panic ends the process
    and is not a program point here. *)

Module Concurrent.

Inductive pc : Type :=
| GetToken_Lock                  (* getToken: at the first c.mu.Lock() *)
| GetToken_Read                  (* holds mu: reads accessToken and expiresAt *)
| GetToken_Check (token : string) (expired : bool)
                                 (* mu released: if token == "" || expired *)
| Authenticate_Lock              (* Authenticate: at c.mu.Lock() *)
| Authenticate_Send              (* holds mu: at c.httpClient.Do(req) *)
| Authenticate_Wait              (* holds mu: the request is in flight *)
| GetToken_Relock                (* getToken: at the second c.mu.Lock() *)
| GetToken_Reread                (* holds mu: reads accessToken *)
| Done (r : res string).         (* getToken has returned *)

(** The program points between [Lock] and [Unlock]. *)
Definition holds (p : pc) : bool :=
  match p with
  | GetToken_Read | Authenticate_Send | Authenticate_Wait | GetToken_Reread => true
  | _ => false
  end.

Definition inFlight (p : pc) : bool :=
  match p with
  | Authenticate_Wait => true
  | _ => false
  end.

Record sys := {
  mu : option nat;               (* the holder of c.mu *)
  accessToken : string;
  expiresAt : Time;
  clock : Time;
  requests : nat;                (* token requests sent so far *)
  threads : list pc
}.

Definition set_thread (i : nat) (p : pc) (s : sys) : sys :=
  {| mu := mu s; accessToken := accessToken s; expiresAt := expiresAt s;
     clock := clock s; requests := requests s;
     threads := <[i := p]> (threads s) |}.

Definition set_mu (m : option nat) (s : sys) : sys :=
  {| mu := m; accessToken := accessToken s; expiresAt := expiresAt s;
     clock := clock s; requests := requests s; threads := threads s |}.

Definition set_credential (tok : string) (t : Time) (s : sys) : sys :=
  {| mu := mu s; accessToken := tok; expiresAt := t;
     clock := clock s; requests := requests s; threads := threads s |}.

Definition count_request (s : sys) : sys :=
  {| mu := mu s; accessToken := accessToken s; expiresAt := expiresAt s;
     clock := clock s; requests := S (requests s); threads := threads s |}.

Definition tick (d : N) (s : sys) : sys :=
  {| mu := mu s; accessToken := accessToken s; expiresAt := expiresAt s;
     clock := clock s + Z.of_N d; requests := requests s;
     threads := threads s |}.

(** [c.mu.Lock()] by thread [i]: taken when free, else the thread waits. *)
Definition lock (i : nat) (next : pc) (s : sys) : sys :=
  match mu s with
  | None => set_thread i next (set_mu (Some i) s)
  | Some _ => s
  end.

Definition unlock (s : sys) : sys := set_mu None s.

Section Server.

(** The answer of the token endpoint to the n-th request: a token, or
    [None] when the exchange fails or is refused. *)
Variable server : nat -> option string.

(** One move of thread [i]. *)
Definition move (i : nat) (s : sys) : sys :=
  match threads s !! i with
  | None => s
  | Some p =>
    match p with
    | GetToken_Lock => lock i GetToken_Read s
    | GetToken_Read =>
      set_thread i
        (GetToken_Check (accessToken s) (After (clock s) (expiresAt s)))
        (unlock s)
    | GetToken_Check token expired =>
      if String.eqb token "" || expired
      then set_thread i Authenticate_Lock s
      else set_thread i (Done (Ok token)) s
    | Authenticate_Lock => lock i Authenticate_Send s
    | Authenticate_Send =>
      set_thread i Authenticate_Wait (count_request s)
    | Authenticate_Wait =>
      match server (requests s - 1) with
      | None =>
        set_thread i (Done (Err (Errorf "deye auth failed"))) (unlock s)
      | Some tok =>
        let token := if negb (String.prefix "Bearer " tok)
                     then ("Bearer " ++ tok)%string else tok in
        set_thread i GetToken_Relock
          (unlock (set_credential token (clock s + 59 * 24 * Hour) s))
      end
    | GetToken_Relock => lock i GetToken_Reread s
    | GetToken_Reread =>
      set_thread i (Done (Ok (accessToken s))) (unlock s)
    | Done _ => s
    end
  end.

Inductive event : Type :=
| Run (i : nat)
| Tick (d : N).

Definition step (e : event) (s : sys) : sys :=
  match e with
  | Run i => move i s
  | Tick d => tick d s
  end.

Definition run (schedule : list event) (s : sys) : sys :=
  fold_left (fun s e => step e s) schedule s.

End Server.

(** [n] callers enter [getToken] on a client that holds no token. *)
Definition start (n : nat) (t0 : Time) : sys :=
  {| mu := None; accessToken := ""; expiresAt := zeroTime; clock := t0;
     requests := 0; threads := replicate n GetToken_Lock |}.

(** The mutex is held by exactly the threads between [Lock] and [Unlock]. *)
Definition exclusive (s : sys) : Prop :=
  forall i p, threads s !! i = Some p ->
    (holds p = true <-> mu s = Some i).

Definition excl (m : option nat) (ts : list pc) : Prop :=
  forall i p, ts !! i = Some p -> (holds p = true <-> m = Some i).

(** The program points a caller reaches by sending a token request, and
    the end of the call. *)
Definition pastSend (p : pc) : bool :=
  match p with
  | Authenticate_Wait | GetToken_Relock | GetToken_Reread | Done _ => true
  | _ => false
  end.

Definition flying (s : sys) : nat :=
  length (List.filter inFlight (threads s)).

(** Every token request sent so far was sent by a caller that is now past
    its [Do]. *)
Definition served (s : sys) : Prop :=
  (requests s <= length (List.filter pastSend (threads s)))%nat.

(** Two callers, each scheduled to check the token before either
    authenticates. *)
Definition race : list event :=
  [Run 0; Run 0; Run 1; Run 1].

Definition raceOn : list event :=
  [Run 0; Run 0; Run 0; Run 0; Run 0; Run 0;
   Run 1; Run 1; Run 1; Run 1; Run 1; Run 1].

Definition alwaysGrants (n : nat) : option string :=
  Some "eyJhbGciOiJIUzI1NiJ9.c3ZpdGxv".

End Concurrent.

(** * Test fixtures

    A small world to run the program in: a configuration, a toy wire
    format, and servers that answer each URL from a script. *)

Module Demo.

Definition cfg : Config :=
  {| DeyeBaseURL := "https://deye.example";
     DeyeAppID := "app";
     DeyeAppSecret := "secret";
     DeyeEmail := "user@example.org";
     DeyePassword := "password";
     DeyeStationID := 61;
     DeyeDeviceSN := "SN-1";
     TelegramBotToken := "TOKEN";
     TelegramUserIDs := [1001; 1002];
     PollIntervalSec := 60 |}.

Definition tokenEndpoint : string :=
  "https://deye.example/v1.0/account/token?appId=app".
Definition stationEndpoint : string :=
  "https://deye.example/v1.0/station/latest".
Definition deviceEndpoint : string :=
  "https://deye.example/v1.0/device/latest".
Definition sendMessageEndpoint : string :=
  "https://api.telegram.org/botTOKEN/sendMessage".
Definition getUpdatesEndpoint : string :=
  "https://api.telegram.org/botTOKEN/getUpdates".
Definition dtekEndpoint : string :=
  "https://www.dtek-dnem.com.ua/ua/ajax".

(** The wire format: a body is a word naming the value it stands for. *)
Definition granted : tokenResponse.t :=
  {| tokenResponse.Success := true;
     tokenResponse.Code := "1000000";
     tokenResponse.Msg := "success";
     tokenResponse.AccessToken := "eyJhbGciOiJIUzI1NiJ9.c3ZpdGxv";
     tokenResponse.RefreshToken := "";
     tokenResponse.ExpiresIn := "5183999" |}.

Definition station (grid purchase : option float) : StationLatestResponse.t :=
  {| StationLatestResponse.Success := true;
     StationLatestResponse.Code := "1000000";
     StationLatestResponse.Msg := "success";
     StationLatestResponse.GenerationPower := Some 420%float;
     StationLatestResponse.ConsumptionPower := Some 310%float;
     StationLatestResponse.GridPower := grid;
     StationLatestResponse.PurchasePower := purchase;
     StationLatestResponse.WirePower := None;
     StationLatestResponse.BatteryPower := Some 110%float;
     StationLatestResponse.BatterySOC := Some 87%float;
     StationLatestResponse.ChargePower := None;
     StationLatestResponse.DischargePower := None;
     StationLatestResponse.LastUpdateTime := 1761868800%float |}.

Definition devices (l : list DeviceLatestEntry.t) : DeviceLatestResponse.t :=
  {| DeviceLatestResponse.Success := true;
     DeviceLatestResponse.Code := "1000000";
     DeviceLatestResponse.Msg := "success";
     DeviceLatestResponse.DeviceList := l |}.

Definition inverter : DeviceLatestEntry.t :=
  {| DeviceLatestEntry.DeviceSn := "SN-1";
     DeviceLatestEntry.DeviceState := 1;
     DeviceLatestEntry.CollectionTime := 1761868800;
     DeviceLatestEntry.DataList := [] |}.

Definition update (id : Z) : Update.t :=
  {| Update.UpdateID := id; Update.Message_ := None |}.

Definition outage : DtekShutdown.t :=
  {| DtekShutdown.SubType := "Аварійні ремонтні роботи";
     DtekShutdown.StartDate := "31.10.2026 09:00";
     DtekShutdown.EndDate := "31.10.2026 13:00";
     DtekShutdown.Type_ := "2";
     DtekShutdown.Reason := [] |}.

Definition readToken : Unmarshal tokenResponse.t :=
  fun body => if String.eqb body "granted" then Some granted else None.

Definition readStation : Unmarshal StationLatestResponse.t :=
  fun body =>
    if String.eqb body "grid 0, purchase 150"
    then Some (station (Some 0%float) (Some 150%float))
    else if String.eqb body "grid 0, purchase 0"
    then Some (station (Some 0%float) (Some 0%float))
    else if String.eqb body "no grid fields"
    then Some (station None None)
    else None.

Definition readDevices : Unmarshal DeviceLatestResponse.t :=
  fun body =>
    if String.eqb body "one inverter" then Some (devices [inverter])
    else if String.eqb body "no device" then Some (devices [])
    else None.

Definition readTelegram : Unmarshal telegramResponse.t :=
  fun body =>
    if String.eqb body "ok"
    then Some {| telegramResponse.OK := true;
                 telegramResponse.Description := "" |}
    else None.

Definition readUpdates : Unmarshal getUpdatesResponse.t :=
  fun body =>
    if String.eqb body "updates 5, 6, 7"
    then Some {| getUpdatesResponse.OK := true;
                 getUpdatesResponse.Result := [update 5; update 6; update 7] |}
    else if String.eqb body "updates 7, 5"
    then Some {| getUpdatesResponse.OK := true;
                 getUpdatesResponse.Result := [update 7; update 5] |}
    else None.

Definition readDtek : Unmarshal DtekResponse.t :=
  fun body =>
    if String.eqb body "no outage"
    then Some {| DtekResponse.Result := true; DtekResponse.Data := ∅ |}
    else if String.eqb body "outage at 63"
    then Some {| DtekResponse.Result := true;
                 DtekResponse.Data := {[ "63" := outage ]} |}
    else None.

Definition writeToken : Marshal tokenRequest.t :=
  fun r => ("token for " ++ tokenRequest.Email r)%string.
Definition writeStation : Marshal StationLatestRequest.t :=
  fun _ => "station".
Definition writeDevices : Marshal DeviceLatestRequest.t :=
  fun r => Join (DeviceLatestRequest.DeviceList r) ",".
Definition writeSend : Marshal sendMessageRequest.t :=
  fun _ => "message".
Definition writeUpdates : Marshal getUpdatesRequest.t :=
  fun r => if getUpdatesRequest.Offset r =? 8 then "offset 8"
           else if getUpdatesRequest.Offset r =? 6 then "offset 6"
           else if getUpdatesRequest.Offset r =? 0 then "offset 0"
           else "offset".

(** A response with status [code] and body [body], after [ms] milliseconds. *)
Definition reply (ms : N) (code : Z) (body : string) : exchange :=
  {| latency := ms * 1000000;
     answer := Some {| StatusCode := code; Body := Some body |} |}.

Definition down : exchange := {| latency := 0; answer := None |}.

(** A server that answers each URL from its script: the n-th request to a
    URL gets the n-th entry, and the last entry from then on. *)
Definition scripted (rules : list (string * list exchange))
  : list request -> request -> exchange :=
  fun history req =>
    match List.find (fun rule => String.eqb (fst rule) (URL req)) rules with
    | None => down
    | Some (_, script) =>
      let n := length (List.filter (fun r => String.eqb (URL r) (URL req))
                         history) in
      nth n script (List.last script down)
    end.

Definition chrome : BrowserSession :=
  {| rodLookPath := None;
     execLookPath := fun p => String.eqb p "/usr/bin/chromium";
     launchURL := Some "ws://127.0.0.1:9222";
     connects := true;
     navigates := true;
     loadTime := 2000000000;
     cookies := Some [("visid_incap", "x"); ("incap_ses", "y")];
     csrfElement := true;
     csrfContent := Ok (Some "csrf") |}.

Definition noChrome : BrowserSession :=
  {| rodLookPath := None;
     execLookPath := fun _ => false;
     launchURL := None;
     connects := false;
     navigates := false;
     loadTime := 0;
     cookies := None;
     csrfElement := false;
     csrfContent := Ok None |}.

Definition world (rules : list (string * list exchange))
    (browser : nat -> BrowserSession) : Env :=
  {| remote := scripted rules;
     urlParses := fun _ => true;
     Sum256 := fun s => s;
     chromium := browser;
     formEncode := fun kv =>
       Join (map (fun p => (fst p ++ "=" ++ snd p)%string) kv) "&";
     timeFormat := fun _ _ => "31.10.2026 08:00" |}.

(** Telegram accepts every message. *)
Definition telegram : list (string * list exchange) :=
  [ (sendMessageEndpoint, [reply 80 200 "ok"]) ].

(** Grid present: purchase power is reported above zero. *)
Definition gridUp : list (string * list exchange) :=
  [ (tokenEndpoint, [reply 120 200 "granted"]);
    (stationEndpoint, [reply 90 200 "grid 0, purchase 150"]);
    (deviceEndpoint, [reply 90 200 "one inverter"]) ].

(** The station answers, the device list is empty. *)
Definition noDevice : list (string * list exchange) :=
  [ (tokenEndpoint, [reply 120 200 "granted"]);
    (stationEndpoint, [reply 90 200 "no grid fields"]);
    (deviceEndpoint, [reply 90 200 "no device"]) ].

(** Four polls: the grid is up, the fetch fails, the grid is up, the grid
    is down. *)
Definition flapping : list (string * list exchange) :=
  [ (tokenEndpoint, [reply 120 200 "granted"]);
    (stationEndpoint, [reply 90 200 "grid 0, purchase 150";
                       down;
                       reply 90 200 "grid 0, purchase 150";
                       reply 90 200 "grid 0, purchase 0"]);
    (deviceEndpoint, [reply 90 200 "one inverter"]);
    (dtekEndpoint, [reply 300 200 "no outage"]) ] ++ telegram.

(** The token endpoint grants a token every time, and the station
    endpoint answers 401 twice before it accepts one. *)
Definition rejectedTwice : list (string * list exchange) :=
  [ (tokenEndpoint, [reply 120 200 "granted"]);
    (stationEndpoint, [reply 90 401 "unauthorized";
                       reply 90 401 "unauthorized";
                       reply 90 200 "grid 0, purchase 150"]) ].

(** ... and one where it answers 401 every time. *)
Definition rejectedAlways : list (string * list exchange) :=
  [ (tokenEndpoint, [reply 120 200 "granted"]);
    (stationEndpoint, [reply 90 401 "unauthorized"]) ].

Definition inOrder : list (string * list exchange) :=
  [ (getUpdatesEndpoint, [reply 500 200 "updates 5, 6, 7"]) ].

Definition outOfOrder : list (string * list exchange) :=
  [ (getUpdatesEndpoint, [reply 500 200 "updates 7, 5"]) ].

(** The schedule site: no outage at the first fetch; the browser is gone
    at the second. *)
Definition schedule : list (string * list exchange) :=
  [ (dtekEndpoint, [reply 300 200 "no outage"]) ].

Definition chromeThenNone (n : nat) : BrowserSession :=
  match n with
  | O => chrome
  | S _ => noChrome
  end.

(** The heap of [main] at ten o'clock, 31 October 2026. *)
Definition boot : State := startState cfg (1793440800 * Second).

End Demo.

(** * More fixtures

    Servers that refuse, a device list, commands sent to the bot, and an
    environment to load the configuration from. *)

Module Scenes.
Import Demo.

Definition deviceListEndpoint : string :=
  "https://deye.example/v1.0/device/list".

Definition denied : tokenResponse.t :=
  {| tokenResponse.Success := false;
     tokenResponse.Code := "2101006";
     tokenResponse.Msg := "auth invalid param";
     tokenResponse.AccessToken := "";
     tokenResponse.RefreshToken := "";
     tokenResponse.ExpiresIn := "" |}.

(** A grant whose token is six bytes long. *)
Definition brief : tokenResponse.t :=
  {| tokenResponse.Success := true;
     tokenResponse.Code := "1000000";
     tokenResponse.Msg := "success";
     tokenResponse.AccessToken := "abc123";
     tokenResponse.RefreshToken := "";
     tokenResponse.ExpiresIn := "5183999" |}.

Definition readTokenOrDenial : Unmarshal tokenResponse.t :=
  fun body =>
    if String.eqb body "denied" then Some denied
    else if String.eqb body "brief" then Some brief
    else readToken body.

Definition readTelegramOrRefusal : Unmarshal telegramResponse.t :=
  fun body =>
    if String.eqb body "blocked"
    then Some {| telegramResponse.OK := false;
                 telegramResponse.Description :=
                   "Forbidden: bot was blocked by the user" |}
    else readTelegram body.

(** An update that carries the message [text] from the chat [chat]. *)
Definition command (id chat : Z) (text : string) : Update.t :=
  {| Update.UpdateID := id;
     Update.Message_ :=
       Some {| Message.MessageID := id;
               Message.Chat_ := {| Chat.ID := chat |};
               Message.Text_ := text |} |}.

Definition readCommands : Unmarshal getUpdatesResponse.t :=
  fun body =>
    if String.eqb body "no updates"
    then Some {| getUpdatesResponse.OK := true;
                 getUpdatesResponse.Result := [] |}
    else if String.eqb body "status from 1002"
    then Some {| getUpdatesResponse.OK := true;
                 getUpdatesResponse.Result := [command 9 1002 "/status"] |}
    else readUpdates body.

Definition rooftop : DeviceListItem.t :=
  {| DeviceListItem.DeviceSn := "SN-7";
     DeviceListItem.DeviceID := 7;
     DeviceListItem.DeviceType := "INVERTER";
     DeviceListItem.ProductID := 3;
     DeviceListItem.StationID := 77;
     DeviceListItem.ConnectStatus := 1;
     DeviceListItem.ProductName := "SUN-5K";
     DeviceListItem.StationName := "Дім" |}.

Definition readDeviceList : Unmarshal DeviceListResponse.t :=
  fun body =>
    if String.eqb body "one device"
    then Some {| DeviceListResponse.Success := true;
                 DeviceListResponse.Code := "1000000";
                 DeviceListResponse.Msg := "success";
                 DeviceListResponse.Total := 1;
                 DeviceListResponse.Devices := [rooftop] |}
    else None.

Definition writeDeviceList : Marshal DeviceListRequest.t :=
  fun _ => "page 1".

(** Telegram refuses the first message and accepts the second. *)
Definition lossy : list (string * list exchange) :=
  [ (sendMessageEndpoint, [reply 80 403 "blocked"; reply 80 200 "ok"]) ].

(** Telegram accepts a message and answers with status 500. *)
Definition acceptedWith500 : list (string * list exchange) :=
  [ (sendMessageEndpoint, [reply 80 500 "ok"]) ].

(** Telegram has no update to give. *)
Definition quiet : list (string * list exchange) :=
  [ (getUpdatesEndpoint, [reply 500 200 "no updates"]) ].

(** The token endpoint refuses the credentials. *)
Definition refused : list (string * list exchange) :=
  [ (tokenEndpoint, [reply 120 200 "denied"]) ].

(** The token endpoint grants the six-byte token. *)
Definition briefGrant : list (string * list exchange) :=
  [ (tokenEndpoint, [reply 120 200 "brief"]) ].

(** The station endpoint answers with status 500 and a body that reads. *)
Definition serverError : list (string * list exchange) :=
  [ (stationEndpoint, [reply 90 500 "grid 0, purchase 150"]) ].

(** An account with one device. *)
Definition discovery : list (string * list exchange) :=
  [ (tokenEndpoint, [reply 120 200 "granted"]);
    (deviceListEndpoint, [reply 90 200 "one device"]) ].

(** The first fetch of the station fails, the later ones find the grid
    up. *)
Definition lateStart : list (string * list exchange) :=
  [ (tokenEndpoint, [reply 120 200 "granted"]);
    (stationEndpoint, [down; reply 90 200 "grid 0, purchase 150"]);
    (deviceEndpoint, [reply 90 200 "one inverter"]);
    (dtekEndpoint, [reply 300 200 "no outage"]) ] ++ telegram.

(** The schedule site lists an outage for house 63. *)
Definition planned : list (string * list exchange) :=
  [ (dtekEndpoint, [reply 300 200 "outage at 63"]) ].

(** A browser whose page holds an empty CSRF element. *)
Definition noCsrf : BrowserSession :=
  {| rodLookPath := rodLookPath chrome;
     execLookPath := execLookPath chrome;
     launchURL := launchURL chrome;
     connects := connects chrome;
     navigates := navigates chrome;
     loadTime := loadTime chrome;
     cookies := cookies chrome;
     csrfElement := csrfElement chrome;
     csrfContent := Ok None |}.

(** The environment of a first start: the station and the poll interval
    are not set. *)
Definition environment : list (string * string) :=
  [ ("DEYE_BASE_URL", "https://deye.example");
    ("DEYE_APP_ID", "app");
    ("DEYE_APP_SECRET", "secret");
    ("DEYE_EMAIL", "user@example.org");
    ("DEYE_PASSWORD", "password");
    ("TELEGRAM_BOT_TOKEN", "TOKEN");
    ("TELEGRAM_USER_IDS", " 1001, 1002,,") ].

Definition getenv (key : string) : string :=
  match List.find (fun kv => String.eqb (fst kv) key) environment with
  | Some kv => snd kv
  | None => ""
  end.

Fixpoint trimLeft (s : string) : string :=
  match s with
  | String c s' => if Ascii.eqb c " "%char then trimLeft s' else s
  | EmptyString => s
  end.

Definition reverse (s : string) : string :=
  string_of_list_ascii (List.rev (list_ascii_of_string s)).

Definition TrimSpace (s : string) : string :=
  reverse (trimLeft (reverse (trimLeft s))).

Fixpoint digits (s : string) (acc : Z) : option Z :=
  match s with
  | EmptyString => Some acc
  | String c s' =>
    let n := Z.of_N (N_of_ascii c) in
    if (48 <=? n) && (n <=? 57) then digits s' (10 * acc + (n - 48)) else None
  end.

Definition ParseInt (s : string) : res Z :=
  match s with
  | EmptyString => Err (Errorf "invalid syntax")
  | _ =>
    match digits s 0 with
    | Some n => Ok n
    | None => Err (Errorf "invalid syntax")
    end
  end.

Definition Quote (s : string) : string := ("'" ++ s ++ "'")%string.

End Scenes.


(** * Properties *)

Lemma bind_Returns {A B} (m : M A) (k : A -> M B) st a st' :
  m st = (Returns a, st') -> bind m k st = k a st'.
Proof. intros E. unfold bind. now rewrite E. Qed.

Lemma bind_Panics {A B} (m : M A) (k : A -> M B) st r st' :
  m st = (Panics r, st') -> bind m k st = (Panics r, st').
Proof. intros E. unfold bind. now rewrite E. Qed.

Lemma bind_OutOfFuel {A B} (m : M A) (k : A -> M B) st st' :
  m st = (OutOfFuel, st') -> bind m k st = (OutOfFuel, st').
Proof. intros E. unfold bind. now rewrite E. Qed.

Lemma gt0_zero : gt0 0%float = false.
Proof. reflexivity. Qed.

(** ** Frame reasoning: parts of the state a computation leaves alone *)

Definition keeps {X A} (f : State -> X) (m : M A) : Prop :=
  forall st, f (snd (m st)) = f st.

(** [m] always returns, and leaves [f] alone. *)
Definition total_keeping {X A} (f : State -> X) (m : M A) : Prop :=
  forall st, exists a st', m st = (Returns a, st') /\ f st' = f st.

(** [f] reads neither the clock nor the log of requests. *)
Definition offline {X} (f : State -> X) : Prop :=
  (forall t st, f (with_now t st) = f st)
  /\ (forall l st, f (with_sent l st) = f st).

Section Frame.
Context {X : Type} (f : State -> X).

Lemma keeps_ret {A} (a : A) : keeps f (ret a).
Proof. intros st. reflexivity. Qed.

Lemma keeps_panic {A} r : keeps f (@panic A r).
Proof. intros st. reflexivity. Qed.

Lemma keeps_diverge {A} : keeps f (@diverge A).
Proof. intros st. reflexivity. Qed.

Lemma keeps_gets {A} (g : State -> A) : keeps f (gets g).
Proof. intros st. reflexivity. Qed.

Lemma keeps_modify g : (forall st, f (g st) = f st) -> keeps f (modify g).
Proof. intros Hg st. apply Hg. Qed.

Lemma keeps_bind {A B} (m : M A) (k : A -> M B) :
  keeps f m -> (forall a, keeps f (k a)) -> keeps f (bind m k).
Proof.
  intros Hm Hk st. unfold bind. specialize (Hm st).
  destruct (m st) as [[a|r|] st']; cbn in *; [rewrite Hk|..]; exact Hm.
Qed.

Lemma keeps_sleep d : offline f -> keeps f (sleep d).
Proof. intros [Hn _] st. apply Hn. Qed.

Lemma keeps_slice s lo hi : keeps f (slice s lo hi).
Proof. intros st. unfold slice. now destruct (_ && _). Qed.

Lemma total_ret {A} (a : A) : total_keeping f (ret a).
Proof. intros st. now exists a, st. Qed.

Lemma total_gets {A} (g : State -> A) : total_keeping f (gets g).
Proof. intros st. now exists (g st), st. Qed.

Lemma total_modify g : (forall st, f (g st) = f st) -> total_keeping f (modify g).
Proof. intros Hg st. exists tt, (g st). split; [reflexivity|apply Hg]. Qed.

Lemma total_sleep d : offline f -> total_keeping f (sleep d).
Proof. intros [Hn _]. apply total_modify. intros st. apply Hn. Qed.

Lemma total_bind {A B} (m : M A) (k : A -> M B) :
  total_keeping f m -> (forall a, total_keeping f (k a)) ->
  total_keeping f (bind m k).
Proof.
  intros Hm Hk st. destruct (Hm st) as (a & st1 & E1 & F1).
  destruct (Hk a st1) as (b & st2 & E2 & F2).
  exists b, st2. split; [|congruence].
  now rewrite (bind_Returns _ _ _ _ _ E1).
Qed.

Lemma total_keeps {A} (m : M A) : total_keeping f m -> keeps f m.
Proof. intros Hm st. destruct (Hm st) as (a & st' & E & F). now rewrite E. Qed.

End Frame.

Lemma offline_broadcasts : offline broadcasts.
Proof. now split. Qed.
Lemma offline_fetches : offline fetches.
Proof. now split. Qed.
Lemma offline_deye : offline deye.
Proof. now split. Qed.
Lemma offline_dtek : offline dtek.
Proof. now split. Qed.
Lemma offline_bot : offline bot.
Proof. now split. Qed.

Create HintDb frame.
#[local] Hint Resolve offline_broadcasts offline_fetches offline_deye
  offline_dtek offline_bot : frame.

Ltac frame_step :=
  lazy beta zeta;
  match goal with
  | |- keeps _ (bind _ _) => apply keeps_bind; [|intros ?]
  | |- keeps _ (ret _) => apply keeps_ret
  | |- keeps _ (gets _) => apply keeps_gets
  | |- keeps _ timeNow => apply keeps_gets
  | |- keeps _ (panic _) => apply keeps_panic
  | |- keeps _ diverge => apply keeps_diverge
  | |- keeps _ (slice _ _ _) => apply keeps_slice
  | |- keeps _ (sleep _) => apply keeps_sleep; auto with frame
  | |- keeps _ (modify _) => apply keeps_modify; intros ?; reflexivity
  | |- keeps _ (match ?x with _ => _ end) => destruct x
  | |- total_keeping _ (bind _ _) => apply total_bind; [|intros ?]
  | |- total_keeping _ (ret _) => apply total_ret
  | |- total_keeping _ (gets _) => apply total_gets
  | |- total_keeping _ timeNow => apply total_gets
  | |- total_keeping _ (sleep _) => apply total_sleep; auto with frame
  | |- total_keeping _ (modify _) => apply total_modify; intros ?; reflexivity
  | |- total_keeping _ (match ?x with _ => _ end) => destruct x
  end.

Ltac frame := repeat frame_step; auto with frame.

(** ** Weakest preconditions: running a computation symbolically *)

Definition wp {A} (m : M A) (st : State) (Q : outcome A -> State -> Prop)
  : Prop :=
  Q (fst (m st)) (snd (m st)).

Lemma wp_ret {A} (a : A) st Q : Q (Returns a) st -> wp (ret a) st Q.
Proof. exact id. Qed.

Lemma wp_gets {A} (g : State -> A) st Q : Q (Returns (g st)) st -> wp (gets g) st Q.
Proof. exact id. Qed.

Lemma wp_modify g st Q : Q (Returns tt) (g st) -> wp (modify g) st Q.
Proof. exact id. Qed.

Lemma wp_panic {A} r st Q : Q (Panics r) st -> wp (@panic A r) st Q.
Proof. exact id. Qed.

Lemma wp_diverge {A} st Q : Q OutOfFuel st -> wp (@diverge A) st Q.
Proof. exact id. Qed.

Lemma wp_slice s lo hi st Q :
  (forall r, Q (Returns r) st) ->
  (forall r, Q (Panics r) st) ->
  wp (slice s lo hi) st Q.
Proof.
  intros Hr Hp. unfold wp, slice. destruct (_ && _); cbn; [apply Hr|apply Hp].
Qed.

Lemma wp_bind {A B} (m : M A) (k : A -> M B) st Q :
  wp m st (fun o st1 =>
             match o with
             | Returns a => wp (k a) st1 Q
             | Panics r => Q (Panics r) st1
             | OutOfFuel => Q OutOfFuel st1
             end) ->
  wp (bind m k) st Q.
Proof.
  unfold wp, bind. now destruct (m st) as [[a|r|] st1].
Qed.

Lemma wp_mono {A} (m : M A) st (P Q : outcome A -> State -> Prop) :
  wp m st P -> (forall o st', P o st' -> Q o st') -> wp m st Q.
Proof. unfold wp. auto. Qed.

Lemma wp_run {A} (m : M A) st Q o st' : wp m st Q -> m st = (o, st') -> Q o st'.
Proof. unfold wp. intros H E. now rewrite E in H. Qed.

Ltac wp_step :=
  lazy beta zeta;
  match goal with
  | |- wp (bind _ _) _ _ => apply wp_bind
  | |- wp (ret _) _ _ => apply wp_ret
  | |- wp (gets _) _ _ => apply wp_gets
  | |- wp timeNow _ _ => apply wp_gets
  | |- wp (modify _) _ _ => apply wp_modify
  | |- wp (panic _) _ _ => apply wp_panic
  | |- wp diverge _ _ => apply wp_diverge
  | |- wp (slice _ _ _) _ _ => apply wp_slice; intros ?
  | |- wp (match (if ?b then _ else _) with _ => _ end) _ _ => destruct b eqn:?
  | |- wp (match ?x with _ => _ end) _ _ => destruct x eqn:?
  end.

Section Properties.

Context (env : Env).
Context `{!Marshal tokenRequest.t} `{!Unmarshal tokenResponse.t}.
Context `{!Marshal StationLatestRequest.t}
        `{!Unmarshal StationLatestResponse.t}.
Context `{!Marshal DeviceLatestRequest.t}
        `{!Unmarshal DeviceLatestResponse.t}.
Context `{!Marshal sendMessageRequest.t} `{!Unmarshal telegramResponse.t}.
Context `{!Marshal getUpdatesRequest.t} `{!Unmarshal getUpdatesResponse.t}.
Context `{!Unmarshal DtekResponse.t}.

(** ** What each component leaves alone *)

Lemma total_Do {X} (f : State -> X) req : offline f -> total_keeping f (Do env req).
Proof.
  intros [Hn Hs] st. unfold Do.
  eexists _, _. split; [reflexivity|]. unfold afterDo. now rewrite Hn, Hs.
Qed.

Lemma keeps_Do {X} (f : State -> X) req : offline f -> keeps f (Do env req).
Proof. intros Hf. now apply total_keeps, total_Do. Qed.

Lemma total_Post {X} (f : State -> X) url ct data :
  offline f -> total_keeping f (Post env url ct data).
Proof.
  intros Hf. unfold Post. destruct (NewRequest _ _ _ _).
  - now apply total_Do.
  - apply total_ret.
Qed.

Lemma keeps_Authenticate {X} (f : State -> X) :
  offline f -> (forall c st, f (with_deye c st) = f st) ->
  keeps f (Authenticate env).
Proof.
  intros Hf Hd. unfold Authenticate.
  repeat first [ apply keeps_Do; assumption
               | apply keeps_modify; intros ?; apply Hd
               | frame_step ].
Qed.

Lemma keeps_getToken {X} (f : State -> X) :
  offline f -> (forall c st, f (with_deye c st) = f st) ->
  keeps f (getToken env).
Proof.
  intros Hf Hd. unfold getToken.
  repeat first [ apply keeps_Authenticate; assumption | frame_step ].
Qed.

Lemma keeps_doRequest {X} (f : State -> X) {Req Resp}
    `{!Marshal Req} `{!Unmarshal Resp} fuel path (reqBody : Req) :
  offline f -> (forall c st, f (with_deye c st) = f st) ->
  keeps f (doRequest (Resp:=Resp) env fuel path reqBody).
Proof.
  intros Hf Hd. induction fuel as [|fuel IH]; cbn [doRequest].
  - apply keeps_diverge.
  - repeat first [ apply keeps_Authenticate; assumption
                 | apply keeps_getToken; assumption
                 | apply keeps_Do; assumption
                 | exact IH
                 | frame_step ].
Qed.

Lemma keeps_GetPowerStatus {X} (f : State -> X) fuel stationID deviceSN :
  offline f -> (forall c st, f (with_deye c st) = f st) ->
  keeps f (GetPowerStatus env fuel stationID deviceSN).
Proof.
  intros Hf Hd. unfold GetPowerStatus, GetStationLatest, GetDeviceLatest.
  repeat first [ apply keeps_doRequest; assumption | frame_step ].
Qed.

Lemma total_FetchShutdowns {X} (f : State -> X) :
  offline f -> (forall n st, f (with_fetches n st) = f st) ->
  total_keeping f (FetchShutdowns env).
Proof.
  intros Hf Hn. unfold FetchShutdowns.
  repeat first [ apply total_Do; assumption
               | apply total_sleep; assumption
               | apply total_modify; intros ?; apply Hn
               | frame_step ].
Qed.

Lemma total_GetShutdown {X} (f : State -> X) :
  offline f -> (forall n st, f (with_fetches n st) = f st) ->
  (forall d st, f (with_dtek d st) = f st) ->
  total_keeping f (GetShutdown env).
Proof.
  intros Hf Hn Hd. unfold GetShutdown, Since.
  repeat first [ apply total_FetchShutdowns; assumption
               | apply total_modify; intros ?; apply Hd
               | frame_step ].
Qed.

Lemma total_ShutdownLine {X} (f : State -> X) :
  offline f -> (forall n st, f (with_fetches n st) = f st) ->
  (forall d st, f (with_dtek d st) = f st) ->
  total_keeping f (ShutdownLine env).
Proof.
  intros Hf Hn Hd. unfold ShutdownLine.
  repeat first [ apply total_GetShutdown; assumption | frame_step ].
Qed.

Lemma total_SendMessage {X} (f : State -> X) chatID text :
  offline f -> total_keeping f (SendMessage env chatID text).
Proof.
  intros Hf. unfold SendMessage.
  repeat first [ apply total_Post; assumption | frame_step ].
Qed.

Lemma total_sendEach {X} (f : State -> X) ids text :
  offline f -> total_keeping f (sendEach env ids text).
Proof.
  intros Hf. induction ids as [|id ids IH]; cbn [sendEach].
  - apply total_ret.
  - apply total_bind; [now apply total_SendMessage | intros _; exact IH].
Qed.

(** [Broadcast] always returns, having entered its text and nothing else. *)
Lemma Broadcast_total text st :
  exists st', Broadcast env text st = (Returns tt, st')
              /\ broadcasts st' = (broadcasts st ++ [text])%list.
Proof.
  unfold Broadcast.
  set (st0 := with_broadcasts (broadcasts st ++ [text]) st).
  destruct (total_sendEach broadcasts (userIDs (bot st0)) text
              offline_broadcasts st0) as ([] & st' & E & F).
  exists st'. split; [|exact F].
  unfold bind, modify, gets. fold st0. exact E.
Qed.

(** ** GetPowerStatus *)

(** Once both fetches have returned a response, [GetPowerStatus] returns,
    in the state the second fetch left. *)
Lemma GetPowerStatus_returns fuel stationID deviceSN st station st1 device st2 :
  GetStationLatest env fuel stationID st = (Returns (Ok station), st1) ->
  GetDeviceLatest env fuel [deviceSN] st1 = (Returns (Ok device), st2) ->
  exists status,
    GetPowerStatus env fuel stationID deviceSN st = (Returns (Ok status), st2)
    /\ PowerStatus.HasGrid status =
         (if notNil (StationLatestResponse.GridPower station)
             || notNil (StationLatestResponse.PurchasePower station)
          then gt0 (ptrVal (StationLatestResponse.GridPower station))
               || gt0 (ptrVal (StationLatestResponse.PurchasePower station))
          else false)
    /\ PowerStatus.GridPower status
         = ptrVal (StationLatestResponse.GridPower station)
    /\ PowerStatus.PurchasePower status
         = ptrVal (StationLatestResponse.PurchasePower station)
    /\ PowerStatus.GenerationPower status
         = ptrVal (StationLatestResponse.GenerationPower station)
    /\ PowerStatus.ConsumptionPower status
         = ptrVal (StationLatestResponse.ConsumptionPower station)
    /\ PowerStatus.BatterySOC status
         = ptrVal (StationLatestResponse.BatterySOC station)
    /\ PowerStatus.BatteryPower status
         = ptrVal (StationLatestResponse.BatteryPower station)
    /\ PowerStatus.DischargePower status
         = ptrVal (StationLatestResponse.DischargePower station)
    /\ PowerStatus.LastUpdateTime status
         = StationLatestResponse.LastUpdateTime station
    /\ PowerStatus.DeviceOnline status =
         match DeviceLatestResponse.DeviceList device with
         | d0 :: _ => DeviceLatestEntry.DeviceState d0 =? 1
         | [] => false
         end
    /\ PowerStatus.DeviceState status =
         match DeviceLatestResponse.DeviceList device with
         | d0 :: _ => DeviceLatestEntry.DeviceState d0
         | [] => 0
         end.
Proof.
  intros Hs Hd. unfold GetPowerStatus.
  rewrite (bind_Returns _ _ _ _ _ Hs), (bind_Returns _ _ _ _ _ Hd).
  eexists. split; [reflexivity|].
  destruct (DeviceLatestResponse.DeviceList device); cbn; repeat split.
Qed.

(** C3. Whenever the two fetches return, [GetPowerStatus] returns a status
    whose [HasGrid] is true exactly when one of [gridPower],
    [purchasePower] is present and one of them, absent read as zero, is
    above zero; both absent gives false, and [gridPower = 0],
    [purchasePower = 150] gives true. *)
Theorem GetPowerStatus_HasGrid fuel stationID deviceSN st station st1 device st2 :
  GetStationLatest env fuel stationID st = (Returns (Ok station), st1) ->
  GetDeviceLatest env fuel [deviceSN] st1 = (Returns (Ok device), st2) ->
  exists status,
    GetPowerStatus env fuel stationID deviceSN st = (Returns (Ok status), st2)
    /\ (PowerStatus.HasGrid status = true <->
        (StationLatestResponse.GridPower station <> None
         \/ StationLatestResponse.PurchasePower station <> None)
        /\ (gt0 (ptrVal (StationLatestResponse.GridPower station)) = true
            \/ gt0 (ptrVal (StationLatestResponse.PurchasePower station)) = true))
    /\ (StationLatestResponse.GridPower station = None ->
        StationLatestResponse.PurchasePower station = None ->
        PowerStatus.HasGrid status = false)
    /\ (StationLatestResponse.GridPower station = Some 0%float ->
        StationLatestResponse.PurchasePower station = Some 150%float ->
        PowerStatus.HasGrid status = true).
Proof.
  intros Hs Hd.
  destruct (GetPowerStatus_returns _ _ _ _ _ _ _ _ Hs Hd) as (status & Hrun & Hg & _).
  exists status. split; [exact Hrun|]. rewrite Hg. clear Hrun Hg Hs Hd.
  destruct (StationLatestResponse.GridPower station) as [g|],
           (StationLatestResponse.PurchasePower station) as [p|];
    cbn [notNil ptrVal orb]; rewrite ?orb_true_iff.
  all: split; [|split].
  all: try (intros [= ->] [= ->]; right; reflexivity).
  all: try discriminate.
  all: try reflexivity.
  all: intuition (try congruence; try discriminate).
Qed.

(** C9. With an empty device list in the device-latest response,
    [GetPowerStatus] returns a status without error: the device is offline
    with state 0, and the fields derived from the station are as usual. *)
Theorem GetPowerStatus_empty_device_list
    fuel stationID deviceSN st station st1 device st2 :
  GetStationLatest env fuel stationID st = (Returns (Ok station), st1) ->
  GetDeviceLatest env fuel [deviceSN] st1 = (Returns (Ok device), st2) ->
  DeviceLatestResponse.DeviceList device = [] ->
  exists status,
    GetPowerStatus env fuel stationID deviceSN st = (Returns (Ok status), st2)
    /\ PowerStatus.DeviceOnline status = false
    /\ PowerStatus.DeviceState status = 0
    /\ PowerStatus.HasGrid status =
         (if notNil (StationLatestResponse.GridPower station)
             || notNil (StationLatestResponse.PurchasePower station)
          then gt0 (ptrVal (StationLatestResponse.GridPower station))
               || gt0 (ptrVal (StationLatestResponse.PurchasePower station))
          else false)
    /\ PowerStatus.GridPower status
         = ptrVal (StationLatestResponse.GridPower station)
    /\ PowerStatus.PurchasePower status
         = ptrVal (StationLatestResponse.PurchasePower station)
    /\ PowerStatus.GenerationPower status
         = ptrVal (StationLatestResponse.GenerationPower station)
    /\ PowerStatus.ConsumptionPower status
         = ptrVal (StationLatestResponse.ConsumptionPower station)
    /\ PowerStatus.BatterySOC status
         = ptrVal (StationLatestResponse.BatterySOC station)
    /\ PowerStatus.BatteryPower status
         = ptrVal (StationLatestResponse.BatteryPower station)
    /\ PowerStatus.DischargePower status
         = ptrVal (StationLatestResponse.DischargePower station)
    /\ PowerStatus.LastUpdateTime status
         = StationLatestResponse.LastUpdateTime station.
Proof.
  intros Hs Hd Hnil.
  destruct (GetPowerStatus_returns _ _ _ _ _ _ _ _ Hs Hd)
    as (status & Hrun & Hg & Hgp & Hpp & Hgen & Hcons & Hsoc & Hbat & Hdis
        & Htime & Honline & Hstate).
  rewrite Hnil in Honline, Hstate.
  exists status. repeat split; assumption.
Qed.

(** ** The power state monitor *)

(** A cycle whose fetch fails returns the stored flag as it was, in the
    state the fetch left: nothing was broadcast. *)
Lemma checkAndNotify_failed fuel cfg lastHasGrid st e st1 :
  GetPowerStatus env fuel (DeyeStationID cfg) (DeyeDeviceSN cfg) st
    = (Returns (Err e), st1) ->
  checkAndNotify env fuel cfg lastHasGrid st = (Returns lastHasGrid, st1)
  /\ broadcasts st1 = broadcasts st.
Proof.
  intros Hp. split.
  - unfold checkAndNotify. now rewrite (bind_Returns _ _ _ _ _ Hp).
  - pose proof (keeps_GetPowerStatus broadcasts fuel (DeyeStationID cfg)
                  (DeyeDeviceSN cfg) offline_broadcasts
                  (fun _ _ => eq_refl) st) as K.
    now rewrite Hp in K.
Qed.

(** The outage line is computed without a broadcast, and a broadcast
    follows it. *)
Lemma line_then_Broadcast (mk : string -> Text) (r : option bool) st :
  exists line st',
    bind (ShutdownLine env)
         (fun line => bind (Broadcast env (mk line)) (fun _ => ret r)) st
      = (Returns r, st')
    /\ broadcasts st' = (broadcasts st ++ [mk line])%list.
Proof.
  destruct (total_ShutdownLine broadcasts offline_broadcasts
              (fun _ _ => eq_refl) (fun _ _ => eq_refl) st)
    as (line & st1 & E1 & F1).
  destruct (Broadcast_total (mk line) st1) as (st2 & E2 & F2).
  exists line, st2. split.
  - rewrite (bind_Returns _ _ _ _ _ E1), (bind_Returns _ _ _ _ _ E2).
    reflexivity.
  - now rewrite F2, F1.
Qed.

(** The first sample: one initial-status broadcast, and the flag is stored. *)
Lemma checkAndNotify_initial fuel cfg st status st1 :
  GetPowerStatus env fuel (DeyeStationID cfg) (DeyeDeviceSN cfg) st
    = (Returns (Ok status), st1) ->
  exists line st2,
    checkAndNotify env fuel cfg None st
      = (Returns (Some (PowerStatus.HasGrid status)), st2)
    /\ broadcasts st2
        = (broadcasts st ++ [formatStatusMessage status line])%list.
Proof.
  intros Hp.
  pose proof (keeps_GetPowerStatus broadcasts fuel (DeyeStationID cfg)
                (DeyeDeviceSN cfg) offline_broadcasts
                (fun _ _ => eq_refl) st) as K.
  rewrite Hp in K. cbn [snd] in K.
  destruct (line_then_Broadcast (formatStatusMessage status)
              (Some (PowerStatus.HasGrid status)) st1)
    as (line & st2 & E & F).
  exists line, st2. split.
  - unfold checkAndNotify. rewrite (bind_Returns _ _ _ _ _ Hp). exact E.
  - now rewrite F, K.
Qed.

(** A later sample: the flag is stored; an alert is broadcast when it
    differs from the stored one, and nothing otherwise. *)
Lemma checkAndNotify_sampled fuel cfg last st status st1 :
  GetPowerStatus env fuel (DeyeStationID cfg) (DeyeDeviceSN cfg) st
    = (Returns (Ok status), st1) ->
  exists st2,
    checkAndNotify env fuel cfg (Some last) st
      = (Returns (Some (PowerStatus.HasGrid status)), st2)
    /\ if Bool.eqb (PowerStatus.HasGrid status) last
       then broadcasts st2 = broadcasts st
       else exists line,
         broadcasts st2
         = (broadcasts st
            ++ [if PowerStatus.HasGrid status
                then formatPowerOnMessage status line
                else formatPowerOffMessage status line])%list.
Proof.
  intros Hp.
  pose proof (keeps_GetPowerStatus broadcasts fuel (DeyeStationID cfg)
                (DeyeDeviceSN cfg) offline_broadcasts
                (fun _ _ => eq_refl) st) as K.
  rewrite Hp in K. cbn [snd] in K.
  unfold checkAndNotify. rewrite (bind_Returns _ _ _ _ _ Hp).
  destruct (Bool.eqb (PowerStatus.HasGrid status) last) eqn:Heq; cbn [negb].
  - exists st1. split; [|exact K].
    apply Bool.eqb_prop in Heq. now rewrite Heq.
  - destruct (PowerStatus.HasGrid status) eqn:Hg.
    + destruct (line_then_Broadcast (formatPowerOnMessage status)
                  (Some true) st1) as (line & st2 & E & F).
      exists st2. split.
      * unfold bind in *. destruct (ShutdownLine env st1) as [[l| |] s1];
          try discriminate. exact E.
      * exists line. now rewrite F, K.
    + destruct (line_then_Broadcast (formatPowerOffMessage status)
                  (Some false) st1) as (line & st2 & E & F).
      exists st2. split.
      * unfold bind in *. destruct (ShutdownLine env st1) as [[l| |] s1];
          try discriminate. exact E.
      * exists line. now rewrite F, K.
Qed.

(** Every cycle the program completes follows the rule. *)
Lemma cycleAt_ok fuel cfg last st0 c st1 :
  cycleAt env fuel cfg last st0 = Some (c, st1) ->
  cycle_ok c /\ before c = last.
Proof.
  unfold cycleAt.
  destruct (GetPowerStatus _ _ _ _ st0) as [[[status|e]| |] stp] eqn:Hp;
    try discriminate.
  - destruct last as [prev|].
    + destruct (checkAndNotify_sampled fuel cfg prev st0 status stp Hp)
        as (st2 & E & F).
      rewrite E. intros [= <- <-]. split; [|reflexivity].
      unfold cycle_ok. cbn. split; [reflexivity|].
      destruct (Bool.eqb _ prev).
      * rewrite F. apply drop_all.
      * destruct F as (line & F). exists status, line.
        split; [reflexivity|]. rewrite F. apply drop_app_length.
    + destruct (checkAndNotify_initial fuel cfg st0 status stp Hp)
        as (line & st2 & E & F).
      rewrite E. intros [= <- <-]. split; [|reflexivity].
      unfold cycle_ok. cbn. split; [reflexivity|].
      exists status, line. split; [reflexivity|].
      rewrite F. apply drop_app_length.
  - destruct (checkAndNotify_failed fuel cfg last st0 e stp Hp) as (E & F).
    rewrite E. intros [= <- <-]. split; [|reflexivity].
    unfold cycle_ok. cbn. split; [reflexivity|].
    rewrite F. apply drop_all.
Qed.

Lemma cycle_ok_after c :
  cycle_ok c -> after c = lastSampled (before c) [c].
Proof.
  unfold cycle_ok, lastSampled. cbn.
  destruct (sample c); intros [-> _]; reflexivity.
Qed.

(** A call of the closure only appends to the broadcasts. *)
Lemma checkAndNotify_appends fuel cfg flag st0 l st1 :
  checkAndNotify env fuel cfg flag st0 = (Returns l, st1) ->
  exists msgs, broadcasts st1 = (broadcasts st0 ++ msgs)%list.
Proof.
  intros E.
  destruct (GetPowerStatus env fuel (DeyeStationID cfg) (DeyeDeviceSN cfg) st0)
    as [[[status|e]| |] stp] eqn:Hp.
  - destruct flag as [prev|].
    + destruct (checkAndNotify_sampled fuel cfg prev st0 status stp Hp)
        as (st2 & E2 & F).
      rewrite E2 in E. injection E as <- <-.
      destruct (Bool.eqb _ prev).
      * exists []. now rewrite app_nil_r.
      * destruct F as (line & F). eauto.
    + destruct (checkAndNotify_initial fuel cfg st0 status stp Hp)
        as (line & st2 & E2 & F).
      rewrite E2 in E. injection E as <- <-. eauto.
  - destruct (checkAndNotify_failed fuel cfg flag st0 e stp Hp) as (E2 & F).
    rewrite E2 in E. injection E as <- <-.
    exists []. now rewrite app_nil_r.
  - unfold checkAndNotify, bind in E. rewrite Hp in E. discriminate E.
  - unfold checkAndNotify, bind in E. rewrite Hp in E. discriminate E.
Qed.

Lemma checkAndNotify_cycleAt fuel cfg flag st0 l st1 :
  checkAndNotify env fuel cfg flag st0 = (Returns l, st1) ->
  exists c, cycleAt env fuel cfg flag st0 = Some (c, st1) /\ after c = l.
Proof.
  intros E. unfold cycleAt. rewrite E.
  unfold checkAndNotify, bind in E.
  destruct (GetPowerStatus _ _ _ _ st0) as [[r| |] stp]; try discriminate E.
  eexists. split; reflexivity.
Qed.

Lemma cycleAt_run fuel cfg flag st0 c st1 :
  cycleAt env fuel cfg flag st0 = Some (c, st1) ->
  checkAndNotify env fuel cfg flag st0 = (Returns (after c), st1)
  /\ broadcasts st1 = (broadcasts st0 ++ emitted c)%list.
Proof.
  unfold cycleAt.
  destruct (GetPowerStatus _ _ _ _ st0) as [[r| |] stp]; try discriminate.
  destruct (checkAndNotify env fuel cfg flag st0) as [[l1| |] s1] eqn:E;
    try discriminate.
  intros [= <- <-]. cbn [after emitted]. split; [reflexivity|].
  destruct (checkAndNotify_appends _ _ _ _ _ _ E) as (msgs & F).
  now rewrite F, drop_app_length.
Qed.

(** *** The run, tick by tick *)

(** One more tick is one more pause and one more call of the closure, with
    the flag the loop holds by then. *)
Lemma pollLoop_snoc fuel cfg d ticks : forall flag st,
  pollLoop env fuel cfg flag (ticks ++ [d]) st
  = bind (pollLoop env fuel cfg flag ticks)
         (fun l => bind (sleep d) (fun _ => checkAndNotify env fuel cfg l)) st.
Proof.
  induction ticks as [|t ticks IH]; intros flag st; cbn [app pollLoop].
  - unfold bind, ret. destruct (sleep d st) as [[[]| |] s1]; try reflexivity.
    now destruct (checkAndNotify env fuel cfg flag s1) as [[l1| |] s2].
  - unfold bind. destruct (sleep t st) as [[[]| |] s1]; try reflexivity.
    destruct (checkAndNotify env fuel cfg flag s1) as [[l1| |] s2];
      try reflexivity.
    rewrite IH. reflexivity.
Qed.

Lemma runDeyePoller_snoc fuel cfg d ticks st :
  runDeyePoller env fuel cfg (ticks ++ [d]) st
  = bind (runDeyePoller env fuel cfg ticks)
         (fun l => bind (sleep d) (fun _ => checkAndNotify env fuel cfg l)) st.
Proof.
  unfold runDeyePoller.
  destruct (int64 (PollIntervalSec cfg * Second) <=? 0); [reflexivity|].
  unfold bind.
  destruct (checkAndNotify env fuel cfg None st) as [[l1| |] s1];
    try reflexivity.
  rewrite pollLoop_snoc. reflexivity.
Qed.

Lemma runDeyePoller_nil fuel cfg st l1 st1 :
  runDeyePoller env fuel cfg [] st = (Returns l1, st1) ->
  checkAndNotify env fuel cfg None st = (Returns l1, st1).
Proof.
  unfold runDeyePoller.
  destruct (int64 (PollIntervalSec cfg * Second) <=? 0); [discriminate|].
  unfold bind.
  now destruct (checkAndNotify env fuel cfg None st) as [[l| |] s].
Qed.

Lemma runDeyePoller_step fuel cfg ticks st j d l0 st0 :
  ticks !! j = Some d ->
  runDeyePoller env fuel cfg (take j ticks) st = (Returns l0, st0) ->
  runDeyePoller env fuel cfg (take (S j) ticks) st
  = checkAndNotify env fuel cfg l0 (snd (sleep d st0)).
Proof.
  intros Hd H0.
  rewrite (take_S_r _ _ _ Hd), runDeyePoller_snoc, (bind_Returns _ _ _ _ _ H0).
  reflexivity.
Qed.

(** A run that returns has returned at every tick before. *)
Lemma runDeyePoller_take fuel cfg ticks st : forall l st',
  runDeyePoller env fuel cfg ticks st = (Returns l, st') ->
  forall j, exists lj stj,
    runDeyePoller env fuel cfg (take j ticks) st = (Returns lj, stj).
Proof.
  induction ticks as [|d ticks IH] using rev_ind; intros l st' Hrun j.
  - rewrite take_nil. eauto.
  - destruct (decide (j <= length ticks)%nat) as [Hj|Hj].
    + rewrite take_app_le by exact Hj. rewrite runDeyePoller_snoc in Hrun.
      unfold bind at 1 in Hrun.
      destruct (runDeyePoller env fuel cfg ticks st) as [[l0| |] st0];
        try discriminate Hrun.
      exact (IH _ _ eq_refl j).
    + rewrite take_ge; [eauto|]. rewrite length_app. cbn. lia.
Qed.

Lemma cycleOf_O fuel cfg ticks st c :
  cycleOf env fuel cfg ticks st 0 = Some c ->
  exists st1,
    cycleAt env fuel cfg None st = Some (c, st1)
    /\ runDeyePoller env fuel cfg [] st = (Returns (after c), st1).
Proof.
  cbn [cycleOf]. intros H.
  destruct (GetPowerStatus _ _ _ _ st) as [[r| |] stp] eqn:Hp;
    try discriminate H.
  destruct (runDeyePoller env fuel cfg [] st) as [[l1| |] st1] eqn:Hrun;
    try discriminate H.
  injection H as <-. exists st1. split; [|reflexivity].
  unfold cycleAt. now rewrite Hp, (runDeyePoller_nil _ _ _ _ _ Hrun).
Qed.

Lemma cycleOf_S fuel cfg ticks st j c :
  cycleOf env fuel cfg ticks st (S j) = Some c ->
  exists d st0 st1,
    ticks !! j = Some d
    /\ runDeyePoller env fuel cfg (take j ticks) st = (Returns (before c), st0)
    /\ cycleAt env fuel cfg (before c) (snd (sleep d st0)) = Some (c, st1)
    /\ runDeyePoller env fuel cfg (take (S j) ticks) st
       = (Returns (after c), st1).
Proof.
  cbn [cycleOf]. intros H.
  destruct (ticks !! j) as [d|] eqn:Hd; [|discriminate H].
  destruct (runDeyePoller env fuel cfg (take j ticks) st)
    as [[l0| |] st0] eqn:H0; try discriminate H.
  pose proof (runDeyePoller_step _ _ _ _ _ _ _ _ Hd H0) as Hs.
  destruct (runDeyePoller env fuel cfg (take (S j) ticks) st)
    as [[l1| |] st1] eqn:H1; try discriminate H.
  destruct (GetPowerStatus _ _ _ _ (snd (sleep d st0))) as [[r| |] stp] eqn:Hp;
    try discriminate H.
  injection H as <-. exists d, st0, st1. cbn [before after].
  split; [reflexivity|]. split; [reflexivity|]. split; [|reflexivity].
  unfold cycleAt. now rewrite Hp, <- Hs.
Qed.

(** Where the run stopped after [k] ticks returns, cycle [k] is there, and
    the flag the run ends with is the one the cycle stored. *)
Lemma cycleOf_is_Some fuel cfg ticks st k lk stk :
  (k <= length ticks)%nat ->
  runDeyePoller env fuel cfg (take k ticks) st = (Returns lk, stk) ->
  exists c, cycleOf env fuel cfg ticks st k = Some c /\ after c = lk.
Proof.
  intros Hk Hrun. destruct k as [|j].
  - change (take 0 ticks) with (@nil N) in Hrun.
    pose proof (runDeyePoller_nil _ _ _ _ _ Hrun) as E.
    destruct (checkAndNotify_cycleAt _ _ _ _ _ _ E) as (c & Hc & Ha).
    exists c. split; [|exact Ha]. cbn [cycleOf]. rewrite Hrun.
    unfold cycleAt in Hc. rewrite E in Hc.
    destruct (GetPowerStatus _ _ _ _ st) as [[r| |] stp]; try discriminate Hc.
    now injection Hc as <-.
  - destruct (lookup_lt_is_Some_2 ticks j ltac:(lia)) as (d & Hd).
    destruct (runDeyePoller_take _ _ _ _ _ _ Hrun j) as (l0 & st0 & H0).
    rewrite take_take, Nat.min_l in H0 by lia.
    pose proof (runDeyePoller_step _ _ _ _ _ _ _ _ Hd H0) as Hs.
    rewrite Hrun in Hs. symmetry in Hs.
    destruct (checkAndNotify_cycleAt _ _ _ _ _ _ Hs) as (c & Hc & Ha).
    exists c. split; [|exact Ha]. cbn [cycleOf]. rewrite Hd, H0, Hrun.
    unfold cycleAt in Hc. rewrite Hs in Hc.
    destruct (GetPowerStatus _ _ _ _ (snd (sleep d st0))) as [[r| |] stp];
      try discriminate Hc.
    now injection Hc as <-.
Qed.

Lemma lastSampled_snoc init cs c :
  lastSampled init (cs ++ [c]) = lastSampled (lastSampled init cs) [c].
Proof. unfold lastSampled. now rewrite fold_left_app. Qed.

(** Every cycle of the run follows the rule; the flag stored when it
    begins is the last one sampled before it; and the run stopped after it
    has broadcast what the cycles so far emitted, and nothing else. *)
Lemma cycleOf_spec fuel cfg ticks st k : forall c,
  cycleOf env fuel cfg ticks st k = Some c ->
  cycle_ok c
  /\ before c = lastSampled None (cyclesBefore env fuel cfg ticks st k)
  /\ length (cyclesBefore env fuel cfg ticks st k) = k
  /\ exists stk,
       runDeyePoller env fuel cfg (take k ticks) st = (Returns (after c), stk)
       /\ broadcasts stk
          = (broadcasts st
             ++ concat (map emitted (cyclesBefore env fuel cfg ticks st k))
             ++ emitted c)%list.
Proof.
  induction k as [|j IH]; intros c Hc.
  - destruct (cycleOf_O _ _ _ _ _ Hc) as (st1 & Hat & Hrun).
    destruct (cycleAt_ok _ _ _ _ _ _ Hat) as (Hok & Hb).
    destruct (cycleAt_run _ _ _ _ _ _ Hat) as (_ & Hbr).
    split; [exact Hok|]. split; [exact Hb|]. split; [reflexivity|].
    exists st1. split; [exact Hrun | exact Hbr].
  - destruct (cycleOf_S _ _ _ _ _ _ Hc) as (d & st0 & st1 & Hd & H0 & Hat & H1).
    destruct (cycleAt_ok _ _ _ _ _ _ Hat) as (Hok & _).
    destruct (cycleAt_run _ _ _ _ _ _ Hat) as (_ & Hbr).
    assert (Hj : (j <= length ticks)%nat).
    { apply lookup_lt_Some in Hd. lia. }
    destruct (cycleOf_is_Some _ _ _ _ _ _ _ Hj H0) as (c0 & Hc0 & Ha0).
    destruct (IH c0 Hc0) as (Hok0 & Hb0 & Hlen0 & stj & Hrunj & Hbrj).
    rewrite H0 in Hrunj. injection Hrunj as _ <-.
    cbn [cyclesBefore]. rewrite Hc0.
    split; [exact Hok|]. split; [|split].
    + rewrite lastSampled_snoc, <- Hb0, <- (cycle_ok_after _ Hok0). now symmetry.
    + rewrite length_app, Hlen0. cbn. lia.
    + exists st1. split; [exact H1|]. rewrite Hbr.
      change (broadcasts (snd (sleep d st0))) with (broadcasts st0).
      rewrite Hbrj, map_app, concat_app. cbn [map concat].
      now rewrite app_nil_r, <- !app_assoc.
Qed.



Lemma cyclesBefore_ok fuel cfg ticks st k :
  Forall cycle_ok (cyclesBefore env fuel cfg ticks st k).
Proof.
  induction k as [|j IH]; cbn [cyclesBefore]; [constructor|].
  apply Forall_app. split; [exact IH|].
  destruct (cycleOf env fuel cfg ticks st j) as [c|] eqn:Hc; [|constructor].
  constructor; [|constructor]. now destruct (cycleOf_spec _ _ _ _ _ _ Hc).
Qed.

(** Cycles none of which sampled a flag broadcast nothing. *)
Lemma nothing_sampled cs : forall init,
  Forall cycle_ok cs ->
  lastSampled init cs = None ->
  init = None /\ concat (map emitted cs) = [].
Proof.
  induction cs as [|c cs IH]; intros init Hok Hnone; [now split|].
  inversion Hok as [|? ? Hc Hcs]; subst.
  change (lastSampled (match sample c with
                       | Some b => Some b
                       | None => init
                       end) cs = None) in Hnone.
  destruct (IH _ Hcs Hnone) as (Hinit & Hrest).
  unfold cycle_ok in Hc. destruct (sample c); [discriminate Hinit|].
  destruct Hc as (_ & Hem). split; [exact Hinit|].
  cbn [map concat]. now rewrite Hem, Hrest.
Qed.


(** C7. In every run of [runDeyePoller], the first cycle that samples a
    flag, whatever failed cycles came before it, starts from the unknown
    state, broadcasts exactly one message, the initial status and no
    alert, and stores the sampled flag: the run stopped after that cycle
    holds the flag and has broadcast that one message in all. *)
Theorem first_sample_initial_status fuel cfg ticks st k c b :
  cycleOf env fuel cfg ticks st k = Some c ->
  lastSampled None (cyclesBefore env fuel cfg ticks st k) = None ->
  sample c = Some b ->
  before c = None
  /\ after c = Some b
  /\ (exists status line,
        PowerStatus.HasGrid status = b
        /\ emitted c = [formatStatusMessage status line]
        /\ exists stk,
             runDeyePoller env fuel cfg (take k ticks) st
               = (Returns (Some b), stk)
             /\ broadcasts stk
                = (broadcasts st ++ [formatStatusMessage status line])%list)
  /\ length (emitted c) = 1%nat
  /\ Forall (fun t => isAlert t = false) (emitted c).
Proof.
  intros Hc Hprev Hs.
  destruct (cycleOf_spec _ _ _ _ _ _ Hc) as (Hok & Hb & _ & stk & Hrun & Hbr).
  destruct (nothing_sampled _ _ (cyclesBefore_ok fuel cfg ticks st k) Hprev)
    as (_ & Hnil).
  rewrite Hprev in Hb. unfold cycle_ok in Hok. rewrite Hb, Hs in Hok.
  destruct Hok as (Ha & status & line & Hg & Hem).
  split; [exact Hb|]. split; [exact Ha|]. split.
  - exists status, line. split; [exact Hg|]. split; [exact Hem|].
    exists stk. split; [now rewrite <- Ha|].
    now rewrite Hbr, Hnil, Hem.
  - rewrite Hem. split; [reflexivity|]. now repeat constructor.
Qed.

(** ** The outage cache *)

(** A call of [FetchShutdowns] returns, is counted once, and leaves the
    cache alone. *)
Lemma FetchShutdowns_total st :
  exists r st',
    FetchShutdowns env st = (Returns r, st')
    /\ fetches st' = S (fetches st)
    /\ dtek st' = dtek st.
Proof.
  unfold FetchShutdowns.
  rewrite (bind_Returns (gets fetches) _ st (fetches st) st eq_refl).
  rewrite (bind_Returns (modify _) _ st tt
             (with_fetches (S (fetches st)) st) eq_refl).
  set (st1 := with_fetches (S (fetches st)) st).
  lazy beta zeta.
  assert (Hf : offline (fun s => (fetches s, dtek s))) by now split.
  match goal with
  | |- exists r st', ?m st1 = _ /\ _ =>
    assert (Ht : total_keeping (fun s => (fetches s, dtek s)) m)
      by (repeat first [ apply total_Do; assumption
                       | apply total_sleep; assumption
                       | frame_step ])
  end.
  destruct (Ht st1) as (r & st' & E & F). exists r, st'.
  split; [exact E|]. injection F as F1 F2. now rewrite F1, F2.
Qed.

Lemma GetShutdown_hit st :
  cacheValid st = true ->
  GetShutdown env st = (Returns (Ok (cachedValue (dtek st))), st).
Proof.
  unfold cacheValid, GetShutdown, Since, timeNow.
  unfold bind, gets, ret.
  lazy beta iota zeta. now intros ->.
Qed.

Lemma GetShutdown_miss st :
  cacheValid st = false ->
  GetShutdown env st =
  match FetchShutdowns env st with
  | (Returns (Ok shutdown), st') =>
    (Returns (Ok shutdown),
     with_dtek {| city := city (dtek st'); street := street (dtek st');
                  house := house (dtek st'); cachedAt := now st';
                  cachedValue := shutdown; cacheHit := true |} st')
  | (Returns (Err err), st') => (Returns (Err err), st')
  | (Panics r, st') => (Panics r, st')
  | (OutOfFuel, st') => (OutOfFuel, st')
  end.
Proof.
  unfold cacheValid, GetShutdown, Since, timeNow.
  unfold bind, gets, ret, modify.
  lazy beta iota zeta. intros ->. now destruct (FetchShutdowns env st) as [[[s|e]| |] st'].
Qed.

(** C6. After a fetch that found no outage for the house, a call of
    [GetShutdown] less than the TTL after it returns the cached "no outage"
    and changes nothing, so no fetch is made; the first call at or past the
    TTL makes exactly one fetch. *)
Theorem GetShutdown_absent_cached st st1 :
  GetShutdown env st = (Returns (Ok None), st1) ->
  fetches st1 = S (fetches st) ->
  (forall st2, dtek st2 = dtek st1 ->
     now st2 < now st1 + dtekCacheTTL ->
     GetShutdown env st2 = (Returns (Ok None), st2))
  /\ (forall st2, dtek st2 = dtek st1 ->
      now st1 + dtekCacheTTL <= now st2 ->
      fetches (snd (GetShutdown env st2)) = S (fetches st2)).
Proof.
  intros Hget Hfetched.
  assert (Hcache : cacheHit (dtek st1) = true
                   /\ cachedValue (dtek st1) = None
                   /\ cachedAt (dtek st1) = now st1).
  { destruct (cacheValid st) eqn:Hv.
    - rewrite (GetShutdown_hit _ Hv) in Hget. injection Hget as _ <-. lia.
    - rewrite (GetShutdown_miss _ Hv) in Hget.
      destruct (FetchShutdowns env st) as [[[s|e]| |] st'];
        try discriminate Hget.
      injection Hget as -> <-. now repeat split. }
  destruct Hcache as (Hhit & Hval & Hat). split.
  - intros st2 Hd Hlt. rewrite <- Hval, <- Hd. apply GetShutdown_hit.
    unfold cacheValid. rewrite Hd, Hhit, Hat. cbn.
    apply Z.ltb_lt. lia.
  - intros st2 Hd Hge. rewrite GetShutdown_miss.
    + destruct (FetchShutdowns_total st2) as (r & st' & -> & F & _).
      now destruct r.
    + unfold cacheValid. rewrite Hd, Hhit, Hat. cbn.
      apply Z.ltb_ge. lia.
Qed.

(** C8. When the cache misses and the fetch fails, [GetShutdown] returns
    the error of the fetch and the cache is as it was: wherever the cache
    is valid, a call returns the value cached before. *)
Theorem GetShutdown_fetch_error st e st1 :
  cacheValid st = false ->
  FetchShutdowns env st = (Returns (Err e), st1) ->
  GetShutdown env st = (Returns (Err e), st1)
  /\ cachedValue (dtek st1) = cachedValue (dtek st)
  /\ cachedAt (dtek st1) = cachedAt (dtek st)
  /\ cacheHit (dtek st1) = cacheHit (dtek st)
  /\ (forall st2, dtek st2 = dtek st1 -> cacheValid st2 = true ->
      GetShutdown env st2 = (Returns (Ok (cachedValue (dtek st))), st2)).
Proof.
  intros Hv Hf.
  assert (Hd : dtek st1 = dtek st).
  { destruct (FetchShutdowns_total st) as (r & st' & E & _ & Hd).
    rewrite Hf in E. now injection E as _ ->. }
  split; [now rewrite (GetShutdown_miss _ Hv), Hf|].
  rewrite Hd. repeat split.
  intros st2 Hd2 Hv2. rewrite (GetShutdown_hit _ Hv2). now rewrite Hd2.
Qed.

(** ** The cursor of the command listener *)

Lemma wp_Do req st Q :
  Q (Returns match answer (remote env (sent st) req) with
             | Some resp => Ok resp
             | None => Err ErrTransport
             end) (afterDo env req st) ->
  wp (Do env req) st Q.
Proof. exact id. Qed.

Lemma GetUpdates_Ok st batch st1 :
  GetUpdates env st = (Returns (Ok batch), st1) ->
  urlParses env (apiURL (bot st) "getUpdates") = true
  /\ token (bot st1) = token (bot st)
  /\ offset (bot st1) = match last batch with
                        | Some u => int64 (Update.UpdateID u + 1)
                        | None => offset (bot st)
                        end.
Proof.
  intros Hrun.
  assert (Hwp : wp (GetUpdates env) st (fun o st1 => forall batch,
            o = Returns (Ok batch) ->
            urlParses env (apiURL (bot st) "getUpdates") = true
            /\ token (bot st1) = token (bot st)
            /\ offset (bot st1) = match last batch with
                                  | Some u => int64 (Update.UpdateID u + 1)
                                  | None => offset (bot st)
                                  end)).
  { unfold GetUpdates, Post, NewRequest, ReadAll.
    repeat first [ apply wp_Do | wp_step ];
      intros batch' [= <-]; cbn.
    all: match goal with H : last _ = _ |- _ => rewrite H end.
    all: repeat split.
    all: destruct (urlParses env _); [reflexivity|discriminate]. }
  exact (wp_run _ _ _ _ _ Hwp Hrun batch eq_refl).
Qed.

Lemma GetUpdates_request st :
  urlParses env (apiURL (bot st) "getUpdates") = true ->
  exists req,
    sent (snd (GetUpdates env st)) = (sent st ++ [req])%list
    /\ URL req = apiURL (bot st) "getUpdates"
    /\ Payload req = marshal {| getUpdatesRequest.Offset := offset (bot st);
                                getUpdatesRequest.Timeout := 30 |}.
Proof.
  intros Hurl.
  set (body := marshal {| getUpdatesRequest.Offset := offset (bot st);
                          getUpdatesRequest.Timeout := 30 |}).
  set (req := Header_Set {| Method := "POST";
                            URL := apiURL (bot st) "getUpdates";
                            Header := []; Payload := body |}
                "Content-Type" "application/json").
  exists req.
  change (wp (GetUpdates env) st (fun _ st' =>
            sent st' = (sent st ++ [req])%list
            /\ URL req = apiURL (bot st) "getUpdates"
            /\ Payload req = body)).
  unfold GetUpdates, Post, NewRequest, ReadAll.
  apply wp_bind, wp_gets. lazy beta zeta. rewrite Hurl.
  repeat first [ apply wp_Do | wp_step ]; cbn.
  all: split; [reflexivity|]; split; reflexivity.
Qed.

Lemma last_map_inv {A B} (f : A -> B) (l : list A) a :
  last l = Some a -> last (map f l) = Some (f a).
Proof.
  intros H. replace (map f l) with (f <$> l) by reflexivity.
  now rewrite fmap_last, H.
Qed.

(** C5, as the code has it. After a call of [GetUpdates] that returns a
    batch that is not empty, the stored offset is one past the identifier
    of the last update of the batch, in 64-bit arithmetic, and the next
    poll request carries that offset. It is one past the highest
    identifier when the last update has the highest one, short of the
    largest [int64]; after the identifiers 5, 6, 7 it is 8. *)
Theorem GetUpdates_cursor st batch u st1 :
  GetUpdates env st = (Returns (Ok batch), st1) ->
  last batch = Some u ->
  offset (bot st1) = int64 (Update.UpdateID u + 1)
  /\ (forall st2, bot st2 = bot st1 ->
      exists req,
        sent (snd (GetUpdates env st2)) = (sent st2 ++ [req])%list
        /\ Payload req =
           marshal {| getUpdatesRequest.Offset := int64 (Update.UpdateID u + 1);
                      getUpdatesRequest.Timeout := 30 |})
  /\ (highestUpdateID batch = Update.UpdateID u ->
      MinInt64 <= Update.UpdateID u < MaxInt64 ->
      offset (bot st1) = highestUpdateID batch + 1)
  /\ (map Update.UpdateID batch = [5; 6; 7] -> offset (bot st1) = 8).
Proof.
  intros Hrun Hlast.
  destruct (GetUpdates_Ok _ _ _ Hrun) as (Hurl & Htok & Hoff).
  rewrite Hlast in Hoff. split; [exact Hoff|]. split; [|split].
  - intros st2 Hb.
    destruct (GetUpdates_request st2) as (req & Hs & _ & Hp).
    + rewrite Hb. unfold apiURL in *. now rewrite Htok.
    + exists req. split; [exact Hs|]. now rewrite Hp, Hb, Hoff.
  - intros -> Hrange. rewrite Hoff. unfold int64, MinInt64, MaxInt64 in *.
    rewrite Z.mod_small by lia. lia.
  - intros Hids. apply (last_map_inv Update.UpdateID) in Hlast.
    rewrite Hids in Hlast. injection Hlast as Hu. now rewrite Hoff, <- Hu.
Qed.

(** ** The Bearer prefix *)

Lemma sentOnly_refl c path st : sameConfig c (deye st) -> sentOnly c path st st.
Proof.
  intros Hc. split; [|exact Hc].
  exists []. split; [now rewrite app_nil_r|constructor].
Qed.

Lemma sentOnly_trans c path st1 st2 st3 :
  sentOnly c path st1 st2 -> sentOnly c path st2 st3 -> sentOnly c path st1 st3.
Proof.
  intros [(n1 & E1 & F1) _] [(n2 & E2 & F2) Hc]. split; [|exact Hc].
  exists (n1 ++ n2)%list. split.
  - now rewrite E2, E1, app_assoc.
  - now apply Forall_app.
Qed.

Lemma Bearer_prepend tok : Bearer ("Bearer " ++ tok) = true.
Proof. unfold Bearer. vm_compute. now destruct tok. Qed.

Lemma Bearer_ensured tok :
  Bearer (if negb (String.prefix "Bearer " tok)
          then ("Bearer " ++ tok)%string else tok) = true.
Proof.
  destruct (String.prefix "Bearer " tok) eqn:E; cbn [negb].
  - exact E.
  - apply Bearer_prepend.
Qed.

Lemma sentOnly_one c path st req st' :
  okRequest c path req ->
  sent st' = (sent st ++ [req])%list ->
  sameConfig c (deye st') ->
  sentOnly c path st st'.
Proof.
  intros Hok Hs Hc. split; [|exact Hc]. exists (req :: nil).
  split; [exact Hs|]. constructor; [exact Hok|constructor].
Qed.

Lemma tokenRequest_ok c path c' data :
  sameConfig c c' ->
  okRequest c path
    (Header_Set {| Method := "POST";
                   URL := (baseURL c' ++ "/v1.0/account/token?appId="
                           ++ appID c')%string;
                   Header := []; Payload := data |}
       "Content-Type" "application/json").
Proof.
  intros (Hb & Ha & _). left. split; [|reflexivity].
  cbn. unfold tokenURL. now rewrite Hb, Ha.
Qed.

Lemma wp_Authenticate c path st :
  sameConfig c (deye st) ->
  wp (Authenticate env) st (fun o st' =>
    sentOnly c path st st'
    /\ (tokenInv (deye st) -> tokenInv (deye st'))
    /\ (o = Returns (Ok tt) -> Bearer (accessToken (deye st')) = true)).
Proof.
  intros Hc. unfold Authenticate, NewRequest, ReadAll.
  repeat first [ apply wp_Do | wp_step ].
  all: split; [|split].
  all: try discriminate.
  all: try (intros Hi; exact Hi).
  all: try (apply sentOnly_refl; exact Hc).
  all: try (eapply sentOnly_one;
            [apply tokenRequest_ok; exact Hc | reflexivity | exact Hc]).
  all: try (intros _; right; exact (Bearer_ensured _)).
  all: try (intros _; exact (Bearer_ensured _)).
Qed.

Lemma wp_getToken c path st :
  sameConfig c (deye st) -> tokenInv (deye st) ->
  wp (getToken env) st (fun o st' =>
    sentOnly c path st st'
    /\ tokenInv (deye st')
    /\ (forall tok, o = Returns (Ok tok) -> Bearer tok = true)).
Proof.
  intros Hc Hi. unfold getToken.
  apply wp_bind, wp_gets. lazy beta zeta. apply wp_bind, wp_gets.
  destruct (String.eqb (accessToken (deye st)) "" || _) eqn:E.
  - apply wp_bind.
    eapply wp_mono; [apply (wp_Authenticate c path); exact Hc|].
    intros o st' (Hs & Hi' & Hb). destruct o as [[[]|e]| |].
    + apply wp_bind, wp_gets, wp_ret.
      split; [exact Hs|]. split; [auto|]. intros tok [= <-]. auto.
    + apply wp_ret. split; [exact Hs|]. split; [auto|]. discriminate.
    + split; [exact Hs|]. split; [auto|]. discriminate.
    + split; [exact Hs|]. split; [auto|]. discriminate.
  - apply wp_ret. split; [now apply sentOnly_refl|]. split; [exact Hi|].
    intros tok [= <-]. apply orb_false_iff in E as [E _].
    destruct Hi as [Hi|Hi]; [|exact Hi].
    rewrite Hi in E. discriminate E.
Qed.

Lemma telemetryRequest_ok c path c' data tok :
  sameConfig c c' -> Bearer tok = true ->
  okRequest c path
    (Header_Set
       (Header_Set {| Method := "POST"; URL := (baseURL c' ++ path)%string;
                      Header := []; Payload := data |}
          "Content-Type" "application/json")
       "Authorization" tok).
Proof.
  intros (Hb & _) Htok. right. split; [cbn; now rewrite Hb | exact Htok].
Qed.

(** Whatever [doRequest] does, it sends nothing but token requests and
    requests to [path] that carry a Bearer credential. *)
Lemma wp_doRequest {Req Resp} `{!Marshal Req} `{!Unmarshal Resp}
    c fuel path (reqBody : Req) : forall st,
  sameConfig c (deye st) -> tokenInv (deye st) ->
  wp (doRequest (Resp:=Resp) env fuel path reqBody) st (fun o st' =>
    sentOnly c path st st' /\ tokenInv (deye st')).
Proof.
  induction fuel as [|fuel IH]; intros st Hc Hi; cbn [doRequest].
  - apply wp_diverge. split; [now apply sentOnly_refl | exact Hi].
  - apply wp_bind.
    eapply wp_mono; [apply (wp_getToken c path); assumption|].
    intros o st1 (Hs1 & Hi1 & Hb). pose proof (proj2 Hs1) as Hc1.
    destruct o as [[tok|e]| |]; try (split; assumption).
    specialize (Hb tok eq_refl).
    lazy beta zeta. apply wp_bind, wp_gets.
    apply wp_bind, wp_slice; [intros _|intros _; split; assumption].
    apply wp_bind, wp_slice; [intros _|intros _; split; assumption].
    unfold NewRequest. destruct (urlParses env _); [|split; assumption].
    lazy beta iota zeta. apply wp_bind, wp_Do.
    match goal with |- context [afterDo env ?r st1] =>
      set (req := r); set (st2 := afterDo env req st1) end.
    assert (Hs2 : sentOnly c path st st2).
    { apply (sentOnly_trans _ _ _ st1); [exact Hs1|].
      eapply sentOnly_one; [|reflexivity|exact Hc1].
      apply telemetryRequest_ok; assumption. }
    assert (Hi2 : tokenInv (deye st2)) by exact Hi1.
    destruct (answer _) as [resp|]; [|split; assumption].
    unfold ReadAll. destruct (Body resp) as [respBody|]; [|split; assumption].
    destruct (StatusCode resp =? 401).
    + apply wp_bind.
      eapply wp_mono; [apply (wp_Authenticate c path); exact (proj2 Hs2)|].
      intros o st3 (Hs3 & Hi3 & _).
      assert (Hs : sentOnly c path st st3)
        by (eapply sentOnly_trans; eassumption).
      destruct o as [[[]|e]| |]; try (split; auto; fail).
      eapply wp_mono; [apply IH; [exact (proj2 Hs3) | auto]|].
      intros o st4 (Hs4 & Hi4). split; [|exact Hi4].
      eapply sentOnly_trans; eassumption.
    + destruct (unmarshal respBody); split; assumption.
Qed.

(** ** A server that rejects every request *)

Lemma wp_slice_ok s lo hi st (Q : outcome string -> State -> Prop) :
  0 <= lo -> lo <= hi -> hi <= len s ->
  Q (Returns (substring (Z.to_nat lo) (Z.to_nat (hi - lo)) s)) st ->
  wp (slice s lo hi) st Q.
Proof.
  intros H1 H2 H3 HQ. unfold wp, slice, len in *.
  rewrite (proj2 (Z.leb_le _ _) H1), (proj2 (Z.leb_le _ _) H2),
    (proj2 (Z.leb_le _ _) H3). exact HQ.
Qed.

Lemma len_Bearer_ensured tok :
  15 <= len tok ->
  15 <= len (if negb (String.prefix "Bearer " tok)
             then ("Bearer " ++ tok)%string else tok).
Proof.
  intros H. destruct (negb _); [|exact H]. unfold len in *.
  change (String.length ("Bearer " ++ tok)) with (7 + String.length tok)%nat.
  lia.
Qed.

Lemma Authenticate_granted c st :
  grants env c -> urlParses env (tokenURL c) = true ->
  sameConfig c (deye st) ->
  wp (Authenticate env) st (fun o st' =>
    o = Returns (Ok tt)
    /\ sameConfig c (deye st')
    /\ 15 <= len (accessToken (deye st'))).
Proof.
  intros Hg Hurl Hc. pose proof Hc as (Hb & Ha & _).
  unfold Authenticate, NewRequest.
  apply wp_bind, wp_gets. lazy beta zeta. rewrite Hb, Ha.
  change (baseURL c ++ "/v1.0/account/token?appId=" ++ appID c)%string
    with (tokenURL c).
  rewrite Hurl. lazy beta iota zeta. apply wp_bind, wp_Do.
  match goal with |- context [remote env ?h ?r] =>
    destruct (Hg h r eq_refl) as (d & code & body & g & Hr & Hu & Hs & Hl);
    rewrite Hr
  end.
  cbn [answer ReadAll Body]. lazy beta iota zeta. rewrite Hu, Hs. cbn [negb].
  lazy beta iota zeta.
  pose proof (len_Bearer_ensured _ Hl) as Hl'.
  apply wp_bind, wp_modify. apply wp_bind, wp_gets. apply wp_bind, wp_modify.
  apply wp_bind, wp_gets.
  apply wp_bind, wp_slice_ok; cbn [deye with_deye accessToken set_expiresAt
                                   set_accessToken]; try lia.
  apply wp_bind, wp_slice_ok; cbn [deye with_deye accessToken set_expiresAt
                                   set_accessToken]; try lia.
  apply wp_ret. split; [reflexivity|]. split; [exact Hc | exact Hl'].
Qed.

(** Against such a server a telemetry call never returns: whatever the
    fuel, the recursion of [doRequest] uses it up. *)
Lemma doRequest_rejected_forever {Req Resp} `{!Marshal Req} `{!Unmarshal Resp}
    c path (reqBody : Req) :
  grants env c -> rejects env c path ->
  urlParses env (tokenURL c) = true ->
  urlParses env (baseURL c ++ path)%string = true ->
  forall fuel st,
    sameConfig c (deye st) ->
    accessToken (deye st) = "" \/ 15 <= len (accessToken (deye st)) ->
    fst (doRequest (Resp:=Resp) env fuel path reqBody st) = OutOfFuel.
Proof.
  intros Hg Hr Hut Hud fuel.
  induction fuel as [|fuel IH]; intros st Hc Hi; [reflexivity|].
  change (wp (doRequest (Resp:=Resp) env (S fuel) path reqBody) st
            (fun o _ => o = OutOfFuel)).
  cbn [doRequest]. apply wp_bind.
  apply (wp_mono _ _ (fun o st1 =>
           exists tok, o = Returns (Ok tok) /\ sameConfig c (deye st1)
                       /\ 15 <= len tok
                       /\ 15 <= len (accessToken (deye st1)))).
  { unfold getToken. apply wp_bind, wp_gets. lazy beta zeta.
    apply wp_bind, wp_gets.
    destruct (String.eqb (accessToken (deye st)) "" || _) eqn:E.
    - apply wp_bind.
      eapply wp_mono; [apply (Authenticate_granted c); assumption|].
      intros o st1 (-> & Hc1 & Hl1).
      apply wp_bind, wp_gets, wp_ret. eexists.
      split; [reflexivity|]. split; [exact Hc1|]. split; exact Hl1.
    - apply wp_ret. apply orb_false_iff in E as [E _].
      destruct Hi as [Hi|Hi]; [rewrite Hi in E; discriminate E|].
      eexists. split; [reflexivity|]. split; [exact Hc|]. split; exact Hi. }
  intros o st1 (tok & -> & Hc1 & Hl & Hl1). pose proof Hc1 as (Hb & _).
  lazy beta zeta. apply wp_bind, wp_gets.
  apply wp_bind, wp_slice_ok; try lia.
  apply wp_bind, wp_slice_ok; try lia.
  unfold NewRequest. rewrite Hb, Hud. lazy beta iota zeta.
  apply wp_bind, wp_Do.
  match goal with |- context [remote env ?h ?r] =>
    destruct (Hr h r eq_refl) as (d & body & Hrej); rewrite Hrej
  end.
  cbn [answer ReadAll Body StatusCode]. lazy beta iota zeta.
  change (401 =? 401) with true. lazy beta iota zeta. apply wp_bind.
  eapply wp_mono; [apply (Authenticate_granted c); assumption|].
  intros o st2 (-> & Hc2 & Hl2). apply IH; [exact Hc2 | now right].
Qed.

(** C10. After a call of [Authenticate] that succeeds, the stored token
    begins with "Bearer "; and from any state where the stored token
    does, a telemetry call sends nothing but token requests, which carry
    no credential, and requests to its path whose Authorization header
    begins with "Bearer ", and leaves a token that is empty or begins
    with "Bearer ". *)
Theorem Authenticate_Bearer st st1 :
  Authenticate env st = (Returns (Ok tt), st1) ->
  String.prefix "Bearer " (accessToken (deye st1)) = true
  /\ forall Req Resp (HM : Marshal Req) (HU : Unmarshal Resp)
       fuel path (reqBody : Req) st2,
       deye st2 = deye st1 ->
       let st3 := snd (doRequest (Resp:=Resp) env fuel path reqBody st2) in
       (exists new,
          sent st3 = (sent st2 ++ new)%list
          /\ Forall (fun r =>
                (URL r = tokenURL (deye st1)
                 /\ Header_Get r "Authorization" = "")
                \/ (URL r = (baseURL (deye st1) ++ path)%string
                    /\ String.prefix "Bearer "
                         (Header_Get r "Authorization") = true)) new)
       /\ (accessToken (deye st3) = ""
           \/ String.prefix "Bearer " (accessToken (deye st3)) = true).
Proof.
  intros Hrun.
  assert (Hb : Bearer (accessToken (deye st1)) = true).
  { pose proof (wp_Authenticate (deye st) "" st) as Hwp.
    eapply wp_run in Hwp; [|now repeat split|exact Hrun].
    now apply Hwp. }
  split; [exact Hb|].
  intros Req Resp HM HU fuel path reqBody st2 Hd st3.
  assert (Hc : sameConfig (deye st1) (deye st2)) by (rewrite Hd; now repeat split).
  assert (Hi : tokenInv (deye st2)) by (rewrite Hd; now right).
  destruct (wp_doRequest (deye st1) fuel path reqBody st2 Hc Hi)
    as ((Hs & _) & Hi3).
  split; [exact Hs | exact Hi3].
Qed.

(** * Further properties of the code *)

Context `{!Marshal DeviceListRequest.t} `{!Unmarshal DeviceListResponse.t}.

(** A step of symbolic execution that also opens a scrutinee that is
    itself a case analysis. *)
Ltac wp_go :=
  lazy beta zeta;
  match goal with
  | |- wp (bind _ _) _ _ => apply wp_bind
  | |- wp (ret _) _ _ => apply wp_ret
  | |- wp (gets _) _ _ => apply wp_gets
  | |- wp timeNow _ _ => apply wp_gets
  | |- wp (modify _) _ _ => apply wp_modify
  | |- wp (panic _) _ _ => apply wp_panic
  | |- wp diverge _ _ => apply wp_diverge
  | |- wp (Do _ _) _ _ => apply wp_Do
  | |- wp (slice _ _ _) _ _ => apply wp_slice; intros ?
  | |- wp (match (if ?b then _ else _) with _ => _ end) _ _ => destruct b eqn:?
  | |- wp (match (match ?y with _ => _ end) with _ => _ end) _ _ =>
    destruct y eqn:?
  | |- wp (match ?x with _ => _ end) _ _ => destruct x eqn:?
  end.

(** ** The Telegram bot *)

Lemma afterDo_sent req st :
  sent (afterDo env req st) = (sent st ++ [req])%list.
Proof. reflexivity. Qed.

(** Whatever the answer, [SendMessage] returns, having sent its request
    and changed nothing else but the clock. *)
Lemma SendMessage_sends chatID text st :
  urlParses env (apiURL (bot st) "sendMessage") = true ->
  exists r,
    SendMessage env chatID text st
    = (Returns r, afterDo env (sendMessageTo (bot st) text chatID) st).
Proof.
  intros Hurl.
  assert (Hwp : wp (SendMessage env chatID text) st (fun o st' =>
            exists r, (o, st')
              = (Returns r, afterDo env (sendMessageTo (bot st) text chatID) st))).
  { unfold SendMessage, Post, NewRequest, ReadAll.
    apply wp_bind, wp_gets. lazy beta zeta. rewrite Hurl.
    repeat wp_go; eexists; reflexivity. }
  destruct Hwp as (r & Hr). exists r. rewrite <- Hr.
  now destruct (SendMessage env chatID text st).
Qed.

Lemma sendEach_sends ids text : forall st,
  urlParses env (apiURL (bot st) "sendMessage") = true ->
  exists st',
    sendEach env ids text st = (Returns tt, st')
    /\ sent st' = (sent st ++ map (sendMessageTo (bot st) text) ids)%list
    /\ bot st' = bot st.
Proof.
  induction ids as [|id ids IH]; intros st Hurl; cbn [sendEach map].
  - exists st. now rewrite app_nil_r.
  - destruct (SendMessage_sends id text st Hurl) as (r & Hr).
    rewrite (bind_Returns _ _ _ _ _ Hr).
    set (st1 := afterDo env (sendMessageTo (bot st) text id) st) in *.
    destruct (IH st1 Hurl) as (st' & Hrun & Hs & Hb).
    exists st'. split; [exact Hrun|]. split; [|exact Hb].
    rewrite Hs. unfold st1. rewrite afterDo_sent.
    now rewrite <- app_assoc.
Qed.

(** X1. With a bot token that makes a well-formed URL, [Broadcast]
    returns, and it has then sent one message to every subscriber, in the
    order of the list, whatever the server answered to each of them: a
    failed delivery does not stop the loop. *)
Theorem Broadcast_reaches_every_subscriber text st :
  urlParses env (apiURL (bot st) "sendMessage") = true ->
  exists st',
    Broadcast env text st = (Returns tt, st')
    /\ sent st'
       = (sent st ++ map (sendMessageTo (bot st) text) (userIDs (bot st)))%list
    /\ bot st' = bot st.
Proof.
  intros Hurl. unfold Broadcast.
  set (st0 := with_broadcasts (broadcasts st ++ [text]) st).
  destruct (sendEach_sends (userIDs (bot st0)) text st0 Hurl)
    as (st' & Hrun & Hs & Hb).
  exists st'. split; [|split; [exact Hs | exact Hb]].
  unfold bind, modify, gets. fold st0. exact Hrun.
Qed.

Lemma IsAllowedUser_allowed chatID st :
  exists b,
    IsAllowedUser chatID st = (Returns b, st)
    /\ (b = true <-> In chatID (userIDs (bot st))).
Proof.
  eexists. split; [reflexivity|]. rewrite existsb_exists. split.
  - intros (id & Hin & Heq). apply Z.eqb_eq in Heq. now subst.
  - intros Hin. exists chatID. split; [exact Hin | apply Z.eqb_refl].
Qed.

(** X2. A call of [GetUpdates] that fails, or that returns an empty
    batch, leaves the bot as it was: the cursor does not move. *)
Theorem GetUpdates_keeps_cursor st r st' :
  GetUpdates env st = (Returns r, st') ->
  isOk r = false \/ r = Ok [] ->
  bot st' = bot st.
Proof.
  intros Hrun.
  assert (Hwp : wp (GetUpdates env) st (fun o st' => forall r,
            o = Returns r -> isOk r = false \/ r = Ok [] ->
            bot st' = bot st)).
  { unfold GetUpdates, Post, NewRequest, ReadAll.
    repeat wp_go; intros r' [= <-] [Hr|Hr]; try discriminate; try reflexivity.
    all: injection Hr as Hr; rewrite Hr in *; discriminate. }
  exact (wp_run _ _ _ _ _ Hwp Hrun r eq_refl).
Qed.

(** X3. With a well-formed URL, [SendMessage] reports success exactly
    when the body of the answer decodes to a response with [ok] set; the
    HTTP status of the answer is not looked at. *)
Theorem SendMessage_ok_iff chatID text st :
  urlParses env (apiURL (bot st) "sendMessage") = true ->
  fst (SendMessage env chatID text st) = Returns (Ok tt)
  <-> exists resp body r,
        answer (remote env (sent st) (sendMessageTo (bot st) text chatID))
          = Some resp
        /\ Body resp = Some body
        /\ unmarshal body = Some r
        /\ telegramResponse.OK r = true.
Proof.
  intros Hurl.
  change (wp (SendMessage env chatID text) st (fun o _ =>
            o = Returns (Ok tt)
            <-> exists resp body r,
                  answer (remote env (sent st)
                            (sendMessageTo (bot st) text chatID)) = Some resp
                  /\ Body resp = Some body
                  /\ unmarshal body = Some r
                  /\ telegramResponse.OK r = true)).
  unfold SendMessage, Post, NewRequest, ReadAll.
  apply wp_bind, wp_gets. lazy beta zeta. rewrite Hurl.
  fold (sendMessageTo (bot st) text chatID).
  repeat wp_go.
  all: split;
    [ intros Ho; try discriminate Ho
    | intros (resp & body & r' & Ha & Hb & Hu & Hok) ].
  all: try reflexivity.
  all: try (simplify_eq; destruct (telegramResponse.OK _); discriminate).
  all: try (simplify_eq; fail).
  eexists _, _, _. repeat split; try eassumption.
  now apply negb_false_iff.
Qed.

(** ** The Deye client *)

(** X4. A call of [Authenticate] that returns an error leaves the client
    as it was: the token held and its expiry are not touched. *)
Theorem Authenticate_error_keeps_client st e st' :
  Authenticate env st = (Returns (Err e), st') ->
  deye st' = deye st.
Proof.
  intros Hrun.
  assert (Hwp : wp (Authenticate env) st (fun o st' => forall e,
            o = Returns (Err e) -> deye st' = deye st)).
  { unfold Authenticate, NewRequest, ReadAll.
    repeat wp_go; intros e' He; try discriminate He; reflexivity. }
  exact (wp_run _ _ _ _ _ Hwp Hrun e eq_refl).
Qed.

Lemma getToken_valid st :
  accessToken (deye st) <> "" ->
  now st <= expiresAt (deye st) ->
  getToken env st = (Returns (Ok (accessToken (deye st))), st).
Proof.
  intros Hne Hle. unfold getToken, timeNow. unfold bind, gets, After.
  lazy beta iota zeta.
  replace (String.eqb (accessToken (deye st)) "") with false
    by (symmetry; now apply String.eqb_neq).
  replace (expiresAt (deye st) <? now st) with false
    by (symmetry; apply Z.ltb_ge; lia).
  reflexivity.
Qed.

Lemma Authenticate_Ok st st1 :
  Authenticate env st = (Returns (Ok tt), st1) ->
  urlParses env (tokenURL (deye st)) = true
  /\ sameConfig (deye st) (deye st1)
  /\ Bearer (accessToken (deye st1)) = true
  /\ expiresAt (deye st1) = now st1 + 59 * 24 * Hour
  /\ st1 = with_deye (deye st1) (afterDo env (authRequest env (deye st)) st).
Proof.
  intros Hrun.
  assert (Hwp : wp (Authenticate env) st (fun o st1 =>
            o = Returns (Ok tt) ->
            urlParses env (tokenURL (deye st)) = true
            /\ sameConfig (deye st) (deye st1)
            /\ Bearer (accessToken (deye st1)) = true
            /\ expiresAt (deye st1) = now st1 + 59 * 24 * Hour
            /\ st1 = with_deye (deye st1)
                       (afterDo env (authRequest env (deye st)) st))).
  { unfold Authenticate, NewRequest, ReadAll.
    apply wp_bind, wp_gets. lazy beta zeta.
    fold (tokenURL (deye st)).
    destruct (urlParses env (tokenURL (deye st))) eqn:Hurl;
      [|apply wp_ret; discriminate].
    lazy beta iota zeta. fold (authRequest env (deye st)).
    repeat wp_go; intros Ho; try discriminate Ho.
    split; [reflexivity|]. split; [now repeat split|].
    split; [exact (Bearer_ensured _)|]. split; reflexivity. }
  exact (wp_run _ _ _ _ _ Hwp Hrun eq_refl).
Qed.

Lemma Authenticate_sends st :
  urlParses env (tokenURL (deye st)) = true ->
  sent (snd (Authenticate env st))
  = (sent st ++ [authRequest env (deye st)])%list.
Proof.
  intros Hurl.
  change (wp (Authenticate env) st (fun _ st' =>
            sent st' = (sent st ++ [authRequest env (deye st)])%list)).
  unfold Authenticate, NewRequest, ReadAll.
  apply wp_bind, wp_gets. lazy beta zeta.
  fold (tokenURL (deye st)). rewrite Hurl.
  lazy beta iota zeta. fold (authRequest env (deye st)).
  repeat wp_go; reflexivity.
Qed.

Lemma Bearer_nonempty tok : Bearer tok = true -> tok <> "".
Proof. intros H ->. discriminate H. Qed.

(** X5. After a call of [Authenticate] that succeeds the token is valid
    for 59 days: until then [getToken] returns it and does nothing else;
    past that, [getToken] sends a token request again. *)
Theorem Authenticate_valid_59_days st st1 :
  Authenticate env st = (Returns (Ok tt), st1) ->
  expiresAt (deye st1) = now st1 + 59 * 24 * Hour
  /\ (forall st2, deye st2 = deye st1 ->
      now st2 <= now st1 + 59 * 24 * Hour ->
      getToken env st2 = (Returns (Ok (accessToken (deye st1))), st2))
  /\ (forall st2, deye st2 = deye st1 ->
      now st1 + 59 * 24 * Hour < now st2 ->
      sent (snd (getToken env st2))
      = (sent st2 ++ [authRequest env (deye st1)])%list).
Proof.
  intros Hrun.
  destruct (Authenticate_Ok _ _ Hrun) as (Hurl & Hc & Hb & He & _).
  split; [exact He|]. split.
  - intros st2 Hd Hle. rewrite <- Hd. apply getToken_valid.
    + rewrite Hd. now apply Bearer_nonempty.
    + rewrite Hd, He. exact Hle.
  - intros st2 Hd Hlt.
    assert (Hurl2 : urlParses env (tokenURL (deye st2)) = true).
    { rewrite Hd. destruct Hc as (Hbase & Happ & _).
      unfold tokenURL in *. now rewrite Hbase, Happ. }
    rewrite <- Hd. rewrite <- (Authenticate_sends st2 Hurl2).
    unfold getToken, timeNow. unfold bind at 1 2. unfold gets, After.
    lazy beta iota zeta.
    replace (expiresAt (deye st2) <? now st2) with true
      by (symmetry; apply Z.ltb_lt; rewrite Hd, He; exact Hlt).
    rewrite orb_true_r. unfold bind.
    destruct (Authenticate env st2) as [[[[]|e]| |] st3]; reflexivity.
Qed.

Lemma slice_Returns s lo hi st :
  0 <= lo -> lo <= hi -> hi <= len s ->
  slice s lo hi st
  = (Returns (substring (Z.to_nat lo) (Z.to_nat (hi - lo)) s), st).
Proof.
  intros H1 H2 H3. unfold slice, len in *.
  now rewrite (proj2 (Z.leb_le _ _) H1), (proj2 (Z.leb_le _ _) H2),
    (proj2 (Z.leb_le _ _) H3).
Qed.

(** X6. With a valid token in hand, a telemetry call whose answer is not
    a 401 sends one request, carrying the token, and its result is the
    decoded body of the answer, or a decoding error: no other status code
    is told from a success. *)
Theorem doRequest_answer {Req Resp} `{!Marshal Req} `{!Unmarshal Resp}
    fuel path (reqBody : Req) st resp body :
  accessToken (deye st) <> "" ->
  now st <= expiresAt (deye st) ->
  15 <= len (accessToken (deye st)) ->
  urlParses env (baseURL (deye st) ++ path)%string = true ->
  answer (remote env (sent st)
            (telemetryRequest (deye st) path reqBody (accessToken (deye st))))
    = Some resp ->
  Body resp = Some body ->
  StatusCode resp <> 401 ->
  doRequest (Resp:=Resp) env (S fuel) path reqBody st
  = (Returns match unmarshal body with
             | Some result => Ok result
             | None => Err (Wrapf "unmarshal response" ErrJSON)
             end,
     afterDo env
       (telemetryRequest (deye st) path reqBody (accessToken (deye st))) st).
Proof.
  intros Hne Hle Hlen Hurl Hans Hbody Hcode.
  cbn [doRequest].
  rewrite (bind_Returns _ _ _ _ _ (getToken_valid st Hne Hle)).
  lazy beta iota zeta.
  rewrite (bind_Returns (gets deye) _ st (deye st) st eq_refl).
  rewrite (bind_Returns _ _ _ _ _
             (slice_Returns (accessToken (deye st)) 0 15 st
                ltac:(lia) ltac:(lia) Hlen)).
  rewrite (bind_Returns _ _ _ _ _
             (slice_Returns (accessToken (deye st))
                (len (accessToken (deye st)) - 6) (len (accessToken (deye st)))
                st ltac:(lia) ltac:(lia) ltac:(lia))).
  unfold NewRequest. rewrite Hurl. lazy beta iota zeta.
  fold (telemetryRequest (deye st) path reqBody (accessToken (deye st))).
  unfold bind, Do. rewrite Hans. unfold ReadAll. rewrite Hbody.
  replace (StatusCode resp =? 401) with false
    by (symmetry; now apply Z.eqb_neq).
  now destruct (unmarshal body).
Qed.

Lemma hex_byte c :
  let hi := hexDigit (N.div (N_of_ascii c) 16) in
  let lo := hexDigit (N.modulo (N_of_ascii c) 16) in
  ascii_of_N (16 * unhexDigit hi + unhexDigit lo) = c
  /\ isHexDigit hi = true /\ isHexDigit lo = true.
Proof.
  destruct c as [[] [] [] [] [] [] [] []]; vm_compute; repeat split.
Qed.

(** X7. [sha256Hex] writes each byte of the digest as two lower-case
    hexadecimal digits, high digit first: the text is twice as long as the
    digest, holds nothing but such digits, and reads back as the digest. *)
Theorem sha256Hex_encoding s :
  String.length (sha256Hex env s) = (2 * String.length (Sum256 env s))%nat
  /\ forallb isHexDigit (list_ascii_of_string (sha256Hex env s)) = true
  /\ unhex (sha256Hex env s) = Sum256 env s.
Proof.
  unfold sha256Hex. induction (Sum256 env s) as [|c d IH]; [now repeat split|].
  destruct IH as (Hlen & Hdigits & Hback).
  destruct (hex_byte c) as (Hc & Hhi & Hlo).
  cbn [hex String.length list_ascii_of_string forallb unhex].
  rewrite Hlen, Hdigits, Hback, Hhi, Hlo, Hc.
  repeat split. lia.
Qed.

(** X8. When the start of [main] gets past the discovery block, a station
    identifier and a device serial number that were configured are kept,
    the ones that were not are those of the first device listed, and
    nothing else of the configuration changes; with both configured the
    device list is not asked for. *)
Theorem discover_fills_only_unset fuel cfg st cfg' st' :
  discover env fuel cfg st = (Returns (Ok cfg'), st') ->
  (if (DeyeStationID cfg =? 0) || String.eqb (DeyeDeviceSN cfg) ""
   then exists devices first rest,
          GetDeviceList env fuel (snd (Authenticate env st))
            = (Returns (Ok devices), st')
          /\ DeviceListResponse.Devices devices = first :: rest
          /\ DeyeStationID cfg'
             = (if DeyeStationID cfg =? 0
                then DeviceListItem.StationID first else DeyeStationID cfg)
          /\ DeyeDeviceSN cfg'
             = (if String.eqb (DeyeDeviceSN cfg) ""
                then DeviceListItem.DeviceSn first else DeyeDeviceSN cfg)
   else cfg' = cfg /\ st' = snd (Authenticate env st))
  /\ DeyeBaseURL cfg' = DeyeBaseURL cfg
  /\ DeyeAppID cfg' = DeyeAppID cfg
  /\ DeyeAppSecret cfg' = DeyeAppSecret cfg
  /\ DeyeEmail cfg' = DeyeEmail cfg
  /\ DeyePassword cfg' = DeyePassword cfg
  /\ TelegramBotToken cfg' = TelegramBotToken cfg
  /\ TelegramUserIDs cfg' = TelegramUserIDs cfg
  /\ PollIntervalSec cfg' = PollIntervalSec cfg.
Proof.
  unfold discover. unfold bind at 1.
  destruct (Authenticate env st) as [[[[]|e]| |] st1]; try discriminate.
  cbn [snd].
  destruct ((DeyeStationID cfg =? 0) || String.eqb (DeyeDeviceSN cfg) "").
  - unfold bind.
    destruct (GetDeviceList env fuel st1) as [[[devices|e]| |] st2];
      try discriminate.
    destruct (DeviceListResponse.Devices devices) as [|first rest] eqn:Hd;
      try discriminate.
    intros [= <- <-]. split.
    + exists devices, first, rest. split; [reflexivity|]. split; [exact Hd|].
      destruct (DeyeStationID cfg =? 0) eqn:E1;
        destruct (String.eqb (DeyeDeviceSN cfg) "") eqn:E2;
        cbn; rewrite ?E2; now split.
    + destruct (DeyeStationID cfg =? 0) eqn:E1;
        destruct (String.eqb (DeyeDeviceSN cfg) "") eqn:E2;
        cbn; rewrite ?E2; now repeat split.
  - intros [= <- <-]. now repeat split.
Qed.

(** X9. With a well-formed token URL, [Authenticate] panics exactly when
    the token endpoint grants a token that, with its prefix, is shorter
    than 15 bytes: the log line that follows the assignment slices the
    first 15 bytes of it. *)
Theorem Authenticate_panics_iff_short_token st :
  urlParses env (tokenURL (deye st)) = true ->
  (exists reason, fst (Authenticate env st) = Panics reason)
  <-> exists resp body r,
        answer (remote env (sent st) (authRequest env (deye st))) = Some resp
        /\ Body resp = Some body
        /\ unmarshal body = Some r
        /\ tokenResponse.Success r = true
        /\ len (if negb (String.prefix "Bearer " (tokenResponse.AccessToken r))
                then ("Bearer " ++ tokenResponse.AccessToken r)%string
                else tokenResponse.AccessToken r) < 15.
Proof.
  intros Hurl.
  change (wp (Authenticate env) st (fun o _ =>
            (exists reason, o = Panics reason)
            <-> exists resp body r,
                  answer (remote env (sent st) (authRequest env (deye st)))
                    = Some resp
                  /\ Body resp = Some body
                  /\ unmarshal body = Some r
                  /\ tokenResponse.Success r = true
                  /\ len (if negb (String.prefix "Bearer "
                                     (tokenResponse.AccessToken r))
                          then ("Bearer " ++ tokenResponse.AccessToken r)%string
                          else tokenResponse.AccessToken r) < 15)).
  unfold Authenticate, NewRequest, ReadAll.
  apply wp_bind, wp_gets. lazy beta zeta.
  fold (tokenURL (deye st)). rewrite Hurl.
  lazy beta iota zeta. fold (authRequest env (deye st)).
  repeat lazymatch goal with
         | |- wp (slice _ _ _) _ _ => fail
         | _ => wp_go
         end.
  all: try (split;
              [ intros (reason & Hp); discriminate Hp
              | intros (resp & body & r' & Ha & Hb & Hu & Hs & _);
                simplify_eq; try (rewrite Hs in *; discriminate) ]; fail).
  cbn [accessToken deye with_deye set_expiresAt set_accessToken].
  set (token := if negb (String.prefix "Bearer " (tokenResponse.AccessToken t))
                then ("Bearer " ++ tokenResponse.AccessToken t)%string
                else tokenResponse.AccessToken t).
  apply negb_false_iff in Heqb.
  destruct (Z.ltb_spec (len token) 15) as [Hshort|Hlong].
  - unfold wp, slice. fold (len token).
    replace (15 <=? len token) with false by (symmetry; apply Z.leb_gt; lia).
    rewrite andb_false_r. cbn [fst snd panic]. split; [intros _|eauto].
    now exists r, s, t.
  - apply wp_slice_ok; [lia | lia | exact Hlong |].
    apply wp_bind, wp_slice_ok; [lia | lia | lia |]. apply wp_ret.
    split; [intros (reason & Hp); discriminate Hp|].
    intros (resp & body & r' & Ha & Hb & Hu & _ & Hlt). simplify_eq.
    fold token in Hlt. lia.
Qed.

(** ** The outage-schedule client *)

(** X10. What a fetch found, an outage or none, is what [GetShutdown]
    returns for the next ten minutes, without a fetch and without a change
    of state. *)
Theorem GetShutdown_serves_fetched st v st1 :
  GetShutdown env st = (Returns (Ok v), st1) ->
  fetches st1 = S (fetches st) ->
  cachedValue (dtek st1) = v
  /\ cachedAt (dtek st1) = now st1
  /\ forall st2, dtek st2 = dtek st1 ->
       now st2 < now st1 + 10 * Minute ->
       GetShutdown env st2 = (Returns (Ok v), st2).
Proof.
  intros Hget Hfetched.
  assert (Hcache : cacheHit (dtek st1) = true
                   /\ cachedValue (dtek st1) = v
                   /\ cachedAt (dtek st1) = now st1).
  { destruct (cacheValid st) eqn:Hv.
    - rewrite (GetShutdown_hit _ Hv) in Hget. injection Hget as _ <-. lia.
    - rewrite (GetShutdown_miss _ Hv) in Hget.
      destruct (FetchShutdowns env st) as [[[s0|e]| |] st'];
        try discriminate Hget.
      injection Hget as -> <-. now repeat split. }
  destruct Hcache as (Hhit & Hval & Hat).
  split; [exact Hval|]. split; [exact Hat|].
  intros st2 Hd Hlt. rewrite <- Hval, <- Hd. apply GetShutdown_hit.
  unfold cacheValid. rewrite Hd, Hhit, Hat. cbn [andb].
  apply Z.ltb_lt. unfold dtekCacheTTL. lia.
Qed.

(** X11. After [ClearCache] the next [GetShutdown] makes a fetch, however
    fresh the cache was, and returns what that fetch returns. *)
Theorem ClearCache_forces_fetch st :
  let st1 := snd (ClearCache st) in
  fetches (snd (GetShutdown env st1)) = S (fetches st)
  /\ fst (GetShutdown env st1) = fst (FetchShutdowns env st1).
Proof.
  cbn zeta. set (st1 := snd (ClearCache st)).
  assert (Hv : cacheValid st1 = false) by reflexivity.
  rewrite (GetShutdown_miss _ Hv).
  destruct (FetchShutdowns_total st1) as (r & st' & -> & F & _).
  change (fetches st1) with (fetches st) in F.
  now destruct r.
Qed.

(** X12. When the browser stage fails at any step (no browser, no launch,
    no connection, no page, no cookies, no CSRF element or content), the
    fetch returns an error and no HTTP request has been sent. *)
Theorem FetchShutdowns_browser_failure st :
  ~ browserReady (chromium env (fetches st)) ->
  exists e st',
    FetchShutdowns env st = (Returns (Err e), st')
    /\ sent st' = sent st.
Proof.
  intros Hnot.
  assert (Hwp : wp (FetchShutdowns env) st (fun o st' =>
            exists e, o = Returns (Err e) /\ sent st' = sent st)).
  { unfold FetchShutdowns.
    apply wp_bind, wp_gets, wp_bind, wp_modify. lazy beta zeta.
    set (s := chromium env (fetches st)) in *.
    destruct (String.eqb (lookupBrowser s) "") eqn:E1;
      [apply wp_ret; eauto|].
    destruct (launchURL s) eqn:E2; [|apply wp_ret; eauto].
    destruct (connects s) eqn:E3; cbn [negb]; [|apply wp_ret; eauto].
    destruct (navigates s) eqn:E4; cbn [negb]; [|apply wp_ret; eauto].
    unfold sleep. apply wp_bind, wp_modify, wp_bind, wp_modify.
    destruct (cookies s) eqn:E5; [|apply wp_ret; eauto].
    destruct (csrfElement s) eqn:E6; cbn [negb]; [|apply wp_ret; eauto].
    destruct (csrfContent s) as [[csrf|]|e] eqn:E7;
      [|apply wp_ret; eauto|apply wp_ret; eauto].
    exfalso. apply Hnot. unfold browserReady.
    apply String.eqb_neq in E1. repeat split; try congruence; eauto. }
  destruct Hwp as (e & He & Hs).
  exists e, (snd (FetchShutdowns env st)). split; [|exact Hs].
  rewrite <- He. now destruct (FetchShutdowns env st).
Qed.

(** X13. A fetch that succeeds has sent one request, to the schedule
    endpoint, with the CSRF token and the cookies of the browser session,
    and its result is the entry of the answer's map under the house
    number, absent when there is none. *)
Theorem FetchShutdowns_Ok st r st' :
  FetchShutdowns env st = (Returns (Ok r), st') ->
  exists jar csrf req resp body d,
    cookies (chromium env (fetches st)) = Some jar
    /\ csrfContent (chromium env (fetches st)) = Ok (Some csrf)
    /\ sent st' = (sent st ++ [req])%list
    /\ URL req = "https://www.dtek-dnem.com.ua/ua/ajax"
    /\ Header_Get req "X-CSRF-Token" = csrf
    /\ Header_Get req "Cookie"
       = Join (map (fun c => (fst c ++ "=" ++ snd c)%string) jar) "; "
    /\ answer (remote env (sent st) req) = Some resp
    /\ Body resp = Some body
    /\ unmarshal body = Some d
    /\ DtekResponse.Result d = true
    /\ r = DtekResponse.Data d !! house (dtek st).
Proof.
  intros Hrun.
  assert (Hwp : wp (FetchShutdowns env) st (fun o st' => forall r,
            o = Returns (Ok r) ->
            exists jar csrf req resp body d,
              cookies (chromium env (fetches st)) = Some jar
              /\ csrfContent (chromium env (fetches st)) = Ok (Some csrf)
              /\ sent st' = (sent st ++ [req])%list
              /\ URL req = "https://www.dtek-dnem.com.ua/ua/ajax"
              /\ Header_Get req "X-CSRF-Token" = csrf
              /\ Header_Get req "Cookie"
                 = Join (map (fun c => (fst c ++ "=" ++ snd c)%string) jar) "; "
              /\ answer (remote env (sent st) req) = Some resp
              /\ Body resp = Some body
              /\ unmarshal body = Some d
              /\ DtekResponse.Result d = true
              /\ r = DtekResponse.Data d !! house (dtek st))).
  { unfold FetchShutdowns, NewRequest, ReadAll, sleep.
    repeat wp_go; intros r' Hr; try discriminate Hr.
    all: injection Hr as <-.
    all: eexists _, _, _, _, _, _.
    all: split; [reflexivity|]; split; [reflexivity|].
    all: split; [reflexivity|]; split; [reflexivity|].
    all: split; [reflexivity|]; split; [reflexivity|].
    all: split; [eassumption|]; split; [eassumption|].
    all: split; [eassumption|]; split; [now apply negb_false_iff|].
    all: symmetry; eassumption. }
  exact (wp_run _ _ _ _ _ Hwp Hrun r eq_refl).
Qed.

(** ** The command listener *)

(** X14. An update without a message, from a chat that is not a
    subscriber, or with a text that is neither command is dropped: nothing
    is sent and nothing changes. *)
Theorem handleUpdate_drops fuel cfg update st :
  match Update.Message_ update with
  | None => True
  | Some message =>
    ~ In (Chat.ID (Message.Chat_ message)) (userIDs (bot st))
    \/ (Message.Text_ message <> "/status"
        /\ Message.Text_ message <> "/start")
  end ->
  handleUpdate env fuel cfg update st = (Returns tt, st).
Proof.
  unfold handleUpdate. destruct (Update.Message_ update) as [message|];
    [|reflexivity].
  intros Hdrop.
  destruct (IsAllowedUser_allowed (Chat.ID (Message.Chat_ message)) st)
    as (b & Hb & Hiff).
  rewrite (bind_Returns _ _ _ _ _ Hb).
  destruct b; cbn [negb]; [|reflexivity].
  destruct Hdrop as [Hno|[H1 H2]]; [elim Hno; now apply Hiff|].
  apply String.eqb_neq in H1, H2. now rewrite H1, H2.
Qed.

(** *** Where the requests of a call go *)

Lemma adds_refl P st st' : sent st' = sent st -> adds P st st'.
Proof. intros E. exists []. split; [now rewrite E, app_nil_r | constructor]. Qed.

Lemma adds_one (P : request -> Prop) st req st' :
  P req -> sent st' = (sent st ++ [req])%list -> adds P st st'.
Proof. intros HP E. exists (req :: nil). split; [exact E | now constructor]. Qed.

Lemma adds_trans P st1 st2 st3 :
  adds P st1 st2 -> adds P st2 st3 -> adds P st1 st3.
Proof.
  intros (n1 & E1 & F1) (n2 & E2 & F2). exists (n1 ++ n2)%list. split.
  - now rewrite E2, E1, app_assoc.
  - now apply Forall_app.
Qed.

Lemma adds_impl (P Q : request -> Prop) st st' :
  (forall q, P q -> Q q) -> adds P st st' -> adds Q st st'.
Proof.
  intros H (new & E & F). exists new. split; [exact E|].
  eapply Forall_impl; eassumption.
Qed.

(** The Deye client sends under its base URL only, and keeps it. *)
Definition deyeOnly (c : DeyeClient) (st st' : State) : Prop :=
  adds (toDeye c) st st' /\ baseURL (deye st') = baseURL c.

Lemma deyeOnly_trans c st1 st2 st3 :
  deyeOnly c st1 st2 -> deyeOnly c st2 st3 -> deyeOnly c st1 st3.
Proof.
  intros (A1 & _) (A2 & B2). split; [eapply adds_trans; eassumption | exact B2].
Qed.

Lemma Authenticate_deyeOnly c st :
  baseURL (deye st) = baseURL c ->
  wp (Authenticate env) st (fun _ st' => deyeOnly c st st').
Proof.
  intros Hb. unfold Authenticate, NewRequest, ReadAll.
  repeat wp_go.
  all: split; [|exact Hb].
  all: first [ apply adds_refl; reflexivity
             | eapply adds_one; [|reflexivity];
               eexists; cbn [URL Header_Set]; rewrite Hb; reflexivity ].
Qed.

Lemma getToken_deyeOnly c st :
  baseURL (deye st) = baseURL c ->
  wp (getToken env) st (fun _ st' => deyeOnly c st st').
Proof.
  intros Hb. unfold getToken.
  apply wp_bind, wp_gets. lazy beta zeta. apply wp_bind, wp_gets.
  destruct (String.eqb (accessToken (deye st)) "" || _).
  - apply wp_bind.
    eapply wp_mono; [apply (Authenticate_deyeOnly c); exact Hb|].
    intros o st' Hs. destruct o as [[[]|e]| |]; exact Hs.
  - apply wp_ret. split; [now apply adds_refl | exact Hb].
Qed.

Lemma doRequest_deyeOnly {Req Resp} `{!Marshal Req} `{!Unmarshal Resp}
    c fuel path (reqBody : Req) : forall st,
  baseURL (deye st) = baseURL c ->
  wp (doRequest (Resp:=Resp) env fuel path reqBody) st
     (fun _ st' => deyeOnly c st st').
Proof.
  induction fuel as [|fuel IH]; intros st Hb; cbn [doRequest].
  - apply wp_diverge. split; [now apply adds_refl | exact Hb].
  - apply wp_bind.
    eapply wp_mono; [apply (getToken_deyeOnly c); exact Hb|].
    intros o st1 Hs1. pose proof (proj2 Hs1) as Hb1.
    destruct o as [[tok|e]| |]; try exact Hs1.
    lazy beta zeta. apply wp_bind, wp_gets.
    apply wp_bind, wp_slice; [intros _|intros _; exact Hs1].
    apply wp_bind, wp_slice; [intros _|intros _; exact Hs1].
    unfold NewRequest. destruct (urlParses env _); [|exact Hs1].
    lazy beta iota zeta. apply wp_bind, wp_Do.
    match goal with |- context [afterDo env ?r st1] =>
      set (req := r); set (st2 := afterDo env req st1) end.
    assert (Hs2 : deyeOnly c st st2).
    { apply (deyeOnly_trans _ _ st1); [exact Hs1|]. split; [|exact Hb1].
      eapply adds_one; [|reflexivity].
      exists path. cbn [URL Header_Set req]. now rewrite Hb1. }
    destruct (answer _) as [resp|]; [|exact Hs2].
    unfold ReadAll. destruct (Body resp) as [respBody|]; [|exact Hs2].
    destruct (StatusCode resp =? 401).
    + apply wp_bind.
      eapply wp_mono; [apply (Authenticate_deyeOnly c); exact (proj2 Hs2)|].
      intros o st3 Hs3.
      assert (Hs : deyeOnly c st st3) by (eapply deyeOnly_trans; eassumption).
      destruct o as [[[]|e]| |]; try exact Hs.
      eapply wp_mono; [apply IH; exact (proj2 Hs3)|].
      intros o st4 Hs4. eapply deyeOnly_trans; eassumption.
    + destruct (unmarshal respBody); exact Hs2.
Qed.

Lemma GetPowerStatus_deyeOnly fuel stationID deviceSN st :
  wp (GetPowerStatus env fuel stationID deviceSN) st
     (fun _ st' => deyeOnly (deye st) st st').
Proof.
  unfold GetPowerStatus, GetStationLatest, GetDeviceLatest.
  apply wp_bind, wp_bind.
  eapply wp_mono; [apply (doRequest_deyeOnly (deye st)); reflexivity|].
  intros o st1 Hs1. destruct o as [[station|e]| |]; try exact Hs1.
  destruct (negb _); [exact Hs1|].
  apply wp_ret. lazy beta iota. apply wp_bind, wp_bind.
  eapply wp_mono; [apply (doRequest_deyeOnly (deye st)); exact (proj2 Hs1)|].
  intros o st2 Hs2.
  assert (Hs : deyeOnly (deye st) st st2)
    by (eapply deyeOnly_trans; eassumption).
  destruct o as [[device|e]| |]; try exact Hs.
  destruct (negb _); exact Hs.
Qed.

(** A fetch of the schedule sends to the schedule endpoint only. *)
Lemma FetchShutdowns_toDtek st :
  wp (FetchShutdowns env) st (fun _ st' => adds toDtek st st').
Proof.
  unfold FetchShutdowns, NewRequest, ReadAll, sleep.
  repeat wp_go.
  all: first [ apply adds_refl; reflexivity
             | eapply adds_one; [|reflexivity]; reflexivity ].
Qed.

Lemma ShutdownLine_toDtek st :
  wp (ShutdownLine env) st (fun _ st' => adds toDtek st st').
Proof.
  unfold ShutdownLine, GetShutdown, Since, timeNow.
  apply wp_bind, wp_bind, wp_gets. lazy beta zeta.
  apply wp_bind, wp_bind, wp_gets, wp_ret.
  destruct (cacheHit (dtek st) && _).
  - apply wp_ret. destruct (cachedValue (dtek st)); apply wp_ret;
      now apply adds_refl.
  - apply wp_bind.
    eapply wp_mono; [apply FetchShutdowns_toDtek|].
    intros o st1 Hs1. destruct o as [[[shutdown|]|e]| |]; try exact Hs1.
    all: repeat wp_go; exact Hs1.
Qed.

Lemma toDtek_not_telegram b method q :
  toDtek q -> URL q <> apiURL b method.
Proof.
  unfold toDtek, apiURL. intros -> H. vm_compute in H. discriminate H.
Qed.

(** X15. [handleStatusCommand] answers the chat that asked, and no one
    else: once the telemetry fetch has returned, the call returns. The
    requests it added are, first, requests of the Deye client (under its
    base URL) and of the schedule client (to the schedule endpoint), and
    then, last, exactly one message, to that chat (the status, or the
    error text when the fetch failed). So, unless the Deye base URL is a
    prefix of the bot's message URL, that message is the only request of
    the call that goes to the bot's message URL. Nothing was broadcast. *)
Theorem handleStatusCommand_answers_asker fuel cfg chatID st r st1 :
  urlParses env (apiURL (bot st) "sendMessage") = true ->
  GetPowerStatus env fuel (DeyeStationID cfg) (DeyeDeviceSN cfg) st
    = (Returns r, st1) ->
  exists text others st',
    handleStatusCommand env fuel cfg chatID st = (Returns tt, st')
    /\ sent st'
       = (sent st ++ others ++ [sendMessageTo (bot st) text chatID])%list
    /\ Forall (fun q => toDeye (deye st) q \/ toDtek q) others
    /\ ((forall suffix, (baseURL (deye st) ++ suffix)%string
                        <> apiURL (bot st) "sendMessage") ->
        Forall (fun q => URL q <> apiURL (bot st) "sendMessage") others)
    /\ last (sent st') = Some (sendMessageTo (bot st) text chatID)
    /\ broadcasts st' = broadcasts st
    /\ match r with
       | Err _ =>
         text = Literal "Помилка при отриманні статусу. Спробуйте пізніше."
       | Ok status => exists line, text = formatStatusMessage status line
       end.
Proof.
  intros Hurl Hp.
  assert (Hmain : exists text others st',
    handleStatusCommand env fuel cfg chatID st = (Returns tt, st')
    /\ sent st'
       = (sent st ++ others ++ [sendMessageTo (bot st) text chatID])%list
    /\ Forall (fun q => toDeye (deye st) q \/ toDtek q) others
    /\ broadcasts st' = broadcasts st
    /\ match r with
       | Err _ =>
         text = Literal "Помилка при отриманні статусу. Спробуйте пізніше."
       | Ok status => exists line, text = formatStatusMessage status line
       end).
  { pose proof (keeps_GetPowerStatus broadcasts fuel (DeyeStationID cfg)
                  (DeyeDeviceSN cfg) offline_broadcasts
                  (fun _ _ => eq_refl) st) as Kb.
    pose proof (keeps_GetPowerStatus bot fuel (DeyeStationID cfg)
                  (DeyeDeviceSN cfg) offline_bot
                  (fun _ _ => eq_refl) st) as Kt.
    rewrite Hp in Kb, Kt. cbn [snd] in Kb, Kt.
    destruct (wp_run _ _ _ _ _
                (GetPowerStatus_deyeOnly fuel (DeyeStationID cfg)
                   (DeyeDeviceSN cfg) st) Hp)
      as ((new1 & E1 & F1) & _).
    unfold handleStatusCommand. rewrite (bind_Returns _ _ _ _ _ Hp).
    destruct r as [status|e].
    - destruct (total_ShutdownLine (fun s => (broadcasts s, bot s))
                  ltac:(now split) (fun _ _ => eq_refl) (fun _ _ => eq_refl) st1)
        as (line & st2 & E2 & F2).
      injection F2 as Fb Ft.
      destruct (wp_run _ _ _ _ _ (ShutdownLine_toDtek st1) E2)
        as (new2 & E2' & F2').
      rewrite (bind_Returns _ _ _ _ _ E2).
      destruct (SendMessage_sends chatID (formatStatusMessage status line) st2)
        as (r3 & E3); [now rewrite Ft, Kt|].
      rewrite (bind_Returns _ _ _ _ _ E3).
      eexists _, (new1 ++ new2)%list, _. split; [reflexivity|].
      split; [|split; [|split]].
      + rewrite afterDo_sent, E2', E1, Ft, Kt. now rewrite <- !app_assoc.
      + apply Forall_app. split; eapply Forall_impl; eauto.
      + cbn. now rewrite Fb, Kb.
      + now exists line.
    - destruct (SendMessage_sends chatID
                  (Literal "Помилка при отриманні статусу. Спробуйте пізніше.")
                  st1) as (r3 & E3); [now rewrite Kt|].
      rewrite (bind_Returns _ _ _ _ _ E3).
      eexists _, new1, _. split; [reflexivity|].
      split; [|split; [|split]].
      + rewrite afterDo_sent, E1, Kt. now rewrite <- !app_assoc.
      + eapply Forall_impl; eauto.
      + cbn. exact Kb.
      + reflexivity. }
  destruct Hmain as (text & others & st' & Hrun & Hsent & Hothers & Hb & Htext).
  exists text, others, st'.
  split; [exact Hrun|]. split; [exact Hsent|]. split; [exact Hothers|].
  split; [|split; [|split; [exact Hb | exact Htext]]].
  - intros Hfree. eapply Forall_impl; [exact Hothers|].
    intros q [(suffix & Hq)|Hq].
    + rewrite Hq. apply Hfree.
    + now apply toDtek_not_telegram.
  - now rewrite Hsent, app_assoc, last_snoc.
Qed.

Lemma keeps_SendMessage {X} (f : State -> X) chatID text :
  offline f -> keeps f (SendMessage env chatID text).
Proof. intros Hf. now apply total_keeps, total_SendMessage. Qed.

Lemma keeps_handleUpdates {X} (f : State -> X) fuel cfg updates :
  offline f -> (forall c st, f (with_deye c st) = f st) ->
  (forall n st, f (with_fetches n st) = f st) ->
  (forall d st, f (with_dtek d st) = f st) ->
  keeps f (handleUpdates env fuel cfg updates).
Proof.
  intros Hf Hd Hn Hk.
  induction updates as [|update rest IH]; cbn [handleUpdates].
  - apply keeps_ret.
  - apply keeps_bind; [|intros _; exact IH].
    unfold handleUpdate, handleStatusCommand, IsAllowedUser.
    repeat first [ apply keeps_GetPowerStatus; assumption
                 | apply keeps_SendMessage; assumption
                 | apply total_keeps, total_ShutdownLine; assumption
                 | frame_step ].
Qed.

Lemma keeps_GetUpdates {X} (f : State -> X) :
  offline f -> (forall b st, f (with_bot b st) = f st) ->
  keeps f (GetUpdates env).
Proof.
  intros Hf Hb. unfold GetUpdates, Post.
  repeat first [ apply keeps_Do; assumption
               | apply keeps_modify; intros ?; apply Hb
               | frame_step ].
Qed.

(** X16. The command listener never broadcasts: however many rounds it
    runs and whatever it receives, the list of broadcasts is as it was. *)
Theorem runTelegramPoller_never_broadcasts fuel cfg rounds st :
  broadcasts (snd (runTelegramPoller env fuel cfg rounds st)) = broadcasts st.
Proof.
  revert st. change (keeps broadcasts (runTelegramPoller env fuel cfg rounds)).
  induction rounds as [|rounds IH]; cbn [runTelegramPoller].
  - apply keeps_ret.
  - apply keeps_bind; [now apply keeps_GetUpdates|].
    intros [updates|e].
    + apply keeps_bind; [|intros _; exact IH].
      now apply keeps_handleUpdates.
    + apply keeps_bind; [|intros _; exact IH].
      apply keeps_sleep, offline_broadcasts.
Qed.

Lemma keeps_Broadcast {X} (f : State -> X) text :
  offline f -> (forall l st, f (with_broadcasts l st) = f st) ->
  keeps f (Broadcast env text).
Proof.
  intros Hf Hb. unfold Broadcast.
  apply keeps_bind; [apply keeps_modify; intros ?; apply Hb|intros _].
  apply keeps_bind; [apply keeps_gets|intros b].
  now apply total_keeps, total_sendEach.
Qed.

Lemma keeps_checkAndNotify {X} (f : State -> X) fuel cfg flag :
  offline f -> (forall c st, f (with_deye c st) = f st) ->
  (forall n st, f (with_fetches n st) = f st) ->
  (forall d st, f (with_dtek d st) = f st) ->
  (forall l st, f (with_broadcasts l st) = f st) ->
  keeps f (checkAndNotify env fuel cfg flag).
Proof.
  intros Hf Hd Hn Hk Hb. unfold checkAndNotify.
  repeat first [ apply keeps_GetPowerStatus; assumption
               | apply keeps_Broadcast; assumption
               | apply total_keeps, total_ShutdownLine; assumption
               | frame_step ].
Qed.

(** X17. The monitor never touches the bot: however long it runs, the
    cursor of the command listener, the token and the subscriber list
    are as they were. *)
Theorem runDeyePoller_keeps_bot fuel cfg ticks st :
  bot (snd (runDeyePoller env fuel cfg ticks st)) = bot st.
Proof.
  revert st. change (keeps bot (runDeyePoller env fuel cfg ticks)).
  assert (Hc : forall flag, keeps bot (checkAndNotify env fuel cfg flag))
    by (intros flag; now apply keeps_checkAndNotify).
  unfold runDeyePoller.
  destruct (int64 (PollIntervalSec cfg * Second) <=? 0); [apply keeps_panic|].
  apply keeps_bind; [apply Hc|intros flag].
  revert flag. induction ticks as [|d ticks IH]; intros flag; cbn [pollLoop].
  - apply keeps_ret.
  - apply keeps_bind; [apply keeps_sleep, offline_bot|intros _].
    apply keeps_bind; [apply Hc|intros flag']. apply IH.
Qed.

(** ** The messages of the monitor *)

Lemma checkAndNotify_message fuel cfg flag st0 l st1 :
  checkAndNotify env fuel cfg flag st0 = (Returns l, st1) ->
  exists msgs,
    broadcasts st1 = (broadcasts st0 ++ msgs)%list
    /\ (msgs = [] \/ exists m, msgs = [m])
    /\ edgeTriggered flag msgs
    /\ l = lastFlag flag msgs.
Proof.
  intros E.
  destruct (GetPowerStatus env fuel (DeyeStationID cfg) (DeyeDeviceSN cfg) st0)
    as [[[status|e]| |] stp] eqn:Hp.
  - destruct flag as [prev|].
    + destruct (checkAndNotify_sampled fuel cfg prev st0 status stp Hp)
        as (st2 & E2 & F).
      rewrite E2 in E. injection E as <- <-.
      destruct (Bool.eqb (PowerStatus.HasGrid status) prev) eqn:Heq.
      * exists []. rewrite app_nil_r. split; [exact F|].
        split; [now left|]. split; [exact I|].
        apply Bool.eqb_prop in Heq. now rewrite Heq.
      * destruct F as (line & F). eexists [_]. split; [exact F|].
        split; [right; eauto|]. split.
        -- exists status, line. split; [reflexivity|]. split; [|exact I].
           intros [= Hx]. rewrite Hx, Bool.eqb_reflx in Heq. discriminate.
        -- unfold lastFlag. cbn.
           destruct (PowerStatus.HasGrid status) eqn:Hg; cbn; now rewrite Hg.
    + destruct (checkAndNotify_initial fuel cfg st0 status stp Hp)
        as (line & st2 & E2 & F).
      rewrite E2 in E. injection E as <- <-.
      eexists [_]. split; [exact F|]. split; [right; eauto|]. split.
      * exists status, line. split; [reflexivity|]. split; [discriminate|exact I].
      * reflexivity.
  - destruct (checkAndNotify_failed fuel cfg flag st0 e stp Hp) as (E2 & F).
    rewrite E2 in E. injection E as <- <-.
    exists []. rewrite app_nil_r. split; [exact F|].
    split; [now left|]. split; [exact I | reflexivity].
  - unfold checkAndNotify, bind in E. rewrite Hp in E. discriminate E.
  - unfold checkAndNotify, bind in E. rewrite Hp in E. discriminate E.
Qed.

Lemma edgeTriggered_app flag msgs rest :
  (msgs = [] \/ exists m, msgs = [m]) ->
  edgeTriggered flag msgs ->
  edgeTriggered (lastFlag flag msgs) rest ->
  edgeTriggered flag (msgs ++ rest)
  /\ lastFlag flag (msgs ++ rest) = lastFlag (lastFlag flag msgs) rest.
Proof.
  intros [->|(m & ->)] Hm Hrest; [now split|].
  destruct Hm as (status & line & Hm & Hne & _).
  assert (Hflag : lastFlag flag [m] = Some (PowerStatus.HasGrid status)).
  { unfold lastFlag. cbn. rewrite Hm.
    destruct flag; [|reflexivity].
    destruct (PowerStatus.HasGrid status) eqn:Hg; cbn; now rewrite Hg. }
  rewrite Hflag in *. split.
  - exists status, line. split; [exact Hm|]. split; [exact Hne|exact Hrest].
  - unfold lastFlag at 1 2. cbn [app]. rewrite last_cons.
    destruct (last rest); [reflexivity|].
    rewrite Hm. destruct flag; [|reflexivity].
    destruct (PowerStatus.HasGrid status) eqn:Hg; cbn; now rewrite Hg.
Qed.

Lemma pollLoop_messages fuel cfg ticks : forall flag st l st',
  pollLoop env fuel cfg flag ticks st = (Returns l, st') ->
  exists msgs,
    broadcasts st' = (broadcasts st ++ msgs)%list
    /\ edgeTriggered flag msgs
    /\ l = lastFlag flag msgs.
Proof.
  induction ticks as [|d ticks IH]; intros flag st l st'; cbn [pollLoop].
  - intros [= <- <-]. exists []. rewrite app_nil_r. now repeat split.
  - rewrite (bind_Returns (sleep d) _ st tt (snd (sleep d st)) eq_refl).
    set (st0 := snd (sleep d st)). unfold bind at 1.
    destruct (checkAndNotify env fuel cfg flag st0) as [[l1| |] st1] eqn:E;
      try discriminate.
    intros Hloop.
    destruct (checkAndNotify_message _ _ _ _ _ _ E) as (m1 & F1 & Hone & H1 & ->).
    destruct (IH _ _ _ _ Hloop) as (m2 & F2 & H2 & ->).
    destruct (edgeTriggered_app flag m1 m2 Hone H1 H2) as (Happ & Hlast).
    exists (m1 ++ m2)%list. split; [|split; [exact Happ | now rewrite Hlast]].
    rewrite F2, F1. now rewrite app_assoc.
Qed.

(** X18. When the monitor returns, what it broadcast in all is one
    initial status followed by alerts, each alert of the kind of its flag
    (power on for a present grid, power off for an absent one) and with a
    flag other than that of the message before it; and the flag the
    monitor ends with is the flag of its last message. *)
Theorem runDeyePoller_edge_triggered fuel cfg ticks st l st' :
  runDeyePoller env fuel cfg ticks st = (Returns l, st') ->
  exists msgs,
    broadcasts st' = (broadcasts st ++ msgs)%list
    /\ edgeTriggered None msgs
    /\ l = lastFlag None msgs.
Proof.
  unfold runDeyePoller.
  destruct (int64 (PollIntervalSec cfg * Second) <=? 0); [discriminate|].
  unfold bind at 1.
  destruct (checkAndNotify env fuel cfg None st) as [[l1| |] st1] eqn:E;
    try discriminate.
  intros Hloop.
  destruct (checkAndNotify_message _ _ _ _ _ _ E) as (m1 & F1 & Hone & H1 & ->).
  destruct (pollLoop_messages _ _ _ _ _ _ _ Hloop) as (m2 & F2 & H2 & ->).
  destruct (edgeTriggered_app None m1 m2 Hone H1 H2) as (Happ & Hlast).
  exists (m1 ++ m2)%list. split; [|split; [exact Happ | now rewrite Hlast]].
  rewrite F2, F1. now rewrite app_assoc.
Qed.

End Properties.


(** ** Loading the configuration *)

Section ConfigurationProperties.

Variable getenv : string -> string.
Variable TrimSpace : string -> string.
Variable ParseInt : string -> res Z.
Variable Atoi : string -> res Z.
Variable Quote : string -> string.

Lemma parseEach_Ok parts : forall acc ids,
  parseEach TrimSpace ParseInt Quote parts acc = Ok ids
  <-> exists new,
        ids = (acc ++ new)%list
        /\ Forall2 (fun p id => ParseInt p = Ok id)
             (List.filter (fun p => negb (String.eqb p ""))
                (map TrimSpace parts)) new.
Proof.
  induction parts as [|p parts IH]; intros acc ids; cbn [parseEach map List.filter].
  - split.
    + intros [= <-]. exists []. split; [now rewrite app_nil_r|constructor].
    + intros (new & -> & Hall). inversion Hall. now rewrite app_nil_r.
  - destruct (String.eqb (TrimSpace p) ""); cbn [negb]; [apply IH|].
    destruct (ParseInt (TrimSpace p)) as [id|err] eqn:Hp.
    + rewrite IH. split.
      * intros (new & -> & Hall). exists (id :: new). split.
        -- now rewrite <- app_assoc.
        -- now constructor.
      * intros (new & -> & Hall). inversion Hall as [|? id' ? new' Hid Hrest]; subst.
        rewrite Hp in Hid. injection Hid as <-.
        exists new'. split; [now rewrite <- app_assoc | exact Hrest].
    + split; [discriminate|].
      intros (new & _ & Hall). inversion Hall as [|? id' ? new' Hid Hrest]; subst.
      rewrite Hp in Hid. discriminate Hid.
Qed.

Lemma parseUserIDs_nonempty s ids :
  parseUserIDs TrimSpace ParseInt Quote s = Ok ids -> ids <> [].
Proof.
  unfold parseUserIDs.
  destruct (parseEach _ _ _ _ []) as [ids'|err]; [|discriminate].
  destruct ids'; cbn; [discriminate|]. now intros [= <-].
Qed.

(** X19. [parseUserIDs] succeeds exactly when every part between commas
    that is not blank parses as an integer and there is at least one such
    part; the result holds their values, in order, and so is never
    empty. *)
Theorem parseUserIDs_Ok s ids :
  parseUserIDs TrimSpace ParseInt Quote s = Ok ids
  <-> ids <> []
      /\ Forall2 (fun p id => ParseInt p = Ok id) (userParts TrimSpace s) ids.
Proof.
  unfold parseUserIDs, userParts. split.
  - destruct (parseEach _ _ _ _ []) as [ids'|err] eqn:He; [|discriminate].
    apply parseEach_Ok in He as (new & -> & Hall). cbn [app].
    destruct new as [|id new]; cbn; [discriminate|].
    intros [= <-]. split; [discriminate | exact Hall].
  - intros (Hne & Hall).
    assert (He : parseEach TrimSpace ParseInt Quote (Split s ",") [] = Ok ids)
      by (apply parseEach_Ok; now exists ids).
    rewrite He. destruct ids; [now elim Hne | reflexivity].
Qed.

Lemma requiredEnv_Returns key v :
  requiredEnv getenv key = Returns v -> v = getenv key /\ v <> "".
Proof.
  unfold requiredEnv. destruct (String.eqb (getenv key) "") eqn:E;
    [discriminate|].
  intros [= <-]. split; [reflexivity | now apply String.eqb_neq].
Qed.

(** X20. A configuration that [LoadConfig] returns has every required
    setting (base URL, application identifier and secret, e-mail,
    password, bot token) as the environment holds it and not empty, and at
    least one subscriber; the station identifier is 0 and the poll
    interval 60 when their variables are not set. *)
Theorem LoadConfig_Ok cfg :
  LoadConfig getenv TrimSpace ParseInt Atoi Quote = Returns (Ok cfg) ->
  (DeyeBaseURL cfg = getenv "DEYE_BASE_URL" /\ DeyeBaseURL cfg <> "")
  /\ (DeyeAppID cfg = getenv "DEYE_APP_ID" /\ DeyeAppID cfg <> "")
  /\ (DeyeAppSecret cfg = getenv "DEYE_APP_SECRET" /\ DeyeAppSecret cfg <> "")
  /\ (DeyeEmail cfg = getenv "DEYE_EMAIL" /\ DeyeEmail cfg <> "")
  /\ (DeyePassword cfg = getenv "DEYE_PASSWORD" /\ DeyePassword cfg <> "")
  /\ (TelegramBotToken cfg = getenv "TELEGRAM_BOT_TOKEN"
      /\ TelegramBotToken cfg <> "")
  /\ TelegramUserIDs cfg <> []
  /\ DeyeDeviceSN cfg = getenv "DEYE_DEVICE_SN"
  /\ (getenv "DEYE_STATION_ID" = "" -> DeyeStationID cfg = 0)
  /\ (getenv "POLL_INTERVAL_SEC" = "" -> PollIntervalSec cfg = 60).
Proof.
  unfold LoadConfig. lazy zeta.
  destruct (if negb (String.eqb (getenv "DEYE_STATION_ID") "")
            then ParseInt (getenv "DEYE_STATION_ID") else Ok 0)
    as [stationID|err] eqn:Hst; [|discriminate].
  destruct (parseUserIDs TrimSpace ParseInt Quote (getenv "TELEGRAM_USER_IDS"))
    as [userIDs|err] eqn:Hu; [|discriminate].
  destruct (if negb (String.eqb (getenv "POLL_INTERVAL_SEC") "")
            then Atoi (getenv "POLL_INTERVAL_SEC") else Ok 60)
    as [poll|err] eqn:Hpoll; [|discriminate].
  destruct (requiredEnv getenv "DEYE_BASE_URL") as [v1| |] eqn:H1;
    try discriminate.
  destruct (requiredEnv getenv "DEYE_APP_ID") as [v2| |] eqn:H2;
    try discriminate.
  destruct (requiredEnv getenv "DEYE_APP_SECRET") as [v3| |] eqn:H3;
    try discriminate.
  destruct (requiredEnv getenv "DEYE_EMAIL") as [v4| |] eqn:H4;
    try discriminate.
  destruct (requiredEnv getenv "DEYE_PASSWORD") as [v5| |] eqn:H5;
    try discriminate.
  destruct (requiredEnv getenv "TELEGRAM_BOT_TOKEN") as [v6| |] eqn:H6;
    try discriminate.
  cbn [andThen]. intros [= <-]. cbn.
  apply requiredEnv_Returns in H1, H2, H3, H4, H5, H6.
  apply parseUserIDs_nonempty in Hu.
  repeat split; try tauto.
  - intros Hunset. rewrite Hunset in Hst. now injection Hst as <-.
  - intros Hunset. rewrite Hunset in Hpoll. now injection Hpoll as <-.
Qed.

End ConfigurationProperties.

(** ** The token manager under concurrent callers *)

Section ConcurrentProperties.
Import Concurrent.

Lemma excl_acquire m ts i p q :
  excl m ts -> ts !! i = Some p -> m = None -> holds q = true ->
  excl (Some i) (<[i := q]> ts).
Proof.
  intros He Hi -> Hq j r Hj.
  destruct (decide (i = j)) as [->|Hne].
  - rewrite list_lookup_insert_eq in Hj by (eapply lookup_lt_Some; eassumption).
    injection Hj as <-. tauto.
  - rewrite list_lookup_insert_ne in Hj by assumption.
    specialize (He j r Hj). split.
    + intros Hr. apply He in Hr. discriminate Hr.
    + intros [= ->]. now elim Hne.
Qed.

Lemma excl_release m ts i p q :
  excl m ts -> ts !! i = Some p -> holds p = true -> holds q = false ->
  excl None (<[i := q]> ts).
Proof.
  intros He Hi Hp Hq j r Hj.
  pose proof (proj1 (He i p Hi) Hp) as Hm.
  destruct (decide (i = j)) as [->|Hne].
  - rewrite list_lookup_insert_eq in Hj by (eapply lookup_lt_Some; eassumption).
    injection Hj as <-. rewrite Hq. split; discriminate.
  - rewrite list_lookup_insert_ne in Hj by assumption.
    specialize (He j r Hj). split; [|discriminate].
    intros Hr. apply He in Hr. rewrite Hm in Hr. injection Hr as ->.
    now elim Hne.
Qed.

Lemma excl_keep m ts i p q :
  excl m ts -> ts !! i = Some p -> holds q = holds p ->
  excl m (<[i := q]> ts).
Proof.
  intros He Hi Hq j r Hj.
  destruct (decide (i = j)) as [->|Hne].
  - rewrite list_lookup_insert_eq in Hj by (eapply lookup_lt_Some; eassumption).
    injection Hj as <-. rewrite Hq. now apply He.
  - rewrite list_lookup_insert_ne in Hj by assumption. now apply He.
Qed.

Lemma exclusive_excl s : exclusive s <-> excl (mu s) (threads s).
Proof. reflexivity. Qed.

Lemma lock_exclusive i p next s :
  exclusive s -> threads s !! i = Some p -> holds next = true ->
  exclusive (lock i next s).
Proof.
  intros He Hi Hn. unfold lock. destruct (mu s) eqn:Hm; [exact He|].
  apply exclusive_excl. cbn. eapply excl_acquire; eauto.
Qed.

Lemma move_exclusive server i s : exclusive s -> exclusive (move server i s).
Proof.
  intros He. unfold move. destruct (threads s !! i) as [p|] eqn:Hi; [|exact He].
  destruct p.
  - eapply lock_exclusive; eauto.
  - apply exclusive_excl. cbn. eapply excl_release; eauto.
  - destruct (_ || _); apply exclusive_excl; cbn;
      eapply excl_keep; eauto.
  - eapply lock_exclusive; eauto.
  - apply exclusive_excl. cbn. eapply excl_keep; eauto.
  - destruct (server _); apply exclusive_excl; cbn;
      eapply excl_release; eauto.
  - eapply lock_exclusive; eauto.
  - apply exclusive_excl. cbn. eapply excl_release; eauto.
  - exact He.
Qed.

Lemma start_exclusive n t0 : exclusive (start n t0).
Proof.
  intros i p Hi. cbn in Hi. apply lookup_replicate in Hi as [-> _].
  split; discriminate.
Qed.

Lemma run_exclusive server schedule : forall s,
  exclusive s -> exclusive (run server schedule s).
Proof.
  induction schedule as [|e schedule IH]; intros s He; [exact He|].
  cbn. apply IH. destruct e; [now apply move_exclusive | exact He].
Qed.

Lemma one_in_flight m ts : excl m ts -> (length (List.filter inFlight ts) <= 1)%nat.
Proof.
  intros He.
  assert (Huniq : forall i j p q, ts !! i = Some p -> ts !! j = Some q ->
            inFlight p = true -> inFlight q = true -> i = j).
  { intros i j p q Hi Hj Hp Hq.
    assert (Hhp : holds p = true) by (now destruct p).
    assert (Hhq : holds q = true) by (now destruct q).
    apply (He i p Hi) in Hhp. apply (He j q Hj) in Hhq. congruence. }
  clear He. induction ts as [|a ts IH]; cbn; [lia|].
  destruct (inFlight a) eqn:Ha; cbn.
  - assert (Hnone : List.filter inFlight ts = []).
    { destruct (List.filter inFlight ts) as [|b l] eqn:Hf; [reflexivity|].
      assert (Hb : In b (List.filter inFlight ts)) by (rewrite Hf; now left).
      apply filter_In in Hb as [Hin Hfb].
      apply list_elem_of_In, list_elem_of_lookup in Hin as [j Hj].
      discriminate (Huniq 0%nat (S j) a b eq_refl Hj Ha Hfb). }
    rewrite Hnone. cbn. lia.
  - apply IH. intros i j p q Hi Hj Hp Hq.
    assert (S i = S j) by (eapply (Huniq (S i) (S j)); eassumption).
    lia.
Qed.

(** C4, as the code has it. For any number of concurrent callers of
    [getToken], any schedule and any answers of the token endpoint: the
    mutex is held by exactly the callers between a [Lock] and its
    [Unlock], where the token is read, checked and written and where the
    exchange runs, so at most one authentication is in flight at any
    time. (The mutex is released between the check and the exchange.) *)
Theorem getToken_one_in_flight server schedule n t0 :
  let s := run server schedule (start n t0) in
  exclusive s /\ (flying s <= 1)%nat.
Proof.
  cbn zeta.
  assert (He : exclusive (run server schedule (start n t0)))
    by apply run_exclusive, start_exclusive.
  split; [exact He|]. unfold flying. eapply one_in_flight. exact He.
Qed.

(** Two callers that both find the token missing, with the mutex free
    between the check and the exchange, each send a token request. *)
Lemma getToken_race_two_requests :
  let s1 := run alwaysGrants race (start 2 0) in
  let s2 := run alwaysGrants raceOn s1 in
  threads s1 = [GetToken_Check "" true; GetToken_Check "" true]
  /\ mu s1 = None
  /\ requests s1 = 0%nat
  /\ requests s2 = 2%nat
  /\ threads s2 = [Done (Ok "Bearer eyJhbGciOiJIUzI1NiJ9.c3ZpdGxv");
                   Done (Ok "Bearer eyJhbGciOiJIUzI1NiJ9.c3ZpdGxv")].
Proof. vm_compute. repeat split. Qed.

Lemma count_insert (f : pc -> bool) (ts : list pc) i p q :
  ts !! i = Some p ->
  (length (List.filter f (<[i := q]> ts)) + (if f p then 1 else 0)
   = length (List.filter f ts) + (if f q then 1 else 0))%nat.
Proof.
  revert i. induction ts as [|a ts IH]; intros i Hi; [discriminate Hi|].
  destruct i as [|i]; cbn in Hi |- *.
  - injection Hi as ->. destruct (f p), (f q); cbn; lia.
  - specialize (IH i Hi). destruct (f a); cbn; [f_equal|]; exact IH.
Qed.

Lemma move_served server i s : served s -> served (move server i s).
Proof.
  unfold served, move. intros Hs.
  destruct (threads s !! i) as [p|] eqn:Hi; [|exact Hs].
  destruct p; unfold lock;
    repeat match goal with
           | |- context [match ?x with _ => _ end] => destruct x
           | |- context [if ?b then _ else _] => destruct b
           end;
    cbn [requests threads set_thread set_mu unlock set_credential
         count_request];
    try exact Hs;
    match goal with
    | |- context [<[i := ?q]> (threads s)] =>
      pose proof (count_insert pastSend (threads s) i _ q Hi) as Hc;
      cbn [pastSend] in Hc; lia
    end.
Qed.

(** X21. Whatever the schedule and the answers of the token endpoint, [n]
    concurrent callers of [getToken] send at most [n] token requests: no
    caller authenticates twice. *)
Theorem getToken_one_request_per_caller server schedule n t0 :
  (requests (run server schedule (start n t0)) <= n)%nat.
Proof.
  assert (Hs : forall s, served s -> served (run server schedule s)).
  { unfold run. induction schedule as [|e schedule IH]; intros s Hs;
      [exact Hs|].
    cbn [fold_left]. apply IH. destruct e; [now apply move_served | exact Hs]. }
  assert (Hlen : forall s, length (threads (run server schedule s))
                           = length (threads s)).
  { clear Hs. unfold run. induction schedule as [|e schedule IH]; intros s;
      [reflexivity|].
    cbn [fold_left]. rewrite IH. destruct e; [|reflexivity].
    unfold step, move, lock.
    repeat match goal with
           | |- context [match ?x with _ => _ end] => destruct x
           | |- context [if ?b then _ else _] => destruct b
           end; cbn; rewrite ?length_insert; reflexivity. }
  specialize (Hs (start n t0) ltac:(unfold served; cbn; lia)).
  specialize (Hlen (start n t0)). cbn in Hlen. rewrite length_replicate in Hlen.
  unfold served in Hs.
  pose proof (filter_length_le pastSend
                (threads (run server schedule (start n t0)))) as Hle.
  lia.
Qed.

End ConcurrentProperties.

(** * The program on the fixtures *)

Section Runs.
Import Demo.

#[local] Existing Instances readToken readStation readDevices readTelegram
  readUpdates readDtek writeToken writeStation writeDevices writeSend
  writeUpdates.

Let minute : N := 60000000000.

(** C1: the code at the failing input. The station endpoint answers 401
    twice and then accepts. After the second 401 the call does not fail:
    it authenticates a second time and sends the request a third time. *)
Theorem doRequest_retries_after_second_401 :
  let r := doRequest (Resp := StationLatestResponse.t)
             (world rejectedTwice (fun _ => chrome)) 5
             "/v1.0/station/latest"
             {| StationLatestRequest.StationID := 61 |} boot in
  fst r = Returns (Ok (station (Some 0%float) (Some 150%float)))
  /\ map URL (sent (snd r))
     = [tokenEndpoint; stationEndpoint;
        tokenEndpoint; stationEndpoint;
        tokenEndpoint; stationEndpoint].
Proof. vm_compute. split; reflexivity. Qed.

(** Against an endpoint that answers 401 every time the call goes on for
    as long as it is given fuel: 20 requests, each followed by a new
    authentication, and no result. *)
Lemma doRequest_rejected_20_times :
  let r := doRequest (Resp := StationLatestResponse.t)
             (world rejectedAlways (fun _ => chrome)) 20
             "/v1.0/station/latest"
             {| StationLatestRequest.StationID := 61 |} boot in
  fst r = OutOfFuel
  /\ length (List.filter (fun q => String.eqb (URL q) stationEndpoint)
               (sent (snd r))) = 20%nat
  /\ length (List.filter (fun q => String.eqb (URL q) tokenEndpoint)
               (sent (snd r))) = 21%nat.
Proof. vm_compute. repeat split. Qed.

Lemma scripted_constant rules url url' x history req :
  List.find (fun rule => String.eqb (fst rule) url) rules = Some (url', [x]) ->
  URL req = url ->
  scripted rules history req = x.
Proof.
  intros Hf <-. unfold scripted. rewrite Hf.
  now destruct (length _) as [|[|n]].
Qed.

(** ... and for any fuel at all: the call does not return. *)
Lemma doRequest_rejected_never_returns : forall fuel,
  fst (doRequest (Resp := StationLatestResponse.t)
         (world rejectedAlways (fun _ => chrome)) fuel
         "/v1.0/station/latest"
         {| StationLatestRequest.StationID := 61 |} boot) = OutOfFuel.
Proof.
  intros fuel.
  apply (doRequest_rejected_forever _ (deye boot)); try reflexivity.
  - intros history req Hurl.
    exists (120 * 1000000)%N, 200, "granted", granted.
    split; [|repeat split; vm_compute; discriminate].
    cbn [remote world].
    now rewrite (scripted_constant rejectedAlways (tokenURL (deye boot))
                   tokenEndpoint (reply 120 200 "granted") history req
                   eq_refl Hurl).
  - intros history req Hurl.
    exists (90 * 1000000)%N, "unauthorized".
    cbn [remote world].
    now rewrite (scripted_constant rejectedAlways
                   (baseURL (deye boot) ++ "/v1.0/station/latest")%string
                   stationEndpoint (reply 90 401 "unauthorized") history req
                   eq_refl Hurl).
  - now repeat split.
  - now left.
Qed.

Lemma GetPowerStatus_HasGrid_witness :
  exists status st2,
    GetPowerStatus (world gridUp (fun _ => chrome)) 2 61 "SN-1" boot
      = (Returns (Ok status), st2)
    /\ PowerStatus.HasGrid status = true.
Proof.
  set (w := world gridUp (fun _ => chrome)).
  set (r1 := GetStationLatest w 2 61 boot).
  set (r2 := GetDeviceLatest w 2 ["SN-1"] (snd r1)).
  destruct (GetPowerStatus_HasGrid w 2 61 "SN-1" boot
              (station (Some 0%float) (Some 150%float)) (snd r1)
              (devices [inverter]) (snd r2))
    as (status & Hrun & _ & _ & H150).
  - vm_compute. reflexivity.
  - vm_compute. reflexivity.
  - exists status, (snd r2). split; [exact Hrun|]. apply H150; reflexivity.
Defined.

Lemma GetPowerStatus_empty_device_list_witness :
  exists status st2,
    GetPowerStatus (world noDevice (fun _ => chrome)) 2 61 "SN-1" boot
      = (Returns (Ok status), st2)
    /\ PowerStatus.DeviceOnline status = false
    /\ PowerStatus.DeviceState status = 0
    /\ PowerStatus.BatterySOC status = 87%float.
Proof.
  set (w := world noDevice (fun _ => chrome)).
  set (r1 := GetStationLatest w 2 61 boot).
  set (r2 := GetDeviceLatest w 2 ["SN-1"] (snd r1)).
  destruct (GetPowerStatus_empty_device_list w 2 61 "SN-1" boot
              (station None None) (snd r1) (devices []) (snd r2))
    as (status & Hrun & Hon & Hst & _ & _ & _ & _ & _ & Hsoc & _).
  - vm_compute. reflexivity.
  - vm_compute. reflexivity.
  - reflexivity.
  - exists status, (snd r2).
    split; [exact Hrun|]. split; [exact Hon|]. split; [exact Hst|exact Hsoc].
Defined.



(** A run whose first fetch fails: the second cycle is the first one that
    samples a flag. *)
Definition secondCycle : cycle :=
  match cycleOf (world Scenes.lateStart (fun _ => chrome)) 3 cfg
          [minute; minute] boot 1 with
  | Some c => c
  | None => {| sample := None; before := None; after := None; emitted := [] |}
  end.

Lemma first_sample_initial_status_witness :
  let w := world Scenes.lateStart (fun _ => chrome) in
  option_map sample (cycleOf w 3 cfg [minute; minute] boot 0) = Some None
  /\ before secondCycle = None
  /\ after secondCycle = Some true
  /\ exists status line stk,
       emitted secondCycle = [formatStatusMessage status line]
       /\ runDeyePoller w 3 cfg (take 1 [minute; minute]) boot
          = (Returns (Some true), stk)
       /\ broadcasts stk
          = (broadcasts boot ++ [formatStatusMessage status line])%list.
Proof.
  cbn zeta. set (w := world Scenes.lateStart (fun _ => chrome)).
  destruct (first_sample_initial_status w 3 cfg [minute; minute] boot 1
              secondCycle true)
    as (Hb & Ha & (status & line & _ & Hem & stk & Hrun & Hbr) & _).
  - vm_compute. reflexivity.
  - vm_compute. reflexivity.
  - vm_compute. reflexivity.
  - split; [vm_compute; reflexivity|]. split; [exact Hb|]. split; [exact Ha|].
    exists status, line, stk. split; [exact Hem|].
    split; [exact Hrun | exact Hbr].
Defined.

Lemma GetUpdates_cursor_witness :
  let w := world inOrder (fun _ => chrome) in
  offset (bot (snd (GetUpdates w boot))) = 8
  /\ exists req,
       sent (snd (GetUpdates w (snd (GetUpdates w boot))))
       = (sent (snd (GetUpdates w boot)) ++ [req])%list
       /\ Payload req = "offset 8".
Proof.
  cbn zeta. set (w := world inOrder (fun _ => chrome)).
  destruct (GetUpdates_cursor w boot [update 5; update 6; update 7]
              (update 7) (snd (GetUpdates w boot)))
    as (_ & Hnext & _ & H567).
  - vm_compute. reflexivity.
  - reflexivity.
  - split; [apply H567; reflexivity|].
    destruct (Hnext (snd (GetUpdates w boot)) eq_refl) as (req & Hs & Hp).
    exists req. split; [exact Hs|]. rewrite Hp. reflexivity.
Defined.

(** C5 as the spec states it fails: the batch 7, 5 leaves the offset at 6,
    one past its last identifier, not at 8, one past its highest. *)
Lemma GetUpdates_cursor_not_highest :
  let r := GetUpdates (world outOfOrder (fun _ => chrome)) boot in
  fst r = Returns (Ok [update 7; update 5])
  /\ highestUpdateID [update 7; update 5] + 1 = 8
  /\ offset (bot (snd r)) = 6
  /\ offset (bot (snd r)) <> highestUpdateID [update 7; update 5] + 1.
Proof. vm_compute. repeat split. discriminate. Qed.

Lemma GetShutdown_absent_cached_witness :
  let w := world schedule chromeThenNone in
  let st1 := snd (GetShutdown w boot) in
  GetShutdown w (with_now (now st1 + 9 * Minute) st1)
    = (Returns (Ok None), with_now (now st1 + 9 * Minute) st1)
  /\ fetches (snd (GetShutdown w (with_now (now st1 + 10 * Minute) st1)))
     = 2%nat.
Proof.
  cbn zeta. set (w := world schedule chromeThenNone).
  set (st1 := snd (GetShutdown w boot)).
  destruct (GetShutdown_absent_cached w boot st1) as (Hin & Hout).
  - vm_compute. reflexivity.
  - vm_compute. reflexivity.
  - split.
    + apply Hin; vm_compute; reflexivity.
    + rewrite Hout; [vm_compute; reflexivity | vm_compute; reflexivity |].
      vm_compute. discriminate.
Defined.

Lemma GetShutdown_fetch_error_witness :
  let w := world schedule chromeThenNone in
  let st1 := snd (GetShutdown w boot) in
  let st2 := with_now (now st1 + 11 * Minute) st1 in
  isOk (match fst (GetShutdown w st2) with
        | Returns r => r
        | _ => Ok None
        end) = false
  /\ dtek (snd (GetShutdown w st2)) = dtek st1.
Proof.
  cbn zeta. set (w := world schedule chromeThenNone).
  set (st1 := snd (GetShutdown w boot)).
  set (st2 := with_now (now st1 + 11 * Minute) st1).
  destruct (GetShutdown_fetch_error w st2
              (Errorf "chromium not found; install it: snap install chromium")
              (snd (FetchShutdowns w st2)))
    as (Hrun & _).
  - vm_compute. reflexivity.
  - vm_compute. reflexivity.
  - rewrite Hrun. split; vm_compute; reflexivity.
Defined.

Lemma Authenticate_Bearer_witness :
  let w := world gridUp (fun _ => chrome) in
  accessToken (deye (snd (Authenticate w boot)))
    = "Bearer eyJhbGciOiJIUzI1NiJ9.c3ZpdGxv"
  /\ String.prefix "Bearer " (accessToken (deye (snd (Authenticate w boot))))
     = true.
Proof.
  cbn zeta. set (w := world gridUp (fun _ => chrome)).
  destruct (Authenticate_Bearer w boot (snd (Authenticate w boot)))
    as (Hb & _).
  - vm_compute. reflexivity.
  - split; [vm_compute; reflexivity | exact Hb].
Defined.

End Runs.

(** * The further properties on the fixtures *)

Section MoreRuns.
Import Demo Scenes.

#[local] Existing Instances readTokenOrDenial readStation readDevices
  readTelegramOrRefusal readCommands readDtek readDeviceList writeToken
  writeStation writeDevices writeSend writeUpdates writeDeviceList.

Let minute : N := 60000000000.

(** Telegram refuses the message to the first subscriber; the second one
    is sent all the same. *)
Lemma Broadcast_reaches_every_subscriber_witness :
  let w := world lossy (fun _ => chrome) in
  fst (SendMessage w 1001 (Literal "test") boot)
  = Returns (Err (Errorf
      "telegram sendMessage failed: Forbidden: bot was blocked by the user"))
  /\ exists st',
       Broadcast w (Literal "test") boot = (Returns tt, st')
       /\ sent st'
          = (sent boot
             ++ map (sendMessageTo (bot boot) (Literal "test")) [1001; 1002])%list
       /\ bot st' = bot boot.
Proof.
  cbn zeta. split; [vm_compute; reflexivity|].
  apply (Broadcast_reaches_every_subscriber
           (world lossy (fun _ => chrome)) (Literal "test") boot).
  vm_compute; reflexivity.
Defined.

(** The cursor stands at 8; a poll that brings nothing leaves it there. *)
Lemma GetUpdates_keeps_cursor_witness :
  let st1 := snd (GetUpdates (world inOrder (fun _ => chrome)) boot) in
  let w := world quiet (fun _ => chrome) in
  offset (bot st1) = 8
  /\ offset (bot (snd (GetUpdates w st1))) = 8.
Proof.
  cbn zeta.
  set (st1 := snd (GetUpdates (world inOrder (fun _ => chrome)) boot)).
  set (w := world quiet (fun _ => chrome)).
  split; [vm_compute; reflexivity|].
  rewrite (GetUpdates_keeps_cursor w st1 (Ok []) (snd (GetUpdates w st1))).
  - vm_compute; reflexivity.
  - vm_compute; reflexivity.
  - right; reflexivity.
Defined.

(** An answer with status 500 whose body reads as accepted counts as a
    delivery. *)
Lemma SendMessage_ok_iff_witness :
  let w := world acceptedWith500 (fun _ => chrome) in
  fst (SendMessage w 1001 (Literal "test") boot) = Returns (Ok tt).
Proof.
  cbn zeta. set (w := world acceptedWith500 (fun _ => chrome)).
  apply (SendMessage_ok_iff w 1001 (Literal "test") boot).
  - vm_compute; reflexivity.
  - exists {| StatusCode := 500; Body := Some "ok" |}, "ok",
      {| telegramResponse.OK := true; telegramResponse.Description := "" |}.
    split; [vm_compute; reflexivity|]. split; [reflexivity|].
    split; vm_compute; reflexivity.
Defined.

(** A client that holds a token keeps it when a later authentication is
    refused. *)
Lemma Authenticate_error_keeps_client_witness :
  let st1 := snd (Authenticate (world gridUp (fun _ => chrome)) boot) in
  let w := world refused (fun _ => chrome) in
  accessToken (deye (snd (Authenticate w st1)))
  = "Bearer eyJhbGciOiJIUzI1NiJ9.c3ZpdGxv".
Proof.
  cbn zeta.
  set (st1 := snd (Authenticate (world gridUp (fun _ => chrome)) boot)).
  set (w := world refused (fun _ => chrome)).
  rewrite (Authenticate_error_keeps_client w st1
             (Errorf "deye auth failed: code=2101006 msg=auth invalid param")
             (snd (Authenticate w st1))).
  - vm_compute; reflexivity.
  - vm_compute; reflexivity.
Defined.

Lemma Authenticate_valid_59_days_witness :
  let w := world gridUp (fun _ => chrome) in
  let st1 := snd (Authenticate w boot) in
  let day58 := with_now (now st1 + 58 * 24 * Hour) st1 in
  let day60 := with_now (now st1 + 60 * 24 * Hour) st1 in
  getToken w day58
  = (Returns (Ok "Bearer eyJhbGciOiJIUzI1NiJ9.c3ZpdGxv"), day58)
  /\ map URL (sent (snd (getToken w day60))) = [tokenEndpoint; tokenEndpoint].
Proof.
  cbn zeta. set (w := world gridUp (fun _ => chrome)).
  set (st1 := snd (Authenticate w boot)).
  destruct (Authenticate_valid_59_days w boot st1) as (_ & Hin & Hout).
  - vm_compute; reflexivity.
  - split.
    + apply (Hin (with_now (now st1 + 58 * 24 * Hour) st1));
        [vm_compute; reflexivity | vm_compute; discriminate].
    + rewrite (Hout (with_now (now st1 + 60 * 24 * Hour) st1));
        [vm_compute; reflexivity | vm_compute; reflexivity
        | vm_compute; reflexivity].
Defined.

(** The stored token, [Bearer abc123], has 13 bytes. *)
Lemma Authenticate_panics_iff_short_token_witness :
  let w := world briefGrant (fun _ => chrome) in
  exists reason, fst (Authenticate w boot) = Panics reason.
Proof.
  cbn zeta. set (w := world briefGrant (fun _ => chrome)).
  apply (Authenticate_panics_iff_short_token w boot).
  - vm_compute; reflexivity.
  - exists {| StatusCode := 200; Body := Some "brief" |}, "brief", brief.
    split; [vm_compute; reflexivity|]. split; [reflexivity|].
    split; [vm_compute; reflexivity|]. split; [reflexivity|].
    vm_compute; reflexivity.
Defined.

(** The station endpoint answers with status 500: the body is read as a
    reading all the same. *)
Lemma doRequest_answer_witness :
  let st1 := snd (Authenticate (world gridUp (fun _ => chrome)) boot) in
  let w := world serverError (fun _ => chrome) in
  fst (doRequest (Resp := StationLatestResponse.t) w 1
         "/v1.0/station/latest" {| StationLatestRequest.StationID := 61 |} st1)
  = Returns (Ok (station (Some 0%float) (Some 150%float))).
Proof.
  cbn zeta.
  set (st1 := snd (Authenticate (world gridUp (fun _ => chrome)) boot)).
  set (w := world serverError (fun _ => chrome)).
  rewrite (doRequest_answer (Resp := StationLatestResponse.t) w 0
             "/v1.0/station/latest" {| StationLatestRequest.StationID := 61 |}
             st1 {| StatusCode := 500; Body := Some "grid 0, purchase 150" |}
             "grid 0, purchase 150").
  - vm_compute; reflexivity.
  - vm_compute; discriminate.
  - vm_compute; discriminate.
  - vm_compute; discriminate.
  - vm_compute; reflexivity.
  - vm_compute; reflexivity.
  - reflexivity.
  - vm_compute; discriminate.
Defined.

(** The serial number is configured and the station is not: the station
    of the first device listed is taken, the serial number is kept. *)
Lemma discover_fills_only_unset_witness :
  let cfg0 := set_DeyeStationID 0 cfg in
  let w := world discovery (fun _ => chrome) in
  let cfg1 := set_DeyeStationID 77 cfg in
  fst (discover w 2 cfg0 (startState cfg0 0)) = Returns (Ok cfg1)
  /\ TelegramUserIDs cfg1 = TelegramUserIDs cfg0
  /\ PollIntervalSec cfg1 = PollIntervalSec cfg0.
Proof.
  cbn zeta. set (cfg0 := set_DeyeStationID 0 cfg).
  set (w := world discovery (fun _ => chrome)).
  split; [vm_compute; reflexivity|].
  destruct (discover_fills_only_unset w 2 cfg0 (startState cfg0 0)
              (set_DeyeStationID 77 cfg)
              (snd (discover w 2 cfg0 (startState cfg0 0))))
    as (_ & _ & _ & _ & _ & _ & _ & Hu & Hp).
  - vm_compute; reflexivity.
  - split; [exact Hu | exact Hp].
Defined.

Lemma GetShutdown_serves_fetched_witness :
  let w := world planned (fun _ => chrome) in
  let st1 := snd (GetShutdown w boot) in
  let st2 := with_now (now st1 + 9 * Minute) st1 in
  GetShutdown w st2 = (Returns (Ok (Some outage)), st2).
Proof.
  cbn zeta. set (w := world planned (fun _ => chrome)).
  set (st1 := snd (GetShutdown w boot)).
  destruct (GetShutdown_serves_fetched w boot (Some outage) st1)
    as (_ & _ & Hin).
  - vm_compute; reflexivity.
  - vm_compute; reflexivity.
  - apply Hin; vm_compute; reflexivity.
Defined.

Lemma FetchShutdowns_browser_failure_witness :
  let w := world planned (fun _ => noCsrf) in
  exists e st',
    FetchShutdowns w boot = (Returns (Err e), st') /\ sent st' = sent boot.
Proof.
  cbn zeta.
  apply (FetchShutdowns_browser_failure (world planned (fun _ => noCsrf)) boot).
  intros (_ & _ & _ & _ & _ & _ & csrf & Hcsrf).
  vm_compute in Hcsrf. discriminate Hcsrf.
Defined.

Lemma FetchShutdowns_Ok_witness :
  let w := world planned (fun _ => chrome) in
  exists req,
    sent (snd (FetchShutdowns w boot)) = [req]
    /\ Header_Get req "X-CSRF-Token" = "csrf"
    /\ Header_Get req "Cookie" = "visid_incap=x; incap_ses=y".
Proof.
  cbn zeta. set (w := world planned (fun _ => chrome)).
  destruct (FetchShutdowns_Ok w boot (Some outage)
              (snd (FetchShutdowns w boot)))
    as (jar & csrf & req & resp & body & d & Hjar & Hcsrf & Hsent & _
        & Htoken & Hcookie & _).
  - vm_compute; reflexivity.
  - vm_compute in Hjar. injection Hjar as <-.
    vm_compute in Hcsrf. injection Hcsrf as <-.
    exists req. split; [exact Hsent|]. split; [exact Htoken|].
    rewrite Hcookie. vm_compute; reflexivity.
Defined.

(** A command from a chat that is not subscribed is dropped. *)
Lemma handleUpdate_drops_witness :
  let w := world flapping (fun _ => chrome) in
  handleUpdate w 2 cfg (command 9 4242 "/status") boot = (Returns tt, boot).
Proof.
  cbn zeta.
  apply (handleUpdate_drops (world flapping (fun _ => chrome)) 2 cfg
           (command 9 4242 "/status") boot).
  vm_compute. left. intros [H|[H|[]]]; discriminate H.
Defined.

Lemma handleStatusCommand_answers_asker_witness :
  let w := world flapping (fun _ => chrome) in
  exists text others st',
    handleStatusCommand w 2 cfg 1002 boot = (Returns tt, st')
    /\ sent st'
       = (sent boot ++ others ++ [sendMessageTo (bot boot) text 1002])%list
    /\ Forall (fun q => URL q <> apiURL (bot boot) "sendMessage") others
    /\ broadcasts st' = broadcasts boot.
Proof.
  cbn zeta. set (w := world flapping (fun _ => chrome)).
  destruct (handleStatusCommand_answers_asker w 2 cfg 1002 boot
              (match fst (GetPowerStatus w 2 61 "SN-1" boot) with
               | Returns r => r
               | _ => Err ErrTransport
               end)
              (snd (GetPowerStatus w 2 61 "SN-1" boot)))
    as (text & others & st' & Hrun & Hsent & _ & Hfree & _ & Hb & _).
  - vm_compute; reflexivity.
  - vm_compute; reflexivity.
  - exists text, others, st'. split; [exact Hrun|]. split; [exact Hsent|].
    split; [|exact Hb]. apply Hfree.
    intros suffix H. vm_compute in H. discriminate H.
Defined.

(** Four polls: grid up, a failed fetch, grid up, grid down. *)
Lemma runDeyePoller_edge_triggered_witness :
  let w := world flapping (fun _ => chrome) in
  let r := runDeyePoller w 3 cfg [minute; minute; minute] boot in
  fst r = Returns (Some false)
  /\ exists msgs,
       broadcasts (snd r) = (broadcasts boot ++ msgs)%list
       /\ edgeTriggered None msgs
       /\ Some false = lastFlag None msgs.
Proof.
  cbn zeta. set (w := world flapping (fun _ => chrome)).
  split; [vm_compute; reflexivity|].
  apply (runDeyePoller_edge_triggered w 3 cfg [minute; minute; minute] boot
           (Some false)
           (snd (runDeyePoller w 3 cfg [minute; minute; minute] boot))).
  vm_compute; reflexivity.
Defined.

Lemma parseUserIDs_Ok_witness :
  userParts TrimSpace " 1001, 1002,," = ["1001"; "1002"]
  /\ Forall2 (fun p id => ParseInt p = Ok id)
       (userParts TrimSpace " 1001, 1002,,") [1001; 1002].
Proof.
  split; [vm_compute; reflexivity|].
  apply (parseUserIDs_Ok TrimSpace ParseInt Quote " 1001, 1002,," [1001; 1002]).
  vm_compute; reflexivity.
Defined.

Lemma LoadConfig_Ok_witness :
  let loaded :=
    {| DeyeBaseURL := "https://deye.example";
       DeyeAppID := "app";
       DeyeAppSecret := "secret";
       DeyeEmail := "user@example.org";
       DeyePassword := "password";
       DeyeStationID := 0;
       DeyeDeviceSN := "";
       TelegramBotToken := "TOKEN";
       TelegramUserIDs := [1001; 1002];
       PollIntervalSec := 60 |} in
  LoadConfig getenv TrimSpace ParseInt ParseInt Quote = Returns (Ok loaded)
  /\ TelegramBotToken loaded <> ""
  /\ TelegramUserIDs loaded <> [].
Proof.
  cbn zeta. split; [vm_compute; reflexivity|].
  destruct (LoadConfig_Ok getenv TrimSpace ParseInt ParseInt Quote
              {| DeyeBaseURL := "https://deye.example";
                 DeyeAppID := "app";
                 DeyeAppSecret := "secret";
                 DeyeEmail := "user@example.org";
                 DeyePassword := "password";
                 DeyeStationID := 0;
                 DeyeDeviceSN := "";
                 TelegramBotToken := "TOKEN";
                 TelegramUserIDs := [1001; 1002];
                 PollIntervalSec := 60 |})
    as (_ & _ & _ & _ & _ & (_ & Htoken) & Hids & _).
  - vm_compute; reflexivity.
  - split; [exact Htoken | exact Hids].
Defined.

End MoreRuns.
